(** * HankookTire SmartSensor 2.0: control-plane functions, embedded and verified

  A shallow embedding of the decision functions of the monitoring and
  self-healing code:

  - [monitoring/scripts/health-check.py]             (module [HealthCheck])
  - [monitoring/auto-recovery/self_healing_system.py] (module [SelfHealing])
  - [monitoring/ai-analytics/anomaly_detector.py]     (module [AnomalyDetector])
  - [backend/app/main.py]                             (module [Backend])

  Conventions.  Python [float] values are modelled by exact rationals
  ([Q]); [datetime] values by an integer number of microseconds ([Z]);
  [str] by [string]; a [dict] whose iteration order is never observed by
  [gmap], one whose order is observed by an insertion-ordered association
  list; exceptions by an explicit [outcome] type. *)

From Stdlib Require Import ZArith QArith Qminmax Qabs Lia Lqa List Bool Ascii String Sorted.
From stdpp Require Import gmap strings list fin_maps pretty.

Local Open Scope Z_scope.

(* ===================================================================== *)
(** * Python built-ins shared by the modules                              *)
(* ===================================================================== *)

Module Py.

(** [max(a, b)] on numbers: the first argument is kept unless the second
    is strictly larger. *)
Definition max (a b : Q) : Q := if Qlt_le_dec a b then b else a.

(** [sum(xs)]: a left fold starting from [0]. *)
Definition sum (xs : list Q) : Q := fold_left Qplus xs (0 : Q).

(** Stable insertion into a list that is ordered descending: [x] goes
    in front of the first element that is not strictly above it. *)
Fixpoint insert_desc {A} (ltb : A -> A -> bool) (x : A) (l : list A) : list A :=
  match l with
  | [] => [x]
  | y :: l' => if ltb x y then y :: insert_desc ltb x l' else x :: y :: l'
  end.

(** [sorted(l, key=..., reverse=True)].  Python's sort is stable also
    with [reverse=True]: elements whose keys compare equal keep their
    input order.  [ltb a b] is [key(a) < key(b)].  For a key order that
    is a strict weak order every stable sort returns the same list, so
    the insertion sort below stands for the built-in one. *)
Definition sorted_desc {A} (ltb : A -> A -> bool) (l : list A) : list A :=
  foldr (insert_desc ltb) [] l.

(** An insertion-ordered [dict] with string keys: [d[k] = v] overwrites
    in place when [k] is present and appends otherwise, and [d.values()]
    lists the values in the order the keys were first inserted. *)
Definition odict (V : Type) : Type := list (string * V).

Fixpoint od_get {V} (d : odict V) (k : string) : option V :=
  match d with
  | [] => None
  | (k', v) :: d' => if decide (k' = k) then Some v else od_get d' k
  end.

Fixpoint od_set {V} (d : odict V) (k : string) (v : V) : odict V :=
  match d with
  | [] => [(k, v)]
  | (k', v') :: d' =>
      if decide (k' = k) then (k, v) :: d' else (k', v') :: od_set d' k v
  end.

Definition od_keys {V} (d : odict V) : list string := map fst d.
Definition od_values {V} (d : odict V) : list V := map snd d.

(** *** Exceptions *)

Inductive exn :=
| ValueError (msg : string)
| IndexError (msg : string)
| TypeError (msg : string)
| ApiException (msg : string)
| ConnectionError (msg : string).

(** [str(e)] *)
Definition exn_str (e : exn) : string :=
  match e with
  | ValueError m | IndexError m | TypeError m | ApiException m
  | ConnectionError m => m
  end.

(** The result of running a piece of code: a value, or a raised exception. *)
Inductive outcome (A : Type) : Type :=
| Ok (a : A)
| Raise (e : exn).
Global Arguments Ok {A} a.
Global Arguments Raise {A} e.

Definition bind {A B} (c : outcome A) (k : A → outcome B) : outcome B :=
  match c with
  | Ok a => k a
  | Raise e => Raise e
  end.

(** [try: c  except Exception as e: h(e)] *)
Definition try_except {A} (c : outcome A) (h : exn → outcome A) : outcome A :=
  match c with
  | Ok a => Ok a
  | Raise e => h e
  end.

(** *** [str] methods.  A [string] is read as a sequence of code points
    below 256. *)

(** [s.split(c)] for a one-character separator. *)
Fixpoint split_char (c : ascii) (s : string) : list string :=
  match s with
  | EmptyString => [EmptyString]
  | String a s' =>
      if decide (a = c) then EmptyString :: split_char c s'
      else match split_char c s' with
           | h :: t => String a h :: t
           | [] => [String a EmptyString]
           end
  end.

(** [c in s] *)
Fixpoint contains_char (c : ascii) (s : string) : bool :=
  match s with
  | EmptyString => false
  | String a s' => if decide (a = c) then true else contains_char c s'
  end.

(** [s.rsplit(c, 1)] when [c] occurs in [s]: the text before and after
    the last occurrence; [None] when [c] does not occur (the method then
    returns the one-element list [[s]]). *)
Fixpoint rsplit1 (c : ascii) (s : string) : option (string * string) :=
  match s with
  | EmptyString => None
  | String a s' =>
      match rsplit1 c s' with
      | Some (h, t) => Some (String a h, t)
      | None => if decide (a = c) then Some (EmptyString, s') else None
      end
  end.

(** [s.split(c)[0]]: the text before the first [c]. *)
Fixpoint before_char (c : ascii) (s : string) : string :=
  match s with
  | EmptyString => EmptyString
  | String a s' => if decide (a = c) then EmptyString else String a (before_char c s')
  end.

(** [str.isspace] on one code point below 256. *)
Definition isspace (a : ascii) : bool :=
  let n := nat_of_ascii a in
  ((9 <=? n) && (n <=? 13) || (28 <=? n) && (n <=? 32)
   || (n =? 133) || (n =? 160))%nat.

(** [not s.strip()]: the string has only whitespace. *)
Fixpoint is_blank (s : string) : bool :=
  match s with
  | EmptyString => true
  | String a s' => isspace a && is_blank s'
  end.

(** [s.startswith(p)] *)
Definition startswith (s p : string) : bool := String.prefix p s.

(** The rest of [s] after the prefix [p], if [s] starts with [p]. *)
Fixpoint strip_prefix (p s : string) : option string :=
  match p, s with
  | EmptyString, _ => Some s
  | String a p', String b s' => if decide (a = b) then strip_prefix p' s' else None
  | String _ _, EmptyString => None
  end.

(** [s.replace(old, "")] for a non-empty [old]: the occurrences of [old]
    are removed from left to right.  [fuel] bounds the number of steps;
    the length of [s] is enough. *)
Fixpoint remove_all_fuel (fuel : nat) (old s : string) : string :=
  match fuel with
  | O => s
  | S fuel' =>
      match s with
      | EmptyString => EmptyString
      | String a s' =>
          match strip_prefix old s with
          | Some rest => remove_all_fuel fuel' old rest
          | None => String a (remove_all_fuel fuel' old s')
          end
      end
  end.

Definition remove_all (old s : string) : string :=
  remove_all_fuel (String.length s) old s.

(** [sub in s] *)
Fixpoint contains (sub s : string) : bool :=
  match strip_prefix sub s with
  | Some _ => true
  | None =>
      match s with
      | EmptyString => false
      | String _ s' => contains sub s'
      end
  end.

(** [sep.join(items)] *)
Fixpoint join (sep : string) (items : list string) : string :=
  match items with
  | [] => EmptyString
  | [x] => x
  | x :: rest => x +:+ sep +:+ join sep rest
  end.

(** *** Code that changes a state [W] and may raise: the state reached
    is kept when an exception is raised. *)
Definition M (W A : Type) : Type := W → outcome A * W.

Definition ret {W A} (a : A) : M W A := λ w, (Ok a, w).
Definition raise {W A} (e : exn) : M W A := λ w, (Raise e, w).

Definition bindM {W A B} (c : M W A) (k : A → M W B) : M W B :=
  λ w, match c w with
       | (Ok a, w') => k a w'
       | (Raise e, w') => (Raise e, w')
       end.

(** [try: c  except Exception as e: h(e)] *)
Definition try_catch {W A} (c : M W A) (h : exn → M W A) : M W A :=
  λ w, match c w with
       | (Ok a, w') => (Ok a, w')
       | (Raise e, w') => h e w'
       end.

End Py.

Notation "'let!' x ':=' c 'in' k" := (Py.bindM c (λ x, k))
  (at level 10, x name, c at level 100, k at level 200).

(** Case analysis on the innermost scrutinee of the goal. *)
Ltac case_innermost :=
  match goal with
  | |- context [match ?x with _ => _ end] =>
      lazymatch x with
      | context [match _ with _ => _ end] => fail
      | _ => destruct x; simpl
      end
  end.

(* ===================================================================== *)
(** * monitoring/scripts/health-check.py                                  *)
(* ===================================================================== *)

Module HealthCheck.

Inductive HealthStatus := HEALTHY | WARNING | CRITICAL | UNKNOWN.

Global Instance HealthStatus_eq_dec : EqDecision HealthStatus.
Proof. solve_decision. Defined.

Record HealthCheckResult := {
  component : string;
  status : HealthStatus;
  message : string;
  response_time_ms : Q
}.

(** [HealthChecker.get_overall_status], with [self.results] as argument. *)
Definition get_overall_status (results : list HealthCheckResult) : HealthStatus :=
  match results with
  | [] => UNKNOWN
  | _ =>
      let statuses := map status results in
      if bool_decide (CRITICAL ∈ statuses) then CRITICAL
      else if bool_decide (WARNING ∈ statuses) then WARNING
      else HEALTHY
  end.

(** The order [HEALTHY < WARNING < CRITICAL] of the three statuses a
    check reports; [UNKNOWN] is outside that order. *)
Definition status_rank (s : HealthStatus) : option nat :=
  match s with
  | HEALTHY => Some 0%nat
  | WARNING => Some 1%nat
  | CRITICAL => Some 2%nat
  | UNKNOWN => None
  end.

Definition status_le (a b : HealthStatus) : Prop :=
  match status_rank a, status_rank b with
  | Some x, Some y => (x <= y)%nat
  | _, _ => False
  end.

(** [m] is the maximum of the statuses of [results]. *)
Definition is_max_status (m : HealthStatus) (results : list HealthCheckResult) : Prop :=
  m ∈ map status results ∧ ∀ r, r ∈ results → status_le (status r) m.

(** Two probe results, used to exercise the theorems below. *)
Definition sample_results : list HealthCheckResult :=
  [ {| component := "API Server"; status := HEALTHY;
       message := "ok"; response_time_ms := 12 |};
    {| component := "Redis"; status := WARNING;
       message := "memory high"; response_time_ms := 3 |} ].

(** ** [check_sensor_connectivity] *)

(** [data.get(key, 0)] on the JSON body. *)
Definition json_get (data : gmap string Z) (key : string) : Z :=
  default 0 (data !! key).

(** The result of the [except Exception] handler. *)
Definition sensor_check_failed (e : Py.exn) : HealthCheckResult :=
  {| component := "Sensor Connectivity"; status := CRITICAL;
     message := "센서 상태 확인 실패: " +:+ Py.exn_str e;
     response_time_ms := 0 |}.

(** [check_sensor_connectivity].  [response] is what
    [session.get(.../sensors/status)] gives: an exception, or the HTTP
    status with what [response.json()] gives; [start_time] and
    [end_time] are the two values of [time.time()]. *)
Definition check_sensor_connectivity (start_time end_time : Q)
    (response : Py.outcome (Z * Py.outcome (gmap string Z))) : HealthCheckResult :=
  match response with
  | Py.Raise e => sensor_check_failed e
  | Py.Ok (http_status, body) =>
      let response_time := ((end_time - start_time) * 1000)%Q in
      if http_status =? 200 then
        match body with
        | Py.Raise e => sensor_check_failed e
        | Py.Ok data =>
            let total_sensors := json_get data "total_sensors" in
            let online_sensors := json_get data "online_sensors" in
            let offline_sensors := json_get data "offline_sensors" in
            let ratio :=
              (inject_Z offline_sensors / inject_Z (Z.max total_sensors 1))%Q in
            let '(st, msg) :=
              if total_sensors =? 0 then (WARNING, "등록된 센서가 없음")
              else if Qlt_le_dec (2 # 10) ratio then
                (WARNING, "오프라인 센서 비율 높음 (" +:+ pretty offline_sensors
                          +:+ "/" +:+ pretty total_sensors +:+ ")")
              else if Qlt_le_dec (5 # 10) ratio then
                (CRITICAL, "대량 센서 오프라인 (" +:+ pretty offline_sensors
                           +:+ "/" +:+ pretty total_sensors +:+ ")")
              else
                (HEALTHY, "센서 연결 정상 (" +:+ pretty online_sensors
                          +:+ "/" +:+ pretty total_sensors +:+ ")") in
            {| component := "Sensor Connectivity"; status := st;
               message := msg; response_time_ms := response_time |}
        end
      else
        {| component := "Sensor Connectivity"; status := CRITICAL;
           message := "센서 상태 API 오류 (HTTP " +:+ pretty http_status +:+ ")";
           response_time_ms := response_time |}
  end.

(** ** [run_all_checks] *)

(** The result that replaces an exception returned by [asyncio.gather]. *)
Definition check_crashed (component_name : string) (e : Py.exn) : HealthCheckResult :=
  {| component := component_name; status := CRITICAL;
     message := "헬스체크 실행 중 오류: " +:+ Py.exn_str e;
     response_time_ms := 0 |}.

(** [run_all_checks]: the three asynchronous checks are given by what
    [asyncio.gather(..., return_exceptions=True)] returns for them, the
    two synchronous checks by their results. *)
Definition run_all_checks (api mqtt sensor : Py.outcome HealthCheckResult)
    (database redis : HealthCheckResult) : list HealthCheckResult :=
  let component_names := ["API Server"; "MQTT Broker"; "Sensor Connectivity"] in
  let processed_results :=
    zip_with (λ name result,
                match result with
                | Py.Raise e => check_crashed name e
                | Py.Ok r => r
                end)
             component_names [api; mqtt; sensor] in
  processed_results ++ [database; redis].

End HealthCheck.

(* ===================================================================== *)
(** * monitoring/auto-recovery/self_healing_system.py                     *)
(* ===================================================================== *)

Module SelfHealing.

Inductive RecoveryAction :=
| RESTART_POD | SCALE_UP | SCALE_DOWN | RESTART_SERVICE | CLEAR_CACHE
| ROTATE_LOGS | UPDATE_CONFIG | FAILOVER | CIRCUIT_BREAKER
| CLEANUP_RESOURCES | REBALANCE_LOAD | CHAOS_TEST.

Global Instance RecoveryAction_eq_dec : EqDecision RecoveryAction.
Proof. solve_decision. Defined.

Inductive Severity := INFO | WARNING | ERROR | CRITICAL | EMERGENCY.

Global Instance Severity_eq_dec : EqDecision Severity.
Proof. solve_decision. Defined.

(** [Severity.value] *)
Definition severity_value (s : Severity) : Z :=
  match s with
  | INFO => 1 | WARNING => 2 | ERROR => 3 | CRITICAL => 4 | EMERGENCY => 5
  end.

(** [HealthIssue].  The [metrics] snapshot (a [Dict[str, Any]]) is not
    read by any function embedded here and is left out.
    [recovery_actions] defaults to [None]; [cooldown_period] is in
    seconds; [timestamp] in microseconds. *)
Record HealthIssue := {
  component : string;
  issue_type : string;
  severity : Severity;
  description : string;
  timestamp : Z;
  auto_recoverable : bool;
  recovery_actions : option (list RecoveryAction);
  cooldown_period : Z
}.

(** ** [update_system_status]: the health score *)

(** The local table [severity_weights]. *)
Definition severity_weights (s : Severity) : Q :=
  match s with
  | INFO => 1 # 10
  | WARNING => 3 # 10
  | ERROR => 6 # 10
  | CRITICAL => 8 # 10
  | EMERGENCY => 1
  end.

Definition total_impact (health_issues : list HealthIssue) : Q :=
  Py.sum (map (λ issue, severity_weights (severity issue)) health_issues).

(** The value bound to [health_score], which the function publishes on
    the gauge and stores in the status record. *)
Definition health_score (health_issues : list HealthIssue) : Q :=
  match health_issues with
  | [] => 100
  | _ => Py.max 0 (100 - total_impact health_issues * 10)
  end.

Inductive SystemStatus := healthy | degraded | critical.

Record StatusData := {
  sd_health_score : Q;
  sd_active_issues_count : nat;
  sd_system_status : SystemStatus
}.

(** [update_system_status]: the new [active_issues] list and the status
    record written to the cache. *)
Definition update_system_status (health_issues : list HealthIssue)
  : list HealthIssue * StatusData :=
  let hs := health_score health_issues in
  (health_issues,
   {| sd_health_score := hs;
      sd_active_issues_count := length health_issues;
      sd_system_status :=
        if Qlt_le_dec 80 hs then healthy
        else if Qlt_le_dec 50 hs then degraded else critical |}).

(** ** [analyze_and_plan_recovery]: planning under cooldowns *)

Section Planner.

(** The successive values returned by [datetime.now()], in microseconds:
    [clock n] is the value of the [n]-th call. *)
Variable clock : nat → Z.

(** The part of [self] the planner touches: the dictionary
    [action_cooldowns] and the number of clock readings taken so far. *)
Record PlannerState := {
  action_cooldowns : gmap string Z;
  ticks : nat
}.

Definition datetime_now (st : PlannerState) : Z * PlannerState :=
  (clock (ticks st),
   {| action_cooldowns := action_cooldowns st; ticks := S (ticks st) |}).

(** [timedelta(seconds=s)] in microseconds. *)
Definition timedelta_seconds (s : Z) : Z := s * 1000000.

(** [f"{issue.component}_{issue.issue_type}"] *)
Definition cooldown_key (issue : HealthIssue) : string :=
  component issue +:+ "_" +:+ issue_type issue.

(** An entry of the recovery plan, together with the two clock readings
    that admitted it: [adm_checked_at] is the reading compared with the
    ledger entry ([None] when the key had no entry, in which case the
    code takes no reading) and [adm_time] the reading stored in the
    ledger.  The plan returned to the caller holds only the pair
    [(adm_issue, adm_action)]. *)
Record Admission := {
  adm_issue : HealthIssue;
  adm_action : RecoveryAction;
  adm_checked_at : option Z;
  adm_time : Z
}.

(** The body of the loop for one issue. *)
Definition plan_issue (issue : HealthIssue) (st : PlannerState)
    : option Admission * PlannerState :=
  if negb (auto_recoverable issue) then (None, st)
  else
    let key := cooldown_key issue in
    let '(checked, in_cooldown, st1) :=
      match action_cooldowns st !! key with
      | Some last_action_time =>
          let '(now, st1) := datetime_now st in
          (Some now,
           now - last_action_time <? timedelta_seconds (cooldown_period issue),
           st1)
      | None => (None, false, st)
      end in
    if in_cooldown then (None, st1)
    else
      match recovery_actions issue with
      | Some (selected_action :: _) =>
          let '(now, st2) := datetime_now st1 in
          (Some {| adm_issue := issue; adm_action := selected_action;
                   adm_checked_at := checked; adm_time := now |},
           {| action_cooldowns := <[key := now]> (action_cooldowns st2);
              ticks := ticks st2 |})
      | _ => (None, st1)
      end.

(** One iteration: [recovery_plan.append(...)] when the issue is admitted. *)
Definition plan_step (acc : list Admission * PlannerState) (issue : HealthIssue)
    : list Admission * PlannerState :=
  match plan_issue issue (snd acc) with
  | (Some e, st') => (fst acc ++ [e], st')
  | (None, st') => (fst acc, st')
  end.

(** [sorted(health_issues, key=lambda x: x.severity.value, reverse=True)] *)
Definition severity_ltb (a b : HealthIssue) : bool :=
  severity_value (severity a) <? severity_value (severity b).

Definition analyze_and_plan_recovery_traced (health_issues : list HealthIssue)
    (st : PlannerState) : list Admission * PlannerState :=
  fold_left plan_step (Py.sorted_desc severity_ltb health_issues) ([], st).

(** [analyze_and_plan_recovery]: the recovery plan and the new state. *)
Definition analyze_and_plan_recovery (health_issues : list HealthIssue)
    (st : PlannerState) : list (HealthIssue * RecoveryAction) * PlannerState :=
  let '(log, st') := analyze_and_plan_recovery_traced health_issues st in
  (map (λ e, (adm_issue e, adm_action e)) log, st').

(** *** Vocabulary of the statements *)

(** Any two admissions of one key in a log are separated by the cooldown
    period of the later one: the later one was checked against the
    ledger, at a reading not before the earlier admission time plus that
    period. *)
Definition cooldown_separated (log : list Admission) : Prop :=
  ∀ (i j : nat) e1 e2, (i < j)%nat → log !! i = Some e1 → log !! j = Some e2 →
    cooldown_key (adm_issue e1) = cooldown_key (adm_issue e2) →
    ∃ t, adm_checked_at e2 = Some t ∧
         adm_time e1 + timedelta_seconds (cooldown_period (adm_issue e2)) ≤ t ∧
         t ≤ adm_time e2.

(** The ledger holds, for every admission so far, a time not before it,
    and no time ahead of the clock. *)
Definition planner_inv (acc : list Admission * PlannerState) : Prop :=
  (∀ e, e ∈ fst acc →
     ∃ t, action_cooldowns (snd acc) !! cooldown_key (adm_issue e) = Some t ∧
          adm_time e ≤ t) ∧
  (∀ k t (m : nat), action_cooldowns (snd acc) !! k = Some t →
     (ticks (snd acc) ≤ m)%nat → t ≤ clock m) ∧
  cooldown_separated (fst acc).

(** The monitoring loop calls the planner once per scan, on the issues of
    that scan; between two calls the rest of the loop reads the clock
    any number of times.  A scan is that number and the issue list. *)
Definition advance (n : nat) (st : PlannerState) : PlannerState :=
  {| action_cooldowns := action_cooldowns st; ticks := (n + ticks st)%nat |}.

Definition scan_step (acc : list Admission * PlannerState)
    (scan : nat * list HealthIssue) : list Admission * PlannerState :=
  let '(log, st') :=
    analyze_and_plan_recovery_traced (snd scan) (advance (fst scan) (snd acc)) in
  (fst acc ++ log, st').

(** All admissions of a run of scans, oldest first. *)
Definition run_scans (scans : list (nat * list HealthIssue)) (st : PlannerState)
    : list Admission * PlannerState :=
  fold_left scan_step scans ([], st).

(** The state [__init__] sets up: an empty ledger. *)
Definition initial_state (n : nat) : PlannerState :=
  {| action_cooldowns := ∅; ticks := n |}.

End Planner.

(** Sample issues for the planner. *)
Definition mk_issue (comp ty : string) (sev : Severity) (recoverable : bool)
    (actions : option (list RecoveryAction)) (cooldown : Z) : HealthIssue :=
  {| component := comp; issue_type := ty; severity := sev; description := "";
     timestamp := 0; auto_recoverable := recoverable;
     recovery_actions := actions; cooldown_period := cooldown |}.

(** The same key with a long and with a short cooldown period. *)
Definition slow_issue : HealthIssue :=
  mk_issue "api-server" "api_pod_crash_loop" CRITICAL true
           (Some [SCALE_UP; UPDATE_CONFIG]) 600.
Definition quick_issue : HealthIssue :=
  mk_issue "api-server" "api_pod_crash_loop" CRITICAL true
           (Some [SCALE_UP; UPDATE_CONFIG]) 10.

(** The issue [check_sensor_connectivity] raises. *)
Definition offline_issue : HealthIssue :=
  mk_issue "sensor-network" "high_offline_rate" CRITICAL false
           (Some [RESTART_SERVICE; FAILOVER]) 300.

(** A clock that reads 0 s first and 20 s from then on. *)
Definition sample_clock (n : nat) : Z :=
  match n with O => 0 | S _ => 20000000 end.

(** ** [parse_prometheus_metrics] *)

Section MetricsParser.

(** The built-in [float(s)] on strings: the parsed value, or [None] when
    it raises [ValueError]. *)
Context {F : Type} (py_float : string → option F).

Definition float (value : string) : Py.outcome F :=
  match py_float value with
  | Some v => Py.Ok v
  | None => Py.Raise (Py.ValueError "could not convert string to float")
  end.

(** The [try] block of the loop, for a line that is neither a comment
    nor blank. *)
Definition parse_line_body (prefix : string) (metrics : gmap string F)
    (line : string) : Py.outcome (gmap string F) :=
  if Py.contains_char " " line then
    match Py.rsplit1 " " line with
    | Some (metric_name, value) =>
        if negb (bool_decide (prefix = "")) && Py.startswith metric_name prefix then
          let clean_name := Py.before_char "{" (Py.remove_all prefix metric_name) in
          Py.bind (float value) (λ v, Py.Ok (<[clean_name := v]> metrics))
        else if bool_decide (prefix = "") then
          let clean_name := Py.before_char "{" metric_name in
          Py.bind (float value) (λ v, Py.Ok (<[clean_name := v]> metrics))
        else Py.Ok metrics
    | None => Py.Raise (Py.ValueError "not enough values to unpack")
    end
  else Py.Ok metrics.

(** One iteration of the loop: comments and blank lines are skipped, and
    [ValueError] and [IndexError] from the body are swallowed. *)
Definition parse_line (prefix : string) (metrics : gmap string F)
    (line : string) : Py.outcome (gmap string F) :=
  if Py.startswith line "#" || Py.is_blank line then Py.Ok metrics
  else
    Py.try_except (parse_line_body prefix metrics line)
      (λ e, match e with
            | Py.ValueError _ | Py.IndexError _ => Py.Ok metrics
            | _ => Py.Raise e
            end).

Fixpoint parse_lines (prefix : string) (metrics : gmap string F)
    (lines : list string) : Py.outcome (gmap string F) :=
  match lines with
  | [] => Py.Ok metrics
  | line :: rest =>
      Py.bind (parse_line prefix metrics line) (λ m, parse_lines prefix m rest)
  end.

Definition parse_prometheus_metrics (metrics_text : string) (prefix : string)
    : Py.outcome (gmap string F) :=
  parse_lines prefix ∅ (Py.split_char "010" metrics_text).

(** [line] is a line of the form ["name value"]: it is neither a comment
    nor blank, [value] is its last token and [float(value)] is [v]. *)
Definition is_metric_line (line name value : string) (v : F) : Prop :=
  line = name +:+ " " +:+ value ∧
  Py.startswith line "#" = false ∧
  Py.is_blank line = false ∧
  Py.contains_char " " value = false ∧
  py_float value = Some v.

End MetricsParser.

(** A stand-in for [float] on unsigned decimal integers, to run the
    parser on an example. *)
Fixpoint digits_value (acc : Z) (s : string) : option Z :=
  match s with
  | EmptyString => Some acc
  | String a s' =>
      match Ascii.is_nat a with
      | Some d => digits_value (10 * acc + Z.of_nat d) s'
      | None => None
      end
  end.

Definition sample_float (s : string) : option Q :=
  match s with
  | EmptyString => None
  | _ => inject_Z <$> digits_value 0 s
  end.

(** A scrape: a comment, a labelled counter, a blank line, a gauge. *)
Definition sample_scrape : string :=
  "# HELP requests_total Total requests" +:+ String "010"
  ("requests_total{code=200} 42" +:+ String "010"
  (String "010" "up 1")).

(** ** Recovery actions *)

(** [RecoveryAction.value] *)
Definition recovery_action_value (a : RecoveryAction) : string :=
  match a with
  | RESTART_POD => "restart_pod" | SCALE_UP => "scale_up"
  | SCALE_DOWN => "scale_down" | RESTART_SERVICE => "restart_service"
  | CLEAR_CACHE => "clear_cache" | ROTATE_LOGS => "rotate_logs"
  | UPDATE_CONFIG => "update_config" | FAILOVER => "failover"
  | CIRCUIT_BREAKER => "circuit_breaker"
  | CLEANUP_RESOURCES => "cleanup_resources"
  | REBALANCE_LOAD => "rebalance_load" | CHAOS_TEST => "chaos_test"
  end.

Record RecoveryResult := {
  rr_action : RecoveryAction;
  target : string;
  success : bool;
  duration : Q;
  message : string;
  rr_timestamp : Z;
  side_effects : option (list string)
}.

(** *** The systems the actions work on *)

(** A deployment of the orchestrator: its desired replica count and the
    [restartedAt] annotation of its pod template. *)
Record Deployment := {
  replicas : Z;
  restarted_at : option Z
}.

Record CircuitBreaker := {
  cb_active : bool;
  cb_activated_at : Z;
  cb_failure_count : Z;
  cb_next_retry : Z
}.

(** The world of the recovery actions.  The deployments of the namespace
    and the circuit breakers are state; the other fields say what the
    external call does when it is made: [redis_flushdb] for
    [redis_client.flushdb()], [api_clear_cache] for the HTTP status of
    [POST /admin/clear-cache], [pg_activity_logs] and [pg_system_health]
    for the row counts of the two [DELETE] statements (connection
    included), [docker_client] for the optional client and its
    [images.prune()]; [wall_clock] is what [datetime.now()] returns. *)
Record World := {
  deployments : gmap string Deployment;
  circuit_breakers : gmap string CircuitBreaker;
  redis_flushdb : Py.outcome unit;
  api_clear_cache : Py.outcome Z;
  pg_activity_logs : Py.outcome Z;
  pg_system_health : Py.outcome Z;
  docker_client : option (Py.outcome unit);
  wall_clock : Z
}.

Definition set_deployments (w : World) (d : gmap string Deployment) : World :=
  {| deployments := d; circuit_breakers := circuit_breakers w;
     redis_flushdb := redis_flushdb w; api_clear_cache := api_clear_cache w;
     pg_activity_logs := pg_activity_logs w;
     pg_system_health := pg_system_health w;
     docker_client := docker_client w; wall_clock := wall_clock w |}.

Definition set_circuit_breakers (w : World) (c : gmap string CircuitBreaker) : World :=
  {| deployments := deployments w; circuit_breakers := c;
     redis_flushdb := redis_flushdb w; api_clear_cache := api_clear_cache w;
     pg_activity_logs := pg_activity_logs w;
     pg_system_health := pg_system_health w;
     docker_client := docker_client w; wall_clock := wall_clock w |}.

(** An external call whose behaviour is a field of the world. *)
Definition call {A} (f : World → Py.outcome A) : Py.M World A := λ w, (f w, w).

(** [k8s_apps_v1.read_namespaced_deployment(name, namespace)] *)
Definition read_namespaced_deployment (name : string) : Py.M World Deployment :=
  λ w, match deployments w !! name with
       | Some d => (Py.Ok d, w)
       | None => (Py.Raise (Py.ApiException "(404) Not Found"), w)
       end.

(** [k8s_apps_v1.patch_namespaced_deployment(name, namespace, body)],
    where [body] is given by its effect on the deployment. *)
Definition patch_namespaced_deployment (name : string)
    (body : Deployment → Deployment) : Py.M World unit :=
  λ w, match deployments w !! name with
       | Some d => (Py.Ok (), set_deployments w (<[name := body d]> (deployments w)))
       | None => (Py.Raise (Py.ApiException "(404) Not Found"), w)
       end.

(** [{'spec': {'replicas': n}}] *)
Definition body_replicas (n : Z) (d : Deployment) : Deployment :=
  {| replicas := n; restarted_at := restarted_at d |}.

(** The [restartedAt] annotation. *)
Definition body_restart (now : Z) (d : Deployment) : Deployment :=
  {| replicas := replicas d; restarted_at := Some now |}.

(** The deployment name both [restart_pod] and [scale_deployment] derive
    from the component. *)
Definition deployment_name_of (component : string) : string :=
  let deployment_name := Py.before_char "-" (Py.remove_all "pod-" component) in
  if Py.startswith deployment_name "hankook-" then deployment_name
  else "hankook-" +:+ deployment_name.

Definition restart_pod (component : string) : Py.M World (bool * string) :=
  Py.try_catch
    (let deployment_name := deployment_name_of component in
     let! now := call (λ w, Py.Ok (wall_clock w)) in
     let! _ := patch_namespaced_deployment deployment_name (body_restart now) in
     Py.ret (true, "Pod 재시작 성공: " +:+ deployment_name))
    (λ e, Py.ret (false, "Pod 재시작 실패: " +:+ Py.exn_str e)).

Definition scale_deployment (component : string) (scale_up : bool)
    : Py.M World (bool * string) :=
  Py.try_catch
    (let deployment_name := deployment_name_of component in
     let! deployment := read_namespaced_deployment deployment_name in
     let current_replicas := replicas deployment in
     let new_replicas :=
       if scale_up then Z.min (current_replicas + 1) 10
       else Z.max (current_replicas - 1) 1 in
     if new_replicas =? current_replicas then
       Py.ret (true, "스케일링 불필요: " +:+ deployment_name +:+ " (현재: "
                     +:+ pretty current_replicas +:+ ")")
     else
       let! _ := patch_namespaced_deployment deployment_name
                   (body_replicas new_replicas) in
       let action := if scale_up then "스케일 업" else "스케일 다운" in
       Py.ret (true, action +:+ " 성공: " +:+ deployment_name +:+ " ("
                     +:+ pretty current_replicas +:+ " → "
                     +:+ pretty new_replicas +:+ ")"))
    (λ e, Py.ret (false, "스케일링 실패: " +:+ Py.exn_str e)).

Definition restart_service (component : string) : Py.M World (bool * string) :=
  restart_pod component.

Definition clear_cache (component : string) : Py.M World (bool * string) :=
  Py.try_catch
    (if Py.contains "redis" component then
       let! _ := call redis_flushdb in
       Py.ret (true, "Redis 캐시 클리어 완료")
     else if Py.contains "api" component then
       let! status := call api_clear_cache in
       if status =? 200 then Py.ret (true, "API 캐시 클리어 완료")
       else Py.ret (false, "API 캐시 클리어 실패: HTTP " +:+ pretty status)
     else Py.ret (false, "지원되지 않는 캐시 클리어: " +:+ component))
    (λ e, Py.ret (false, "캐시 클리어 실패: " +:+ Py.exn_str e)).

Definition rotate_logs (component : string) : Py.M World (bool * string) :=
  Py.try_catch
    (if Py.contains "database" component then
       let! deleted_rows := call pg_activity_logs in
       Py.ret (true, "데이터베이스 로그 정리 완료: " +:+ pretty deleted_rows
                     +:+ "개 레코드 삭제")
     else Py.ret (true, "로그 로테이션 완료: " +:+ component))
    (λ e, Py.ret (false, "로그 로테이션 실패: " +:+ Py.exn_str e)).

Definition update_config (component : string) : Py.M World (bool * string) :=
  Py.try_catch
    (Py.ret (true, "설정 업데이트 완료: " +:+ component))
    (λ e, Py.ret (false, "설정 업데이트 실패: " +:+ Py.exn_str e)).

Definition perform_failover (component : string) : Py.M World (bool * string) :=
  Py.try_catch
    (Py.ret (true, "페일오버 완료: " +:+ component))
    (λ e, Py.ret (false, "페일오버 실패: " +:+ Py.exn_str e)).

Definition activate_circuit_breaker (component : string)
    : Py.M World (bool * string) :=
  Py.try_catch
    (let! _ := (λ w,
         (Py.Ok (),
          set_circuit_breakers w
            (<[component := {| cb_active := true;
                               cb_activated_at := wall_clock w;
                               cb_failure_count := 0;
                               cb_next_retry := wall_clock w + 5 * 60 * 1000000 |}]>
               (circuit_breakers w)))) in
     Py.ret (true, "서킷 브레이커 활성화: " +:+ component))
    (λ e, Py.ret (false, "서킷 브레이커 활성화 실패: " +:+ Py.exn_str e)).

Definition cleanup_resources (component : string) : Py.M World (bool * string) :=
  Py.try_catch
    (let cleaned_items := [] in
     let cleaned_items :=
       if Py.contains "disk" component || Py.contains "system" component
       then cleaned_items ++ ["임시 파일"] else cleaned_items in
     let! cleaned_items :=
       (λ w, match docker_client w with
             | Some prune =>
                 (* [try: prune(); append  except: pass] *)
                 match prune with
                 | Py.Ok _ => (Py.Ok (cleaned_items ++ ["Docker 이미지"]), w)
                 | Py.Raise _ => (Py.Ok cleaned_items, w)
                 end
             | None => (Py.Ok cleaned_items, w)
             end) in
     let! cleaned_items :=
       if Py.contains "database" component then
         let! deleted_rows := call pg_system_health in
         Py.ret (if 0 <? deleted_rows
                 then cleaned_items ++ ["모니터링 데이터 (" +:+ pretty deleted_rows +:+ "개)"]
                 else cleaned_items)
       else Py.ret cleaned_items in
     Py.ret (true, "리소스 정리 완료: " +:+ Py.join ", " cleaned_items))
    (λ e, Py.ret (false, "리소스 정리 실패: " +:+ Py.exn_str e)).

Definition rebalance_load (component : string) : Py.M World (bool * string) :=
  Py.try_catch
    (Py.ret (true, "로드 밸런싱 재조정 완료: " +:+ component))
    (λ e, Py.ret (false, "로드 밸런싱 재조정 실패: " +:+ Py.exn_str e)).

(** *** [execute_recovery_action] *)

(** The coroutines [execute_recovery_action] awaits, as an interface: an
    implementation returns a pair or raises. *)
Class RecoveryOps (W : Type) := {
  op_restart_pod : string → Py.M W (bool * string);
  op_scale_deployment : string → bool → Py.M W (bool * string);
  op_restart_service : string → Py.M W (bool * string);
  op_clear_cache : string → Py.M W (bool * string);
  op_rotate_logs : string → Py.M W (bool * string);
  op_update_config : string → Py.M W (bool * string);
  op_perform_failover : string → Py.M W (bool * string);
  op_activate_circuit_breaker : string → Py.M W (bool * string);
  op_cleanup_resources : string → Py.M W (bool * string);
  op_rebalance_load : string → Py.M W (bool * string)
}.

(** The methods of [SelfHealingSystem] itself. *)
Global Instance self_ops : RecoveryOps World := {|
  op_restart_pod := restart_pod;
  op_scale_deployment := scale_deployment;
  op_restart_service := restart_service;
  op_clear_cache := clear_cache;
  op_rotate_logs := rotate_logs;
  op_update_config := update_config;
  op_perform_failover := perform_failover;
  op_activate_circuit_breaker := activate_circuit_breaker;
  op_cleanup_resources := cleanup_resources;
  op_rebalance_load := rebalance_load
|}.

Section Execute.
Context {W : Type} {ops : RecoveryOps W}.

(** The [if]/[elif] chain of the [try] block. *)
Definition dispatch (issue : HealthIssue) (action : RecoveryAction)
    : Py.M W (bool * string) :=
  match action with
  | RESTART_POD => op_restart_pod (component issue)
  | SCALE_UP => op_scale_deployment (component issue) true
  | SCALE_DOWN => op_scale_deployment (component issue) false
  | RESTART_SERVICE => op_restart_service (component issue)
  | CLEAR_CACHE => op_clear_cache (component issue)
  | ROTATE_LOGS => op_rotate_logs (component issue)
  | UPDATE_CONFIG => op_update_config (component issue)
  | FAILOVER => op_perform_failover (component issue)
  | CIRCUIT_BREAKER => op_activate_circuit_breaker (component issue)
  | CLEANUP_RESOURCES => op_cleanup_resources (component issue)
  | REBALANCE_LOAD => op_rebalance_load (component issue)
  | CHAOS_TEST =>
      Py.ret (false, "지원되지 않는 액션: " +:+ recovery_action_value action)
  end.

(** [execute_recovery_action].  [start_time] and [end_time] are the
    values of the two [time.time()] calls that are made (at entry, and
    after the action returned or raised); [now] is the value of
    [datetime.now()] for the result. *)
Definition execute_recovery_action (start_time end_time : Q) (now : Z)
    (issue : HealthIssue) (action : RecoveryAction) : Py.M W RecoveryResult :=
  Py.try_catch
    (let! result := dispatch issue action in
     let '(success, message) := result in
     let duration := (end_time - start_time)%Q in
     Py.ret {| rr_action := action; target := component issue;
               success := success; duration := duration; message := message;
               rr_timestamp := now; side_effects := None |})
    (λ e,
       let duration := (end_time - start_time)%Q in
       Py.ret {| rr_action := action; target := component issue;
                 success := false; duration := duration;
                 message := "복구 액션 실행 중 오류: " +:+ Py.exn_str e;
                 rr_timestamp := now; side_effects := None |}).

End Execute.


(** *** Predictive scaling *)

(** The body of the loop of [proactive_scale_up] for one deployment. *)
Definition proactive_scale_up_one (deployment : string) : Py.M World unit :=
  let! current_deployment := read_namespaced_deployment deployment in
  let current_replicas := replicas current_deployment in
  if current_replicas <? 5 then
    let new_replicas := current_replicas + 1 in
    patch_namespaced_deployment deployment (body_replicas new_replicas)
  else Py.ret ().

Definition proactive_scale_down_one (deployment : string) : Py.M World unit :=
  let! current_deployment := read_namespaced_deployment deployment in
  let current_replicas := replicas current_deployment in
  if 2 <? current_replicas then
    let new_replicas := current_replicas - 1 in
    patch_namespaced_deployment deployment (body_replicas new_replicas)
  else Py.ret ().

(** [for x in xs: body(x)] *)
Fixpoint for_each {W A} (xs : list A) (body : A → Py.M W unit) : Py.M W unit :=
  match xs with
  | [] => Py.ret ()
  | x :: rest => let! _ := body x in for_each rest body
  end.

Definition proactive_deployments : list string :=
  ["hankook-api"; "hankook-frontend"].

(** An exception ends the loop and is logged. *)
Definition proactive_scale_up : Py.M World unit :=
  Py.try_catch (for_each proactive_deployments proactive_scale_up_one)
               (λ e, Py.ret ()).

Definition proactive_scale_down : Py.M World unit :=
  Py.try_catch (for_each proactive_deployments proactive_scale_down_one)
               (λ e, Py.ret ()).

(** The desired replica count of a deployment, if it exists. *)
Definition replica_count (w : World) (name : string) : option Z :=
  replicas <$> deployments w !! name.

(** What a scaling step makes of a replica count. *)
Definition reactive_target (scale_up : bool) (current : Z) : Z :=
  if scale_up then Z.min (current + 1) 10 else Z.max (current - 1) 1.
Definition proactive_up_target (current : Z) : Z :=
  if current <? 5 then current + 1 else current.
Definition proactive_down_target (current : Z) : Z :=
  if 2 <? current then current - 1 else current.

(** The issue a database rule raises. *)
Definition database_issue : HealthIssue :=
  {| component := "database"; issue_type := "database_disk_space";
     severity := CRITICAL; description := "disk space";
     timestamp := 0; auto_recoverable := true;
     recovery_actions := Some [CLEANUP_RESOURCES; ROTATE_LOGS];
     cooldown_period := 900 |}.

(** A namespace whose API deployment runs 12 replicas. *)
Definition sample_world : World :=
  {| deployments :=
       <["hankook-api" := {| replicas := 12; restarted_at := None |}]>
         (<["hankook-frontend" := {| replicas := 2; restarted_at := None |}]> ∅);
     circuit_breakers := ∅;
     redis_flushdb := Py.Ok ();
     api_clear_cache := Py.Ok 200;
     pg_activity_logs := Py.Raise (Py.ConnectionError "connection refused");
     pg_system_health := Py.Ok 0;
     docker_client := None;
     wall_clock := 0 |}.

(** An issue of the highest severity, alone in a scan. *)
Definition emergency_issue : HealthIssue :=
  {| component := "api-server"; issue_type := "api_pod_crash_loop";
     severity := EMERGENCY; description := "crash loop";
     timestamp := 0; auto_recoverable := true;
     recovery_actions := Some [SCALE_UP; UPDATE_CONFIG];
     cooldown_period := 600 |}.

(** ** The recovery rules and the probes *)

(** A rule of [_load_recovery_rules]; the condition reads the metrics
    of the probe. *)
Record Rule := {
  rule_condition : gmap string Q → bool;
  rule_actions : list RecoveryAction;
  rule_severity : Severity;
  rule_cooldown : Z
}.

(** [metrics.get(key, 0) > bound] *)
Definition above (key : string) (bound : Q) (metrics : gmap string Q) : bool :=
  if Qlt_le_dec bound (default 0%Q (metrics !! key)) then true else false.

(** [self.recovery_rules], in the order of the dictionary literal. *)
Definition recovery_rules : Py.odict Rule := [
  ("api_high_response_time",
   {| rule_condition := above "avg_response_time" 2000;
      rule_actions := [SCALE_UP; RESTART_POD];
      rule_severity := WARNING; rule_cooldown := 300 |});
  ("api_high_error_rate",
   {| rule_condition := above "error_rate" (5 # 100);
      rule_actions := [RESTART_POD; CLEAR_CACHE];
      rule_severity := ERROR; rule_cooldown := 180 |});
  ("api_pod_crash_loop",
   {| rule_condition := above "restart_count" 5;
      rule_actions := [SCALE_UP; UPDATE_CONFIG];
      rule_severity := CRITICAL; rule_cooldown := 600 |});
  ("database_high_connections",
   {| rule_condition := above "active_connections" 180;
      rule_actions := [RESTART_SERVICE; CLEAR_CACHE];
      rule_severity := WARNING; rule_cooldown := 300 |});
  ("database_deadlocks",
   {| rule_condition := above "deadlocks_per_minute" 5;
      rule_actions := [RESTART_SERVICE];
      rule_severity := ERROR; rule_cooldown := 600 |});
  ("database_disk_space",
   {| rule_condition := above "disk_usage_percent" 85;
      rule_actions := [CLEANUP_RESOURCES; ROTATE_LOGS];
      rule_severity := CRITICAL; rule_cooldown := 900 |});
  ("redis_memory_high",
   {| rule_condition := above "memory_usage_percent" 90;
      rule_actions := [CLEAR_CACHE; RESTART_SERVICE];
      rule_severity := WARNING; rule_cooldown := 300 |});
  ("redis_connection_spike",
   {| rule_condition := above "connected_clients" 1000;
      rule_actions := [CIRCUIT_BREAKER; REBALANCE_LOAD];
      rule_severity := ERROR; rule_cooldown := 180 |});
  ("mqtt_connection_drop",
   {| rule_condition := above "client_disconnect_rate" 50;
      rule_actions := [RESTART_SERVICE; FAILOVER];
      rule_severity := ERROR; rule_cooldown := 300 |});
  ("high_cpu_usage",
   {| rule_condition := above "cpu_usage_percent" 80;
      rule_actions := [SCALE_UP];
      rule_severity := WARNING; rule_cooldown := 600 |});
  ("high_memory_usage",
   {| rule_condition := above "memory_usage_percent" 85;
      rule_actions := [CLEANUP_RESOURCES; SCALE_UP];
      rule_severity := WARNING; rule_cooldown := 600 |});
  ("disk_space_critical",
   {| rule_condition := above "disk_usage_percent" 95;
      rule_actions := [CLEANUP_RESOURCES; ROTATE_LOGS];
      rule_severity := CRITICAL; rule_cooldown := 300 |})
].

(** The [HealthIssue] a probe builds for a rule that fired;
    [auto_recoverable] is the default of the dataclass. *)
Definition rule_issue (component_name description_prefix rule_name : string)
    (rule : Rule) (now : Z) : HealthIssue :=
  {| component := component_name;
     issue_type := rule_name;
     severity := rule_severity rule;
     description := description_prefix +:+ rule_name;
     timestamp := now;
     auto_recoverable := true;
     recovery_actions := Some (rule_actions rule);
     cooldown_period := rule_cooldown rule |}.

(** One iteration of the rule loop the probes share:
    [if selected(rule_name) and rule['condition'](metrics): issues.append(...)].
    [now k] is the value of the [k]-th call of [datetime.now()] the
    probe makes, counted from 0. *)
Definition rule_step (selected : string → bool)
    (component_name description_prefix : string)
    (metrics : gmap string Q) (now : nat → Z)
    (issues : list HealthIssue) (entry : string * Rule) : list HealthIssue :=
  let '(rule_name, rule) := entry in
  if selected rule_name && rule_condition rule metrics then
    issues ++ [rule_issue component_name description_prefix rule_name rule
                          (now (length issues))]
  else issues.

(** [for rule_name, rule in self.recovery_rules.items(): ...] *)
Definition rule_issues (selected : string → bool)
    (component_name description_prefix : string)
    (metrics : gmap string Q) (now : nat → Z) : list HealthIssue :=
  fold_left (rule_step selected component_name description_prefix metrics now)
            recovery_rules [].

(** What the [try] block of a probe can raise besides the exceptions of
    the libraries it calls. *)
Inductive ProbeError :=
| LibraryError (e : Py.exn)
| KeyError (key : string)
| ZeroDivisionError.

(** [str(e)] *)
Definition probe_error_str (e : ProbeError) : string :=
  match e with
  | LibraryError e => Py.exn_str e
  | KeyError key => "'" +:+ key +:+ "'"
  | ZeroDivisionError => "division by zero"
  end.

(** The issue a probe appends in its [except] branch; the cooldown
    period and [auto_recoverable] are the defaults of the dataclass. *)
Definition probe_failed (component_name issue_type_name : string)
    (sev : Severity) (description_text : string) (now : Z)
    (actions : list RecoveryAction) : HealthIssue :=
  {| component := component_name; issue_type := issue_type_name;
     severity := sev; description := description_text;
     timestamp := now; auto_recoverable := true;
     recovery_actions := Some actions; cooldown_period := 300 |}.

Section Probes.

(** [float] on strings, as the metrics parser uses it, and the format
    [f"{x:.1%}"]. *)
Variable py_float : string → option Q.
Variable format_percent : Q → string.

(** [check_api_health].  [response] is the outcome of the GET request:
    the status and, for status 200, the outcome of reading the body. *)
Definition check_api_health (response : Py.outcome (Z * Py.outcome string))
    (now : nat → Z) : list HealthIssue :=
  let failed e :=
    [probe_failed "api-server" "connection_error" CRITICAL
       ("API 서버 연결 오류: " +:+ Py.exn_str e) (now O) [RESTART_POD]] in
  match response with
  | Py.Ok (status, body) =>
      if status =? 200 then
        match Py.bind body (λ metrics_text,
                 parse_prometheus_metrics py_float metrics_text "") with
        | Py.Ok metrics =>
            rule_issues (Py.contains "api") "api-server"
                        "API 서버 이슈 감지: " metrics now
        | Py.Raise e => failed e
        end
      else
        [probe_failed "api-server" "api_unreachable" CRITICAL
           ("API 서버 접근 불가 (HTTP " +:+ pretty status +:+ ")") (now O)
           [RESTART_POD; FAILOVER]]
  | Py.Raise e => failed e
  end.

(** What the queries of [check_database_health] return, and what
    [conn.close()] does afterwards. *)
Record DatabaseStats := {
  db_active_connections : Z;
  db_deadlocks : Z;
  db_slow_queries : Z;
  db_close : Py.outcome unit
}.

(** [check_database_health].  [stats] is the outcome of connecting and
    running the four queries.  The disk usage is the constant 70. *)
Definition check_database_health (stats : Py.outcome DatabaseStats)
    (now : nat → Z) : list HealthIssue :=
  let failed issues e :=
    issues ++
    [probe_failed "database" "connection_error" CRITICAL
       ("데이터베이스 연결 오류: " +:+ Py.exn_str e) (now (length issues))
       [RESTART_SERVICE]] in
  match stats with
  | Py.Ok st =>
      let metrics : gmap string Q :=
        <["active_connections" := inject_Z (db_active_connections st)]>
        (<["deadlocks_per_minute" := inject_Z (db_deadlocks st)]>
        (<["slow_queries" := inject_Z (db_slow_queries st)]>
        (<["disk_usage_percent" := 70%Q]> ∅))) in
      let issues :=
        rule_issues (Py.contains "database") "database"
                    "데이터베이스 이슈 감지: " metrics now in
      match db_close st with
      | Py.Ok _ => issues
      | Py.Raise e => failed issues e
      end
  | Py.Raise e => failed [] e
  end.

(** [info[key]] *)
Definition subscript (info : gmap string Z) (key : string) : ProbeError + Z :=
  match info !! key with
  | Some v => inr v
  | None => inl (KeyError key)
  end.

(** The dictionary [metrics] of [check_redis_health]; the values of
    [redis_client.info()] that are read are integers, and [/] on them
    raises [ZeroDivisionError] for a zero divisor. *)
Definition redis_metrics (info : gmap string Z) : ProbeError + gmap string Q :=
  match subscript info "used_memory" with
  | inl e => inl e
  | inr used_memory =>
      let maxmemory := default (used_memory * 2) (info !! "maxmemory") in
      if maxmemory =? 0 then inl ZeroDivisionError
      else
        match subscript info "connected_clients" with
        | inl e => inl e
        | inr connected_clients =>
        match subscript info "keyspace_hits" with
        | inl e => inl e
        | inr keyspace_hits =>
        match subscript info "keyspace_misses" with
        | inl e => inl e
        | inr keyspace_misses =>
            inr (<["memory_usage_percent" :=
                     (inject_Z used_memory / inject_Z maxmemory * 100)%Q]>
                (<["connected_clients" := inject_Z connected_clients]>
                (<["keyspace_hits" := inject_Z keyspace_hits]>
                (<["keyspace_misses" := inject_Z keyspace_misses]> ∅))))
        end end end
  end.

(** [check_redis_health]; [info] is the outcome of [redis_client.info()]. *)
Definition check_redis_health (info : Py.outcome (gmap string Z))
    (now : nat → Z) : list HealthIssue :=
  let metrics :=
    match info with
    | Py.Ok i => redis_metrics i
    | Py.Raise e => inl (LibraryError e)
    end in
  match metrics with
  | inr m => rule_issues (Py.contains "redis") "redis" "Redis 이슈 감지: " m now
  | inl e =>
      [probe_failed "redis" "connection_error" CRITICAL
         ("Redis 연결 오류: " +:+ probe_error_str e) (now O) [RESTART_SERVICE]]
  end.

(** [check_mqtt_health]: a status other than 200 reports nothing. *)
Definition check_mqtt_health (response : Py.outcome (Z * Py.outcome string))
    (now : nat → Z) : list HealthIssue :=
  let failed e :=
    [probe_failed "mqtt" "metrics_error" WARNING
       ("MQTT 메트릭 수집 오류: " +:+ Py.exn_str e) (now O) [RESTART_SERVICE]] in
  match response with
  | Py.Ok (status, body) =>
      if status =? 200 then
        match Py.bind body (λ metrics_text,
                 parse_prometheus_metrics py_float metrics_text "mosquitto_") with
        | Py.Ok metrics =>
            rule_issues (Py.contains "mqtt") "mqtt"
                        "MQTT 브로커 이슈 감지: " metrics now
        | Py.Raise e => failed e
        end
      else []
  | Py.Raise e => failed e
  end.

(** A pod of the namespace: its name, its phase and the restart counts
    of its containers ([None] when [container_statuses] is unset). *)
Record Pod := {
  pod_name : string;
  phase : string;
  container_statuses : option (list Z)
}.

(** The body of the loop of [check_kubernetes_pods] for one pod. *)
Definition pod_issues (now : nat → Z) (issues : list HealthIssue) (pod : Pod)
    : list HealthIssue :=
  if negb (Py.startswith (pod_name pod) "hankook-") then issues
  else
    let issues :=
      if bool_decide (phase pod ≠ "Running") then
        issues ++
        [probe_failed ("pod-" +:+ pod_name pod) "pod_not_running" ERROR
           ("Pod " +:+ pod_name pod +:+ "이 실행 중이 아님: " +:+ phase pod)
           (now (length issues)) [RESTART_POD]]
      else issues in
    let restart_count :=
      match container_statuses pod with
      | Some (c :: cs) => foldr Z.add 0 (c :: cs)
      | _ => 0
      end in
    if 5 <? restart_count then
      issues ++
      [probe_failed ("pod-" +:+ pod_name pod) "high_restart_count" WARNING
         ("Pod " +:+ pod_name pod +:+ " 재시작 횟수 과다: " +:+ pretty restart_count)
         (now (length issues)) [SCALE_UP; UPDATE_CONFIG]]
    else issues.

(** [check_kubernetes_pods]: a failing listing is logged and reports
    nothing. *)
Definition check_kubernetes_pods (pods : Py.outcome (list Pod))
    (now : nat → Z) : list HealthIssue :=
  match pods with
  | Py.Ok items => fold_left (pod_issues now) items []
  | Py.Raise _ => []
  end.

(** [check_system_resources]; [usage] is the outcome of the three
    [psutil] readings: CPU, memory and disk usage in percent. *)
Definition check_system_resources (usage : Py.outcome (Q * Q * Q))
    (now : nat → Z) : list HealthIssue :=
  match usage with
  | Py.Ok (cpu_percent, memory_percent, disk_percent) =>
      let metrics : gmap string Q :=
        <["cpu_usage_percent" := cpu_percent]>
        (<["memory_usage_percent" := memory_percent]>
        (<["disk_usage_percent" := disk_percent]> ∅)) in
      rule_issues
        (λ rule_name, existsb (λ keyword, Py.contains keyword rule_name)
                              ["cpu"; "memory"; "disk"])
        "system-resources" "시스템 리소스 이슈 감지: " metrics now
  | Py.Raise _ => []
  end.

(** [check_sensor_connectivity]: the status of the response and, for
    status 200, the outcome of decoding its JSON body. *)
Definition check_sensor_connectivity
    (response : Py.outcome (Z * Py.outcome (gmap string Z)))
    (now : nat → Z) : list HealthIssue :=
  match response with
  | Py.Ok (status, Py.Ok data) =>
      if status =? 200 then
        let total_sensors := default 0 (data !! "total_sensors") in
        let offline_sensors := default 0 (data !! "offline_sensors") in
        if 0 <? total_sensors then
          let offline_rate := (inject_Z offline_sensors / inject_Z total_sensors)%Q in
          if Qlt_le_dec (3 # 10) offline_rate then
            [ {| component := "sensor-network";
                 issue_type := "high_offline_rate";
                 severity := if Qlt_le_dec (5 # 10) offline_rate
                             then CRITICAL else WARNING;
                 description := "센서 오프라인 비율 높음: "
                                +:+ format_percent offline_rate;
                 timestamp := now O;
                 auto_recoverable := false;
                 recovery_actions := Some [RESTART_SERVICE; FAILOVER];
                 cooldown_period := 300 |} ]
          else []
        else []
      else []
  | Py.Ok (status, Py.Raise _) => []
  | Py.Raise _ => []
  end.

(** [perform_comprehensive_health_check]: the issues of the seven
    probes in the order of the task list.  Each probe reads the clock
    through its own [now]. *)
Definition perform_comprehensive_health_check
    (api mqtt : Py.outcome (Z * Py.outcome string))
    (database : Py.outcome DatabaseStats)
    (redis : Py.outcome (gmap string Z))
    (pods : Py.outcome (list Pod))
    (usage : Py.outcome (Q * Q * Q))
    (sensors : Py.outcome (Z * Py.outcome (gmap string Z)))
    (now : nat → nat → Z) : list HealthIssue :=
  check_api_health api (now 0%nat)
  ++ check_database_health database (now 1%nat)
  ++ check_redis_health redis (now 2%nat)
  ++ check_mqtt_health mqtt (now 3%nat)
  ++ check_kubernetes_pods pods (now 4%nat)
  ++ check_system_resources usage (now 5%nat)
  ++ check_sensor_connectivity sensors (now 6%nat).

End Probes.

(** ** [predictive_scaling] *)

Definition peak_hours : list Z := [9; 10; 11; 14; 15; 16; 19; 20; 21].

(** [predictive_scaling] once the predictor is trained and the metrics
    are collected: [predicted_load] is the prediction of the model or
    the exception of the steps before it, [current_hour] the hour of
    [datetime.now()]. *)
Definition predictive_scaling (predicted_load : Py.outcome Q)
    (current_hour : Z) : Py.M World unit :=
  Py.try_catch
    (let! predicted_load := call (λ _, predicted_load) in
     if (if Qlt_le_dec (8 # 10) predicted_load then true else false)
        || bool_decide (current_hour ∈ peak_hours)
     then proactive_scale_up
     else if (if Qlt_le_dec predicted_load (3 # 10) then true else false)
             && negb (bool_decide (current_hour ∈ peak_hours))
     then proactive_scale_down
     else Py.ret ())
    (λ e, Py.ret ()).

(** ** [update_prometheus_metrics] *)

(** The counters [{'total': .., 'success': ..}] of one action type. *)
Record ActionStats := {
  stat_total : Z;
  stat_success : Z
}.

(** The loop over [recent_actions] that fills [action_types]. *)
Definition count_action (action_types : Py.odict ActionStats)
    (r : RecoveryResult) : Py.odict ActionStats :=
  let action_type := recovery_action_value (rr_action r) in
  let action_types :=
    match Py.od_get action_types action_type with
    | None => Py.od_set action_types action_type
                {| stat_total := 0; stat_success := 0 |}
    | Some _ => action_types
    end in
  match Py.od_get action_types action_type with
  | Some stats =>
      let stats := {| stat_total := stat_total stats + 1;
                      stat_success := stat_success stats |} in
      let stats := if success r
                   then {| stat_total := stat_total stats;
                           stat_success := stat_success stats + 1 |}
                   else stats in
      Py.od_set action_types action_type stats
  | None => action_types
  end.

(** [r.timestamp > datetime.now() - timedelta(hours=24)] *)
Definition recent (now : Z) (r : RecoveryResult) : bool :=
  now - 24 * 3600 * 1000000 <? rr_timestamp r.

(** The list [recent_actions]; the comprehension reads the clock once
    per record, [now k] for the [k]-th. *)
Fixpoint recent_actions (now : nat → Z) (recovery_history : list RecoveryResult)
    : list RecoveryResult :=
  match recovery_history with
  | [] => []
  | r :: rest =>
      let tail := recent_actions (λ k, now (S k)) rest in
      if recent (now O) r then r :: tail else tail
  end.

(** [stats['success'] / stats['total'] if stats['total'] > 0 else 0] *)
Definition success_rate (stats : ActionStats) : Q :=
  if 0 <? stat_total stats
  then (inject_Z (stat_success stats) / inject_Z (stat_total stats))%Q
  else 0%Q.

(** [update_prometheus_metrics]: the values set on the gauge
    [recovery_success_rate], by action type, in order. *)
Definition update_prometheus_metrics (recovery_history : list RecoveryResult)
    (now : nat → Z) : list (string * Q) :=
  let recent_actions := recent_actions now recovery_history in
  let action_types := fold_left count_action recent_actions [] in
  map (λ entry, (fst entry, success_rate (snd entry))) action_types.

(** ** [execute_recovery_plan] *)

(** The clock readings of one call of [execute_recovery_action]. *)
Record Timing := {
  t_start : Q;
  t_end : Q;
  t_now : Z
}.

(** [send_recovery_notification]: the requests posted to the webhook so
    far, each with the record and the flag it was built from.  Without
    a webhook ([SLACK_WEBHOOK] is empty by default) nothing is posted;
    a request that fails is logged. *)
Definition send_recovery_notification (slack_webhook : string)
    (result : RecoveryResult) (success : bool)
    (posted : list (RecoveryResult * bool)) : list (RecoveryResult * bool) :=
  if bool_decide (slack_webhook = "") then posted
  else posted ++ [(result, success)].

(** The tasks of the plan take effect in the order of the plan (a task
    is suspended only inside the HTTP request of [clear_cache], which
    touches no state of the world), and [gather] returns their results
    in that order.  [history] is [self.recovery_history]; [posted] are
    the notification requests made; [timings k] are the clock readings
    of the [k]-th task. *)
Fixpoint execute_recovery_plan (slack_webhook : string)
    (recovery_plan : list (HealthIssue * RecoveryAction))
    (timings : nat → Timing) (history : list RecoveryResult)
    (posted : list (RecoveryResult * bool)) (w : World)
    : list RecoveryResult * list (RecoveryResult * bool) * World :=
  match recovery_plan with
  | [] => (history, posted, w)
  | (issue, action) :: rest =>
      let t := timings O in
      match execute_recovery_action (ops := self_ops)
              (t_start t) (t_end t) (t_now t) issue action w with
      | (Py.Ok result, w') =>
          execute_recovery_plan slack_webhook rest (λ n, timings (S n))
            (history ++ [result])
            (send_recovery_notification slack_webhook result
               (if success result then true else false) posted) w'
      | (Py.Raise _, w') =>
          execute_recovery_plan slack_webhook rest (λ n, timings (S n))
            history posted w'
      end
  end.

(** ** [chaos_pod_kill] *)

(** The list [test_candidates]. *)
Definition test_candidates (pods : list Pod) : list string :=
  map pod_name
    (List.filter (λ pod, Py.startswith (pod_name pod) "hankook-"
                         && negb (Py.contains "postgres" (pod_name pod))
                         && bool_decide (phase pod = "Running")) pods).

(** [chaos_pod_kill]: the pod it asks to delete, if any.  [choice] stands for
    [np.random.choice] on a non-empty list: the index it draws. *)
Definition chaos_pod_kill (pods : Py.outcome (list Pod)) (choice : nat)
    : option string :=
  match pods with
  | Py.Ok items =>
      match test_candidates items with
      | [] => None
      | c :: cs => Some (nth (choice mod length (c :: cs)) (c :: cs) c)
      end
  | Py.Raise _ => None
  end.

(** ** The health score in floating point *)

Section FloatScore.

(** [rnd] rounds a real number to a float: a float operation returns
    [rnd] of the exact result, and a decimal literal denotes [rnd] of
    its value. *)
Variable rnd : Q → Q.

(** [sum(xs)] on floats: from the integer 0, one rounded addition per
    element, from left to right. *)
Definition float_sum (xs : list Q) : Q :=
  fold_left (λ acc x, rnd (acc + x)) xs 0%Q.

(** The entries of the table [severity_weights] as floats. *)
Definition float_weights (s : Severity) : Q := rnd (severity_weights s).

Definition float_total_impact (health_issues : list HealthIssue) : Q :=
  float_sum (map (λ issue, float_weights (severity issue)) health_issues).

(** [health_score] as [update_system_status] computes it on floats:
    [100.0] without issues, else
    [max(0, 100 - (total_impact * 10))]. *)
Definition float_health_score (health_issues : list HealthIssue) : Q :=
  match health_issues with
  | [] => 100%Q
  | _ => Py.max 0 (rnd (100 - rnd (float_total_impact health_issues * 10)))
  end.

(** The entry [system_status] of the status record. *)
Definition float_system_status (health_issues : list HealthIssue) : SystemStatus :=
  let hs := float_health_score health_issues in
  if Qlt_le_dec 80 hs then healthy
  else if Qlt_le_dec 50 hs then degraded else critical.

End FloatScore.

End SelfHealing.

(* ===================================================================== *)
(** * monitoring/ai-analytics/anomaly_detector.py                         *)
(* ===================================================================== *)

Module AnomalyDetector.

Inductive AnomalyType :=
| SENSOR_MALFUNCTION | TEMPERATURE_ANOMALY | PRESSURE_ANOMALY
| BATTERY_DEGRADATION | COMMUNICATION_ISSUE | DATA_QUALITY_DROP
| PREDICTIVE_MAINTENANCE | SECURITY_BREACH.

Global Instance AnomalyType_eq_dec : EqDecision AnomalyType.
Proof. solve_decision. Defined.

(** [AnomalyType.value] *)
Definition anomaly_type_value (t : AnomalyType) : string :=
  match t with
  | SENSOR_MALFUNCTION => "sensor_malfunction"
  | TEMPERATURE_ANOMALY => "temperature_anomaly"
  | PRESSURE_ANOMALY => "pressure_anomaly"
  | BATTERY_DEGRADATION => "battery_degradation"
  | COMMUNICATION_ISSUE => "communication_issue"
  | DATA_QUALITY_DROP => "data_quality_drop"
  | PREDICTIVE_MAINTENANCE => "predictive_maintenance"
  | SECURITY_BREACH => "security_breach"
  end.

Inductive SeverityLevel := LOW | MEDIUM | HIGH | CRITICAL | EMERGENCY.

Global Instance SeverityLevel_eq_dec : EqDecision SeverityLevel.
Proof. solve_decision. Defined.

(** [SeverityLevel.value] *)
Definition severity_value (s : SeverityLevel) : Z :=
  match s with
  | LOW => 1 | MEDIUM => 2 | HIGH => 3 | CRITICAL => 4 | EMERGENCY => 5
  end.

(** [AnomalyResult]; [timestamp] is the observation time in microseconds.
    The optional [feature_importance] table is not read by the ranking
    and is left out. *)
Record AnomalyResult := {
  device_id : string;
  anomaly_type : AnomalyType;
  severity : SeverityLevel;
  confidence_score : Q;
  predicted_value : Q;
  actual_value : Q;
  threshold : Q;
  timestamp : Z;
  description : string;
  recommendation : string;
  model_used : string;
  location : option string;
  maintenance_window : option Z
}.

(** [f"{result.device_id}_{result.anomaly_type.value}"] *)
Definition result_key (result : AnomalyResult) : string :=
  device_id result +:+ "_" +:+ anomaly_type_value (anomaly_type result).

(** The tail ["_" ++ value] that the key appends to the device id. *)
Definition key_tail (t : AnomalyType) : list ascii :=
  list_ascii_of_string ("_" +:+ anomaly_type_value t).

(** One iteration of the grouping loop. *)
Definition dedup_step (unique_results : Py.odict AnomalyResult)
    (result : AnomalyResult) : Py.odict AnomalyResult :=
  let key := result_key result in
  match Py.od_get unique_results key with
  | None => Py.od_set unique_results key result
  | Some kept =>
      if severity_value (severity kept) <? severity_value (severity result)
      then Py.od_set unique_results key result
      else unique_results
  end.

(** The dictionary [unique_results] after the loop. *)
Definition unique_results (results : list AnomalyResult) : Py.odict AnomalyResult :=
  fold_left dedup_step results [].

(** [key(a) < key(b)] for the sort key
    [(x.severity.value, x.confidence_score)], compared as tuples. *)
Definition rank_ltb (a b : AnomalyResult) : bool :=
  if severity_value (severity a) =? severity_value (severity b)
  then (if Qlt_le_dec (confidence_score a) (confidence_score b) then true else false)
  else severity_value (severity a) <? severity_value (severity b).

(** [key(a) == key(b)] *)
Definition rank_eqb (a b : AnomalyResult) : bool :=
  (severity_value (severity a) =? severity_value (severity b))
  && Qeq_bool (confidence_score a) (confidence_score b).

Definition deduplicate_and_prioritize (results : list AnomalyResult)
    : list AnomalyResult :=
  Py.sorted_desc rank_ltb (Py.od_values (unique_results results)).

(** *** Vocabulary of the statements *)

(** Two results belong to the same group. *)
Definition same_group (a b : AnomalyResult) : Prop :=
  device_id a = device_id b ∧ anomaly_type a = anomaly_type b.

Global Instance same_group_dec a b : Decision (same_group a b).
Proof. unfold same_group. apply _. Defined.

(** [x] is the result the loop keeps for its group: it occurs in
    [results], every result of the group before it is strictly less
    severe, and none after it is more severe. *)
Definition kept_in (results : list AnomalyResult) (x : AnomalyResult) : Prop :=
  ∃ pre post, results = pre ++ x :: post ∧
    (∀ y, y ∈ pre → same_group y x →
       severity_value (severity y) < severity_value (severity x)) ∧
    (∀ y, y ∈ post → same_group y x →
       severity_value (severity y) ≤ severity_value (severity x)).

(** The keys of a list in the order of their first occurrence. *)
Definition first_occurrences (ks : list string) : list string :=
  fold_left (λ acc k, if decide (k ∈ acc) then acc else acc ++ [k]) ks [].

(** The order the sort key induces: [rank_ge a b] when [a] is more
    severe than [b], or as severe and at least as confident. *)
Definition rank_ge (a b : AnomalyResult) : Prop :=
  severity_value (severity b) < severity_value (severity a) ∨
  (severity_value (severity a) = severity_value (severity b) ∧
   (confidence_score b <= confidence_score a)%Q).

(** Equal sort keys. *)
Definition same_rank (a b : AnomalyResult) : Prop :=
  severity_value (severity a) = severity_value (severity b) ∧
  (confidence_score a == confidence_score b)%Q.

Global Instance same_rank_dec a b : Decision (same_rank a b).
Proof.
  unfold same_rank.
  destruct (decide (severity_value (severity a) = severity_value (severity b)));
    [|right; tauto].
  destruct (Qeq_dec (confidence_score a) (confidence_score b));
    [left | right]; tauto.
Defined.

(** The ranking the specification describes: severity descending, then
    confidence descending, then observation time ascending, then device
    id in lexicographic order.  [spec_before a b] says that [a] must not
    come after [b]. *)
Definition spec_before (a b : AnomalyResult) : Prop :=
  severity_value (severity b) < severity_value (severity a) ∨
  (severity_value (severity a) = severity_value (severity b) ∧
   ((confidence_score b < confidence_score a)%Q ∨
    ((confidence_score a == confidence_score b)%Q ∧
     (timestamp a < timestamp b ∨
      (timestamp a = timestamp b ∧ String.le (device_id a) (device_id b)))))).

(** Sample results. *)
Definition mk_result (dev : string) (ty : AnomalyType) (sev : SeverityLevel)
    (conf : Q) (ts : Z) (model : string) : AnomalyResult :=
  {| device_id := dev; anomaly_type := ty; severity := sev;
     confidence_score := conf; predicted_value := 0; actual_value := 0;
     threshold := 0; timestamp := ts; description := "";
     recommendation := ""; model_used := model;
     location := None; maintenance_window := None |}.

(** Two scorers flag the same device and kind with the same severity;
    the second is the more confident. *)
Definition forest_hit : AnomalyResult :=
  mk_result "D2" TEMPERATURE_ANOMALY HIGH (5 # 10) 100 "Isolation Forest".
Definition lstm_hit : AnomalyResult :=
  mk_result "D2" TEMPERATURE_ANOMALY HIGH (9 # 10) 100 "LSTM".

(** Two devices with equal severity and confidence; the first listed was
    observed later and has the larger device id. *)
Definition late_hit : AnomalyResult :=
  mk_result "D2" PRESSURE_ANOMALY HIGH (8 # 10) 200 "Isolation Forest".
Definition early_hit : AnomalyResult :=
  mk_result "D1" PRESSURE_ANOMALY HIGH (8 # 10) 100 "Isolation Forest".

(** ** [get_recommendation] *)

Definition default_recommendation : string := "전문가 검토 필요".

(** The nested table [recommendations]; [None] where a key is absent. *)
Definition recommendations (t : AnomalyType) (s : SeverityLevel) : option string :=
  match t, s with
  | SENSOR_MALFUNCTION, LOW => Some "센서 상태 모니터링 강화"
  | SENSOR_MALFUNCTION, MEDIUM => Some "센서 캘리브레이션 고려"
  | SENSOR_MALFUNCTION, HIGH => Some "센서 점검 및 청소 필요"
  | SENSOR_MALFUNCTION, CRITICAL => Some "즉시 센서 교체 검토"
  | SENSOR_MALFUNCTION, EMERGENCY => Some "긴급 센서 교체 필요"
  | TEMPERATURE_ANOMALY, LOW => Some "온도 변화 추이 관찰"
  | TEMPERATURE_ANOMALY, MEDIUM => Some "환경 요인 확인"
  | TEMPERATURE_ANOMALY, HIGH => Some "냉각 시스템 점검"
  | TEMPERATURE_ANOMALY, CRITICAL => Some "즉시 온도 조치 필요"
  | TEMPERATURE_ANOMALY, EMERGENCY => Some "긴급 안전 조치 실행"
  | PRESSURE_ANOMALY, LOW => Some "압력 변화 모니터링"
  | PRESSURE_ANOMALY, MEDIUM => Some "압력 센서 점검"
  | PRESSURE_ANOMALY, HIGH => Some "압력 시스템 진단"
  | PRESSURE_ANOMALY, CRITICAL => Some "즉시 압력 조정 필요"
  | PRESSURE_ANOMALY, EMERGENCY => Some "안전을 위한 즉시 정지"
  | BATTERY_DEGRADATION, LOW => Some "배터리 사용량 모니터링"
  | BATTERY_DEGRADATION, MEDIUM => Some "배터리 최적화 설정"
  | BATTERY_DEGRADATION, HIGH => Some "배터리 교체 준비"
  | BATTERY_DEGRADATION, CRITICAL => Some "즉시 배터리 교체"
  | BATTERY_DEGRADATION, EMERGENCY => Some "긴급 전원 공급 필요"
  | COMMUNICATION_ISSUE, LOW => Some "신호 강도 모니터링"
  | COMMUNICATION_ISSUE, MEDIUM => Some "네트워크 설정 확인"
  | COMMUNICATION_ISSUE, HIGH => Some "통신 장비 점검"
  | COMMUNICATION_ISSUE, CRITICAL => Some "네트워크 인프라 진단"
  | COMMUNICATION_ISSUE, EMERGENCY => Some "백업 통신 수단 활성화"
  | DATA_QUALITY_DROP, LOW => Some "데이터 검증 강화"
  | DATA_QUALITY_DROP, MEDIUM => Some "센서 캘리브레이션"
  | DATA_QUALITY_DROP, HIGH => Some "데이터 파이프라인 점검"
  | DATA_QUALITY_DROP, CRITICAL => Some "데이터 수집 시스템 재시작"
  | DATA_QUALITY_DROP, EMERGENCY => Some "수동 데이터 수집 모드"
  | PREDICTIVE_MAINTENANCE, _ => None
  | SECURITY_BREACH, _ => None
  end.

(** [recommendations.get(anomaly_type, {}).get(severity, default)] *)
Definition get_recommendation (anomaly_type : AnomalyType)
    (severity : SeverityLevel) : string :=
  default default_recommendation (recommendations anomaly_type severity).

(** ** [classify_anomaly_type] *)

(** A subscript [feature_values[key]] finds the value or raises
    [KeyError]. *)
Inductive lookup (A : Type) : Type :=
| Found (a : A)
| KeyError (key : string).
Global Arguments Found {A} a.
Global Arguments KeyError {A} key.

(** [key in features and test(feature_values[key])]: the subscript is
    evaluated only when the key is listed. *)
Definition feature_test (features : list string) (feature_values : gmap string Q)
    (key : string) (test : Q → bool) : lookup bool :=
  if bool_decide (key ∈ features) then
    match feature_values !! key with
    | Some v => Found (test v)
    | None => KeyError key
    end
  else Found false.

Definition Qltb (a b : Q) : bool := if Qlt_le_dec a b then true else false.

(** [classify_anomaly_type]; the argument [row] is not read. *)
Definition classify_anomaly_type (features : list string)
    (feature_values : gmap string Q) : lookup AnomalyType :=
  match feature_test features feature_values "temperature" (λ v, Qltb 2 (Qabs v)) with
  | KeyError k => KeyError k
  | Found true => Found TEMPERATURE_ANOMALY
  | Found false =>
  match feature_test features feature_values "pressure" (λ v, Qltb 2 (Qabs v)) with
  | KeyError k => KeyError k
  | Found true => Found PRESSURE_ANOMALY
  | Found false =>
  match feature_test features feature_values "battery_voltage" (λ v, Qltb v (-1)) with
  | KeyError k => KeyError k
  | Found true => Found BATTERY_DEGRADATION
  | Found false =>
  match feature_test features feature_values "signal_strength" (λ v, Qltb v (-1)) with
  | KeyError k => KeyError k
  | Found true => Found COMMUNICATION_ISSUE
  | Found false =>
  match feature_test features feature_values "quality_score" (λ v, Qltb v (-1)) with
  | KeyError k => KeyError k
  | Found true => Found DATA_QUALITY_DROP
  | Found false => Found SENSOR_MALFUNCTION
  end end end end end.

(** ** The scoring steps of the detectors *)

(** [min(a, b)]: the first argument is kept unless the second is
    strictly smaller. *)
Definition py_min (a b : Q) : Q := if Qlt_le_dec b a then b else a.

Section Detectors.

(** [f"{x:.4f}"] and [f"{x:.0f}"], the float formats of the messages. *)
Variables (format_4f format_0f : Q → string).

(** The severity evaluation of [detect_isolation_forest_anomalies] for
    the decision score of one anomalous row. *)
Definition isolation_forest_severity (score : Q) : SeverityLevel :=
  if Qltb score (-(5 # 10)) then CRITICAL
  else if Qltb score (-(3 # 10)) then HIGH
  else if Qltb score (-(1 # 10)) then MEDIUM
  else LOW.

(** The body of the innermost loop of [detect_lstm_anomalies] for one
    sequence: the prediction [predicted] of the model, the scaled
    temperature [actual] that follows the sequence, and the time stamp
    and location of that row. *)
Definition lstm_anomaly (device_id : string) (predicted actual : Q)
    (row_timestamp : Z) (row_location : option string) : option AnomalyResult :=
  let error := Qabs (predicted - actual) in
  let threshold := 1 # 10 in
  if Qltb threshold error then
    let severity :=
      if Qltb (3 # 10) error then CRITICAL
      else if Qltb (2 # 10) error then HIGH
      else if Qltb (15 # 100) error then MEDIUM
      else LOW in
    Some {| device_id := device_id;
            anomaly_type := TEMPERATURE_ANOMALY;
            severity := severity;
            confidence_score := py_min (error * 10) 1;
            predicted_value := predicted;
            actual_value := actual;
            threshold := threshold;
            timestamp := row_timestamp;
            description := "LSTM 시계열 예측에서 큰 오차 감지 (오차: "
                           +:+ format_4f error +:+ ")";
            recommendation := get_recommendation TEMPERATURE_ANOMALY severity;
            model_used := "LSTM";
            location := row_location;
            maintenance_window := None |}
  else None.

(** [int(x)]: truncation toward zero. *)
Definition py_int (x : Q) : Z := Z.quot (Qnum x) (Z.pos (Qden x)).

(** The battery branch of [predict_maintenance_needs] for one device,
    from the slope and the correlation of the regression and the last
    voltage. *)
Definition battery_prediction (device_id : string) (slope r_value current_voltage : Q)
    (last_timestamp : Z) (last_location : option string) : option AnomalyResult :=
  if Qltb slope (-(1 # 1000)) && Qltb r_value (-(5 # 10)) then
    if Qltb 3 current_voltage then
      let hours_to_critical := ((current_voltage - 3) / Qabs slope)%Q in
      if Qltb hours_to_critical 168 then
        let severity := if Qltb hours_to_critical 48 then HIGH else MEDIUM in
        Some {| device_id := device_id;
                anomaly_type := PREDICTIVE_MAINTENANCE;
                severity := severity;
                confidence_score := Qabs r_value;
                predicted_value := 3;
                actual_value := current_voltage;
                threshold := 32 # 10;
                timestamp := last_timestamp;
                description := "배터리 교체 필요 예상: "
                               +:+ format_0f hours_to_critical +:+ "시간 후";
                recommendation := "예방적 배터리 교체 계획 수립 ("
                               +:+ format_0f hours_to_critical +:+ "시간 내)";
                model_used := "Linear Regression";
                location := last_location;
                maintenance_window := Some (py_int hours_to_critical) |}
      else None
    else None
  else None.

End Detectors.

(** ** [send_anomaly_alerts] *)

(** The body of the alert: the two counts and the listed anomalies. *)
Record AlertData := {
  total_anomalies : nat;
  critical_anomalies : nat;
  anomalies : list AnomalyResult
}.

(** [send_anomaly_alerts]: the alert posted to the webhook, if any;
    [alert_webhook] is the setting [ALERT_WEBHOOK]. *)
Definition send_anomaly_alerts (alert_webhook : string)
    (results : list AnomalyResult) : option AlertData :=
  match results with
  | [] => None
  | _ =>
      if bool_decide (alert_webhook = "") then None
      else
        let critical_results :=
          filter (λ r, severity_value HIGH ≤ severity_value (severity r)) results in
        match critical_results with
        | [] => None
        | _ =>
            Some {| total_anomalies := length results;
                    critical_anomalies := length critical_results;
                    anomalies := take 10 critical_results |}
        end
  end.

End AnomalyDetector.

(* ===================================================================== *)
(** * backend/app/main.py                                                  *)
(* ===================================================================== *)

Module Backend.
Local Open Scope Q_scope.

(** [min(a, b)]: the first argument is kept unless the second is
    strictly smaller. *)
Definition py_min (a b : Q) : Q := if Qlt_le_dec b a then b else a.

Definition normalize_temperature (value : Q) : Q := Py.max (-40) (py_min 85 value).
Definition normalize_humidity (value : Q) : Q := Py.max 0 (py_min 100 value).
Definition normalize_pressure (value : Q) : Q := Py.max 800 (py_min 1200 value).
Definition normalize_acceleration (value : Q) : Q := Py.max 0 (py_min 5 value).

(** A raw reading: the channel-to-value dictionary [data]. *)
Definition validate_sensor_data (data : gmap string Q) : bool :=
  forallb (λ field, bool_decide (is_Some (data !! field)))
          ["temperature"; "humidity"; "pressure"]%string.

(** [data.get(key, default)] *)
Definition dict_get (data : gmap string Q) (key : string) (default : Q) : Q :=
  match data !! key with Some v => v | None => default end.

Definition Qltb (a b : Q) : bool := if Qlt_le_dec a b then true else false.

Definition required_fields : list string :=
  ["temperature"; "humidity"; "pressure"; "acceleration"]%string.

(** [sum(1 for field in required_fields if field not in data)] *)
Definition missing_fields (data : gmap string Q) : nat :=
  length (filter (λ field, data !! field = None) required_fields).

Definition calculate_data_quality (data : gmap string Q) : Q :=
  let quality_score := 1 in
  let quality_score :=
    quality_score - inject_Z (Z.of_nat (missing_fields data)) * (25 # 100) in
  let quality_score :=
    if Qltb (dict_get data "temperature" 0) (-40)
       || Qltb 85 (dict_get data "temperature" 0)
    then quality_score - (1 # 10) else quality_score in
  let quality_score :=
    if Qltb (dict_get data "humidity" 0) 0
       || Qltb 100 (dict_get data "humidity" 0)
    then quality_score - (1 # 10) else quality_score in
  Py.max 0 quality_score.

(** *** The score the specification describes *)

(** The per-channel bound, as the normalizers of this file clip it. *)
Definition normalize (channel : string) (value : Q) : Q :=
  if bool_decide (channel = "temperature"%string) then normalize_temperature value
  else if bool_decide (channel = "humidity"%string) then normalize_humidity value
  else if bool_decide (channel = "pressure"%string) then normalize_pressure value
  else if bool_decide (channel = "acceleration"%string) then normalize_acceleration value
  else value.

(** A channel is clipped when it is present and its normalizer moves it. *)
Definition clipped (data : gmap string Q) (channel : string) : bool :=
  match data !! channel with
  | Some v => negb (Qeq_bool (normalize channel v) v)
  | None => false
  end.

Definition clipped_fields (data : gmap string Q) : nat :=
  length (filter (λ field, clipped data field = true) required_fields).

(** [max(0, 1.0 - 0.25 * missing - 0.1 * clipped)] over all four channels. *)
Definition specified_quality (data : gmap string Q) : Q :=
  Py.max 0 (1 - (25 # 100) * inject_Z (Z.of_nat (missing_fields data))
              - (1 # 10) * inject_Z (Z.of_nat (clipped_fields data))).

(** A complete reading whose pressure is far above 1200 hPa. *)
Definition overpressure_reading : gmap string Q :=
  <["temperature"%string := 20]>
    (<["humidity"%string := 50]>
      (<["pressure"%string := 5000]>
        (<["acceleration"%string := 1]> ∅))).

(** ** [preprocess_sensor_data] and its caller *)

(** An entry of [processed]. *)
Record ProcessedReading := {
  p_temperature : Q;
  p_humidity : Q;
  p_pressure : Q;
  p_acceleration : Q;
  p_timestamp : Z;
  p_quality_score : Q
}.

(** [normalize_x(data.get(key))]: for an absent key [data.get] gives
    [None], and [min(bound, None)] raises [TypeError]. *)
Definition normalize_field (f : Q → Q) (data : gmap string Q) (key : string)
    : Py.outcome Q :=
  match data !! key with
  | Some v => Py.Ok (f v)
  | None =>
      Py.Raise (Py.TypeError
        "'<' not supported between instances of 'NoneType' and 'int'")
  end.

(** The dictionary built for one validated reading; the fields are
    evaluated in the order written. *)
Definition process_reading (now : Z) (data : gmap string Q)
    : Py.outcome ProcessedReading :=
  Py.bind (normalize_field normalize_temperature data "temperature") (λ t,
  Py.bind (normalize_field normalize_humidity data "humidity") (λ h,
  Py.bind (normalize_field normalize_pressure data "pressure") (λ p,
  Py.bind (normalize_field normalize_acceleration data "acceleration") (λ a,
  Py.Ok {| p_temperature := t; p_humidity := h; p_pressure := p;
           p_acceleration := a; p_timestamp := now;
           p_quality_score := calculate_data_quality data |})))).

(** [preprocess_sensor_data]: [raw_data] is given by its items in
    iteration order; [clock n] is the [n]-th value of [datetime.now()],
    one reading being taken per validated sensor. *)
Fixpoint preprocess_loop (clock : nat → Z) (tick : nat)
    (items : list (string * gmap string Q))
    (processed : gmap string ProcessedReading)
    : Py.outcome (gmap string ProcessedReading) :=
  match items with
  | [] => Py.Ok processed
  | (sensor_id, data) :: rest =>
      if validate_sensor_data data then
        Py.bind (process_reading (clock tick) data) (λ r,
          preprocess_loop clock (S tick) rest (<[sensor_id := r]> processed))
      else preprocess_loop clock tick rest processed
  end.

Definition preprocess_sensor_data (clock : nat → Z)
    (raw_data : list (string * gmap string Q))
    : Py.outcome (gmap string ProcessedReading) :=
  preprocess_loop clock 0 raw_data ∅.

(** One round of [data_processing_worker] on a non-empty batch: the
    readings handed to [save_sensor_data], or nothing when preprocessing
    raised (the worker logs the error and sleeps). *)
Definition data_processing_round (clock : nat → Z)
    (raw_data : list (string * gmap string Q))
    : option (gmap string ProcessedReading) :=
  match raw_data with
  | [] => None
  | _ =>
      match preprocess_sensor_data clock raw_data with
      | Py.Ok processed_data => Some processed_data
      | Py.Raise _ => None
      end
  end.

(** [f] clamps to [[lo, hi]]: its values lie in the interval, values of
    the interval are kept, a second application changes nothing and the
    order of the values is kept. *)
Definition clamps_to (f : Q → Q) (lo hi : Q) : Prop :=
  ∀ v w : Q,
    (lo <= f v <= hi) ∧
    (lo <= v <= hi → f v == v) ∧
    f (f v) = f v ∧
    (v <= w → f v <= f w).

(** A stored reading is within the physical bounds of the channels. *)
Definition within_bounds (r : ProcessedReading) : Prop :=
  (-40 <= p_temperature r <= 85) ∧ (0 <= p_humidity r <= 100) ∧
  (800 <= p_pressure r <= 1200) ∧ (0 <= p_acceleration r <= 5).

(** A batch of two readings; the second has no acceleration channel. *)
Definition sample_batch : list (string * gmap string Q) :=
  [ ("S1", overpressure_reading);
    ("S2", <["temperature" := 20]> (<["humidity" := 50]> (<["pressure" := 1000]> ∅))) ].

End Backend.

(* ===================================================================== *)
(** * Theorems                                                            *)
(* ===================================================================== *)

(** ** Health check: overall status *)

Section OverallStatus.
Import HealthCheck.

Lemma overall_status_cases (results : list HealthCheckResult) :
  get_overall_status results =
    if bool_decide (results = []) then UNKNOWN
    else if bool_decide (CRITICAL ∈ map status results) then CRITICAL
    else if bool_decide (WARNING ∈ map status results) then WARNING
    else HEALTHY.
Proof. destruct results; reflexivity. Qed.

Lemma status_in_results (results : list HealthCheckResult) (s : HealthStatus) :
  s ∈ map status results ↔ ∃ r, r ∈ results ∧ status r = s.
Proof.
  rewrite list_elem_of_fmap. split; intros (r & H1 & H2); exists r; auto.
Qed.

(** C10.  The overall status is [UNKNOWN] exactly for the empty list;
    it is [CRITICAL] exactly when some result is [CRITICAL]; [WARNING]
    exactly when none is [CRITICAL] and some is [WARNING]; [HEALTHY]
    exactly for a non-empty list with neither.  Hence, for a non-empty
    list of results that carry one of the three ordered statuses, it is
    the maximum of the component statuses under
    [HEALTHY < WARNING < CRITICAL]. *)
Theorem C10_overall_status (results : list HealthCheckResult) :
  let has s := ∃ r, r ∈ results ∧ status r = s in
  (get_overall_status results = UNKNOWN ↔ results = []) ∧
  (get_overall_status results = CRITICAL ↔ has CRITICAL) ∧
  (get_overall_status results = WARNING ↔ ¬ has CRITICAL ∧ has WARNING) ∧
  (get_overall_status results = HEALTHY ↔
     results ≠ [] ∧ ¬ has CRITICAL ∧ ¬ has WARNING) ∧
  (results ≠ [] → (∀ r, r ∈ results → status r ≠ UNKNOWN) →
     is_max_status (get_overall_status results) results).
Proof.
  cbv zeta. rewrite <- !status_in_results, overall_status_cases.
  assert (Hrank : ∀ r, r ∈ results → status r ≠ UNKNOWN →
            CRITICAL ∉ map status results →
            (WARNING ∈ map status results ∨ status r ≠ WARNING) →
            ∀ m, (m = WARNING ∨ m = HEALTHY) →
            (m = HEALTHY → WARNING ∉ map status results) →
            status_le (status r) m).
  { intros r Hr Hu Hc Hw m Hm Hh.
    assert (status r ≠ CRITICAL)
      by (intros E; apply Hc, status_in_results; eauto).
    assert (m = HEALTHY → status r ≠ WARNING).
    { intros E1 E2. apply (Hh E1), status_in_results; eauto. }
    unfold status_le.
    destruct (status r) eqn:E, Hm as [-> | ->]; simpl; try lia; try congruence.
    exfalso. by apply H0. }
  destruct (decide (results = [])) as [-> | Hne].
  { simpl. rewrite !elem_of_nil. repeat split; try tauto; try congruence. }
  rewrite (bool_decide_eq_false_2 _ Hne).
  destruct (decide (CRITICAL ∈ map status results)) as [Hc | Hc].
  { rewrite (bool_decide_eq_true_2 _ Hc).
    repeat split; try tauto; try congruence.
    intros r Hr. pose proof (H0 r Hr). unfold status_le.
    destruct (status r) eqn:E; simpl; try lia; congruence. }
  rewrite (bool_decide_eq_false_2 _ Hc).
  destruct (decide (WARNING ∈ map status results)) as [Hw | Hw].
  { rewrite (bool_decide_eq_true_2 _ Hw).
    repeat split; try tauto; try congruence.
    intros r Hr. apply Hrank; auto. congruence. }
  rewrite (bool_decide_eq_false_2 _ Hw).
  repeat split; try tauto; try congruence.
  - destruct results as [|r0 rs]; [congruence|].
    pose proof (Hrank r0 ltac:(left) (H0 r0 ltac:(left)) Hc) as Hr0.
    assert (status r0 = HEALTHY) as E.
    { assert (status r0 ≠ CRITICAL)
        by (intros E; apply Hc, status_in_results; exists r0; split; [left|done]).
      assert (status r0 ≠ WARNING)
        by (intros E; apply Hw, status_in_results; exists r0; split; [left|done]).
      pose proof (H0 r0 ltac:(left)).
      destruct (status r0) eqn:E; congruence. }
    simpl. rewrite E. left.
  - intros r Hr. apply Hrank; auto.
    right. intros E. apply Hw, status_in_results; eauto.
Qed.

End OverallStatus.

Lemma C10_overall_status_witness :
  HealthCheck.is_max_status
    (HealthCheck.get_overall_status HealthCheck.sample_results)
    HealthCheck.sample_results.
Proof.
  destruct (C10_overall_status HealthCheck.sample_results) as (_ & _ & _ & _ & H).
  apply H.
  - discriminate.
  - intros r Hr. unfold HealthCheck.sample_results in Hr.
    apply elem_of_cons in Hr as [-> | Hr]; [discriminate|].
    apply elem_of_cons in Hr as [-> | Hr]; [discriminate|].
    apply elem_of_nil in Hr. destruct Hr.
Defined.

(** ** Self-healing: the health score *)

Section HealthScore.
Import SelfHealing.
Local Open Scope Q_scope.

Lemma py_max_spec (a b : Q) : a <= Py.max a b ∧ b <= Py.max a b ∧
  (Py.max a b = a ∨ Py.max a b = b).
Proof. unfold Py.max. destruct (Qlt_le_dec a b); repeat split; auto; lra. Qed.

Lemma fold_plus_shift (xs : list Q) (a : Q) :
  fold_left Qplus xs a == a + Py.sum xs.
Proof.
  unfold Py.sum. revert a. induction xs as [|x xs IH]; intros a; simpl.
  - lra.
  - rewrite (IH (a + x)), (IH (0 + x)). lra.
Qed.

Lemma py_sum_cons (x : Q) (xs : list Q) : Py.sum (x :: xs) == x + Py.sum xs.
Proof. unfold Py.sum at 1. simpl. rewrite fold_plus_shift. lra. Qed.

Lemma severity_weights_pos (s : Severity) : 0 < severity_weights s.
Proof. destruct s; reflexivity. Qed.

Lemma total_impact_cons (i : HealthIssue) (l : list HealthIssue) :
  total_impact (i :: l) == severity_weights (severity i) + total_impact l.
Proof. unfold total_impact. simpl. apply py_sum_cons. Qed.

Lemma total_impact_nonneg (l : list HealthIssue) : 0 <= total_impact l.
Proof.
  induction l as [|i l IH]; [unfold total_impact, Py.sum; simpl; lra|].
  rewrite total_impact_cons. pose proof (severity_weights_pos (severity i)). lra.
Qed.

Lemma total_impact_elem (i : HealthIssue) (l : list HealthIssue) :
  i ∈ l → severity_weights (severity i) <= total_impact l.
Proof.
  induction l as [|j l IH]; intros Hi.
  - apply elem_of_nil in Hi. destruct Hi.
  - rewrite total_impact_cons. apply elem_of_cons in Hi as [-> | Hi].
    + pose proof (total_impact_nonneg l). lra.
    + pose proof (IH Hi). pose proof (severity_weights_pos (severity j)). lra.
Qed.

Lemma health_score_formula (l : list HealthIssue) :
  l ≠ [] → health_score l = Py.max 0 (100 - total_impact l * 10).
Proof. destruct l; [congruence | reflexivity]. Qed.

(** C3, as the code computes it.  The score lies in [[0, 100]] and is
    exactly 100 when there is no issue.  Every issue lowers the score by
    ten times its severity weight (0.1, 0.3, 0.6, 0.8, 1.0), down to the
    floor 0: an Emergency issue costs 10 points, so with at least one
    Emergency issue the score is at most 90. *)
Theorem C3_health_score_bounds (health_issues : list HealthIssue) :
  0 <= health_score health_issues <= 100 ∧
  (health_issues = [] → health_score health_issues = 100) ∧
  (health_issues ≠ [] →
     health_score health_issues = Py.max 0 (100 - total_impact health_issues * 10)) ∧
  ((∃ i, i ∈ health_issues ∧ severity i = EMERGENCY) →
     health_score health_issues <= 90).
Proof.
  pose proof (total_impact_nonneg health_issues) as Hnn.
  split_and!.
  - destruct health_issues; [simpl; lra|]. rewrite health_score_formula by done.
    apply py_max_spec.
  - destruct health_issues; [simpl; lra|]. rewrite health_score_formula by done.
    unfold Py.max. destruct (Qlt_le_dec _ _); lra.
  - intros ->. reflexivity.
  - apply health_score_formula.
  - intros (i & Hi & Hs). pose proof (total_impact_elem i _ Hi) as Hw.
    rewrite Hs in Hw. simpl in Hw.
    rewrite health_score_formula by (intros ->; by apply elem_of_nil in Hi).
    unfold Py.max. destruct (Qlt_le_dec _ _); lra.
Qed.

Lemma C3_health_score_bounds_witness :
  health_score [emergency_issue] <= 90.
Proof.
  destruct (C3_health_score_bounds [emergency_issue]) as (_ & _ & _ & H).
  apply H. exists emergency_issue. split; [left | reflexivity].
Defined.

(** C3 as stated fails: a scan whose only issue is an Emergency yields
    the score 90, not 0. *)
Lemma C3_emergency_counterexample :
  (∃ i, i ∈ [emergency_issue] ∧ severity i = EMERGENCY) ∧
  health_score [emergency_issue] = 90 ∧
  ¬ health_score [emergency_issue] == 0.
Proof.
  split_and!.
  - exists emergency_issue. split; [left | reflexivity].
  - reflexivity.
  - intros H. discriminate H.
Qed.

End HealthScore.

(** ** Backend: data quality *)

Section DataQuality.
Import Backend.
Local Open Scope Q_scope.

Lemma data_quality_range (data : gmap string Q) :
  0 <= calculate_data_quality data <= 1.
Proof.
  unfold calculate_data_quality.
  assert (0 <= inject_Z (Z.of_nat (missing_fields data))) as Hm.
  { change 0 with (inject_Z 0). rewrite <- Zle_Qle. lia. }
  split; [apply py_max_spec|].
  unfold Py.max.
  repeat match goal with
         | |- context [if ?b then _ else _] => destruct b
         end; lra.
Qed.

Lemma py_max_proper (a x y : Q) : x == y → Py.max a x == Py.max a y.
Proof.
  intros H. unfold Py.max.
  destruct (Qlt_le_dec a x), (Qlt_le_dec a y); lra.
Qed.

Lemma Qltb_true (a b : Q) : Qltb a b = true ↔ a < b.
Proof. unfold Qltb. destruct (Qlt_le_dec a b); split; (done || lra). Qed.

Lemma Qltb_false (a b : Q) : Qltb a b = false ↔ b <= a.
Proof. unfold Qltb. destruct (Qlt_le_dec a b); split; (done || lra). Qed.

Lemma clip_moves (lo hi v : Q) :
  lo <= hi →
  negb (Qeq_bool (Py.max lo (py_min hi v)) v) = Qltb v lo || Qltb hi v.
Proof.
  intros Hb. unfold Py.max, py_min.
  destruct (Qltb v lo) eqn:H1, (Qltb hi v) eqn:H2; simpl;
    rewrite ?Qltb_true, ?Qltb_false in *;
    repeat destruct (Qlt_le_dec _ _); try (exfalso; lra).
  all: destruct (Qeq_bool _ v) eqn:E; simpl; try done.
  all: try (apply Qeq_bool_iff in E; exfalso; lra).
  all: apply Qeq_bool_neq in E; exfalso; apply E; lra.
Qed.

Lemma clipped_temperature (data : gmap string Q) :
  clipped data "temperature" =
    Qltb (dict_get data "temperature" 0) (-40)
    || Qltb 85 (dict_get data "temperature" 0).
Proof.
  unfold clipped, dict_get. destruct (data !! "temperature") as [v|]; [|done].
  apply (clip_moves (-40) 85 v). lra.
Qed.

Lemma clipped_humidity (data : gmap string Q) :
  clipped data "humidity" =
    Qltb (dict_get data "humidity" 0) 0 || Qltb 100 (dict_get data "humidity" 0).
Proof.
  unfold clipped, dict_get. destruct (data !! "humidity") as [v|]; [|done].
  apply (clip_moves 0 100 v). lra.
Qed.

(** Apart from pressure and acceleration the code computes the specified
    score: both agree on every reading whose pressure and acceleration
    are not clipped. *)
Lemma data_quality_agrees (data : gmap string Q) :
  clipped data "pressure" = false → clipped data "acceleration" = false →
  calculate_data_quality data == specified_quality data.
Proof.
  intros Hp Ha. unfold calculate_data_quality, specified_quality.
  rewrite <- clipped_temperature, <- clipped_humidity.
  assert (clipped_fields data =
    ((if clipped data "temperature" then 1 else 0) +
     (if clipped data "humidity" then 1 else 0))%nat) as ->.
  { unfold clipped_fields, required_fields.
    rewrite !filter_cons, filter_nil, Hp, Ha.
    destruct (clipped data "temperature"), (clipped data "humidity"); reflexivity. }
  apply py_max_proper.
  generalize (inject_Z (Z.of_nat (missing_fields data))). intros m.
  destruct (clipped data "temperature"), (clipped data "humidity");
    cbv [Nat.add Z.of_nat Pos.of_succ_nat Pos.succ inject_Z]; lra.
Qed.

(** C6 at the reading [overpressure_reading]: all four channels are
    present, temperature, humidity and acceleration are in range and the
    pressure 5000 is clipped to 1200 by [normalize_pressure]; the code
    scores the reading 1.0, where one clipped channel should cost 0.1. *)
Theorem C6_quality_ignores_pressure :
  validate_sensor_data overpressure_reading = true ∧
  missing_fields overpressure_reading = 0%nat ∧
  normalize_pressure (dict_get overpressure_reading "pressure" 0) = 1200 ∧
  clipped_fields overpressure_reading = 1%nat ∧
  calculate_data_quality overpressure_reading == 1 ∧
  specified_quality overpressure_reading == 9 # 10 ∧
  ¬ calculate_data_quality overpressure_reading == specified_quality overpressure_reading.
Proof. split_and!; try (vm_compute; reflexivity). vm_compute. discriminate. Qed.

End DataQuality.

(** ** Insertion-ordered dictionaries *)

Section OrderedDict.
Context {V : Type}.
Implicit Types (d : Py.odict V) (k : string) (v : V).

Lemma od_get_set_eq d k v : Py.od_get (Py.od_set d k v) k = Some v.
Proof.
  induction d as [|[k' v'] d IH]; simpl.
  - by rewrite decide_True.
  - destruct (decide (k' = k)) as [->|Hne]; simpl.
    + by rewrite decide_True.
    + by rewrite decide_False.
Qed.

Lemma od_get_set_ne d k k' v :
  k ≠ k' → Py.od_get (Py.od_set d k v) k' = Py.od_get d k'.
Proof.
  intros Hne. induction d as [|[k0 v0] d IH]; simpl.
  - by rewrite decide_False.
  - destruct (decide (k0 = k)) as [->|Hk]; simpl.
    + by rewrite !decide_False.
    + by rewrite IH.
Qed.

Lemma od_get_None d k : Py.od_get d k = None ↔ k ∉ Py.od_keys d.
Proof.
  induction d as [|[k0 v0] d IH]; simpl.
  - split; [intros _; apply not_elem_of_nil | done].
  - rewrite not_elem_of_cons. destruct (decide (k0 = k)) as [->|Hk].
    + split; [done | intros [? _]; done].
    + rewrite IH. split; [intros ?; split; [congruence | done] | tauto].
Qed.

Lemma od_get_elem d k v : Py.od_get d k = Some v → (k, v) ∈ d.
Proof.
  induction d as [|[k0 v0] d IH]; simpl; [done|].
  destruct (decide (k0 = k)) as [->|Hk].
  - intros [= ->]. left.
  - intros H. right. auto.
Qed.

Lemma od_elem_get d k v :
  NoDup (Py.od_keys d) → (k, v) ∈ d → Py.od_get d k = Some v.
Proof.
  induction d as [|[k0 v0] d IH]; simpl; intros Hnd Hin.
  - by apply elem_of_nil in Hin.
  - apply NoDup_cons in Hnd as [Hk0 Hnd].
    apply elem_of_cons in Hin as [[= -> ->] | Hin].
    + by rewrite decide_True.
    + rewrite decide_False; [auto|].
      intros ->. apply Hk0. unfold Py.od_keys.
      apply list_elem_of_fmap. by exists (k, v).
Qed.

Lemma od_keys_set d k v :
  Py.od_keys (Py.od_set d k v) =
    if decide (k ∈ Py.od_keys d) then Py.od_keys d else Py.od_keys d ++ [k].
Proof.
  induction d as [|[k0 v0] d IH]; simpl.
  - done.
  - destruct (decide (k0 = k)) as [->|Hk]; simpl.
    + rewrite decide_True; [done | left].
    + rewrite IH. destruct (decide (k ∈ Py.od_keys d)) as [Hin|Hin].
      * rewrite decide_True; [done | by right].
      * rewrite decide_False; [done|].
        rewrite not_elem_of_cons. split; [congruence | done].
Qed.

Lemma od_set_NoDup d k v :
  NoDup (Py.od_keys d) → NoDup (Py.od_keys (Py.od_set d k v)).
Proof.
  intros Hnd. rewrite od_keys_set. destruct (decide _) as [|Hnin]; [done|].
  apply NoDup_app. split_and!; [done | | apply NoDup_singleton].
  intros x Hx Hx'. apply list_elem_of_singleton in Hx' as ->. done.
Qed.

End OrderedDict.

(** ** Anomaly detector: grouping key *)

Section GroupKey.
Import AnomalyDetector.

Lemma list_ascii_app (a b : string) :
  list_ascii_of_string (a +:+ b) = list_ascii_of_string a ++ list_ascii_of_string b.
Proof. induction a as [|c a IH]; simpl; [done | by rewrite IH]. Qed.

Lemma list_ascii_inj (a b : string) :
  list_ascii_of_string a = list_ascii_of_string b → a = b.
Proof.
  intros H. rewrite <- (string_of_list_ascii_of_string a),
    <- (string_of_list_ascii_of_string b). by rewrite H.
Qed.

Lemma key_tail_not_suffix (t1 t2 : AnomalyType) :
  key_tail t1 `suffix_of` key_tail t2 → t1 = t2.
Proof.
  destruct (decide (t1 = t2)) as [|Hne]; [done|].
  intros Hs. exfalso.
  assert (bool_decide (key_tail t1 `suffix_of` key_tail t2) = false) as Hb
    by (destruct t1, t2; try done; vm_compute; reflexivity).
  by apply bool_decide_eq_false_1 in Hb.
Qed.

Lemma result_key_chars (a : AnomalyResult) :
  list_ascii_of_string (result_key a) =
    list_ascii_of_string (device_id a) ++ key_tail (anomaly_type a).
Proof. unfold result_key, key_tail. by rewrite list_ascii_app. Qed.

(** The string key separates the groups: the enum values are such that
    no key can be read as a different (device, type) pair. *)
Lemma result_key_inj (a b : AnomalyResult) :
  result_key a = result_key b ↔ same_group a b.
Proof.
  split.
  - intros H. apply (f_equal list_ascii_of_string) in H.
    rewrite !result_key_chars in H.
    assert (anomaly_type a = anomaly_type b) as Ht.
    { apply app_eq_inv in H as [(k & _ & Hk) | (k & _ & Hk)].
      - apply key_tail_not_suffix. by exists k.
      - symmetry. apply key_tail_not_suffix. by exists k. }
    split; [|done]. rewrite Ht in H. apply app_inv_tail in H.
    by apply list_ascii_inj.
  - intros [Hd Ht]. unfold result_key. by rewrite Hd, Ht.
Qed.

End GroupKey.

(** ** Anomaly detector: the grouping loop *)

Section Dedup.
Import AnomalyDetector.

Lemma unique_results_snoc (rs : list AnomalyResult) (r : AnomalyResult) :
  unique_results (rs ++ [r]) = dedup_step (unique_results rs) r.
Proof. unfold unique_results. by rewrite fold_left_app. Qed.

Lemma first_occurrences_snoc (ks : list string) (k : string) :
  first_occurrences (ks ++ [k]) =
    if decide (k ∈ first_occurrences ks) then first_occurrences ks
    else first_occurrences ks ++ [k].
Proof. unfold first_occurrences. by rewrite fold_left_app. Qed.

Lemma kept_in_snoc_other rs x r :
  kept_in rs x →
  (same_group r x → severity_value (severity r) ≤ severity_value (severity x)) →
  kept_in (rs ++ [r]) x.
Proof.
  intros (pre & post & -> & Hpre & Hpost) Hr.
  exists pre, (post ++ [r]). split_and!; [by rewrite <- app_assoc | done |].
  intros y Hy Hg. apply elem_of_app in Hy as [Hy | Hy]; [by apply Hpost|].
  apply list_elem_of_singleton in Hy as ->. by apply Hr.
Qed.

Lemma kept_in_snoc_new rs r :
  (∀ y, y ∈ rs → same_group y r →
     severity_value (severity y) < severity_value (severity r)) →
  kept_in (rs ++ [r]) r.
Proof.
  intros H. exists rs, []. split_and!; [done | done |].
  intros y Hy. by apply elem_of_nil in Hy.
Qed.

Lemma same_group_trans a b c : same_group a b → same_group b c → same_group a c.
Proof. intros [? ?] [? ?]. split; congruence. Qed.

Lemma same_group_sym a b : same_group a b → same_group b a.
Proof. intros [? ?]. by split. Qed.

Lemma kept_in_dominates rs x y :
  kept_in rs x → y ∈ rs → same_group y x →
  severity_value (severity y) ≤ severity_value (severity x).
Proof.
  intros (pre & post & -> & Hpre & Hpost) Hy Hg.
  apply elem_of_app in Hy as [Hy | Hy]; [pose proof (Hpre y Hy Hg); lia|].
  apply elem_of_cons in Hy as [-> | Hy]; [lia | by apply Hpost].
Qed.

Lemma kept_in_elem rs x : kept_in rs x → x ∈ rs.
Proof.
  intros (pre & post & -> & _). apply elem_of_app. right. left.
Qed.

(** The invariant of the grouping loop. *)
Lemma unique_results_inv (rs : list AnomalyResult) :
  NoDup (Py.od_keys (unique_results rs)) ∧
  Py.od_keys (unique_results rs) = first_occurrences (map result_key rs) ∧
  (∀ k x, (k, x) ∈ unique_results rs → result_key x = k ∧ kept_in rs x) ∧
  (∀ r, r ∈ rs → result_key r ∈ Py.od_keys (unique_results rs)).
Proof.
  induction rs as [|r rs (Hnd & Hkeys & Hval & Hdom)] using rev_ind.
  { split_and!; [apply NoDup_nil_2 | done | |].
    - intros k x H. by apply elem_of_nil in H.
    - intros r H. by apply elem_of_nil in H. }
  rewrite unique_results_snoc, map_app.
  change (map result_key [r]) with [result_key r].
  rewrite first_occurrences_snoc.
  set (d := unique_results rs) in *. rewrite <- Hkeys.
  assert (Hset : ∀ k x, (k, x) ∈ Py.od_set d (result_key r) r →
            (k ≠ result_key r ∧ (k, x) ∈ d) ∨ (k = result_key r ∧ x = r)).
  { intros k x Hin.
    apply od_elem_get in Hin; [|by apply od_set_NoDup].
    destruct (decide (k = result_key r)) as [->|Hne].
    - rewrite od_get_set_eq in Hin. right. split; congruence.
    - rewrite od_get_set_ne in Hin by done. left. split; [done|].
      by apply od_get_elem. }
  assert (Hother : ∀ k x, k ≠ result_key r → (k, x) ∈ d →
            result_key x = k ∧ kept_in (rs ++ [r]) x).
  { intros k x Hne Hin. destruct (Hval k x Hin) as [Hk Hkept].
    split; [done|]. apply kept_in_snoc_other; [done|].
    intros Hg. apply result_key_inj in Hg. congruence. }
  unfold dedup_step.
  destruct (Py.od_get d (result_key r)) as [kept|] eqn:Hget.
  - pose proof (od_get_elem _ _ _ Hget) as Hin.
    destruct (Hval _ _ Hin) as [Hkk Hkept].
    assert (result_key r ∈ Py.od_keys d) as Hrk.
    { apply dec_stable. intros Hn. apply od_get_None in Hn. congruence. }
    rewrite (decide_True _ _ Hrk).
    destruct (severity_value (severity kept) <? severity_value (severity r)) eqn:Hlt.
    + apply Z.ltb_lt in Hlt.
      split_and!.
      * by apply od_set_NoDup.
      * rewrite od_keys_set. by rewrite decide_True.
      * intros k x Hx. destruct (Hset k x Hx) as [[Hne Hd] | [-> ->]]; [by apply Hother|].
        split; [done|]. apply kept_in_snoc_new. intros y Hy Hg.
        assert (same_group y kept) as Hg'.
        { apply result_key_inj. apply result_key_inj in Hg. congruence. }
        pose proof (kept_in_dominates _ _ _ Hkept Hy Hg'). lia.
      * intros y Hy. rewrite od_keys_set, (decide_True _ _ Hrk).
        apply elem_of_app in Hy as [Hy | Hy]; [by apply Hdom|].
        by apply list_elem_of_singleton in Hy as ->.
    + apply Z.ltb_ge in Hlt.
      split_and!; [done | done | |].
      * intros k x Hx. destruct (decide (k = result_key r)) as [->|Hne]; [|by apply Hother].
        apply od_elem_get in Hx; [|done].
        assert (x = kept) as -> by congruence.
        split; [done|]. by apply kept_in_snoc_other.
      * intros y Hy. apply elem_of_app in Hy as [Hy | Hy]; [by apply Hdom|].
        by apply list_elem_of_singleton in Hy as ->.
  - pose proof (proj1 (od_get_None _ _) Hget) as Hrk.
    rewrite (decide_False _ _ Hrk).
    split_and!.
    + by apply od_set_NoDup.
    + rewrite od_keys_set. by rewrite decide_False.
    + intros k x Hx. destruct (Hset k x Hx) as [[Hne Hd] | [-> ->]]; [by apply Hother|].
      split; [done|]. apply kept_in_snoc_new. intros y Hy Hg.
      exfalso. apply Hrk. apply result_key_inj in Hg. rewrite <- Hg. by apply Hdom.
    + intros y Hy. rewrite od_keys_set, (decide_False _ _ Hrk).
      apply elem_of_app. apply elem_of_app in Hy as [Hy | Hy]; [left; by apply Hdom|].
      right. apply list_elem_of_singleton in Hy as ->. left.
Qed.

End Dedup.

(** ** Stable descending sort *)

Section StableSort.
Context {A : Type} (ltb : A → A → bool).
Hypothesis ltb_asym : ∀ a b, ltb a b = true → ltb b a = false.
Hypothesis ltb_negtrans :
  ∀ a b c, ltb a b = false → ltb b c = false → ltb a c = false.

Lemma insert_desc_perm (x : A) (l : list A) :
  Py.insert_desc ltb x l ≡ₚ x :: l.
Proof.
  induction l as [|y l IH]; simpl; [done|].
  destruct (ltb x y); [|done]. rewrite IH. apply Permutation_swap.
Qed.

Lemma sorted_desc_perm (l : list A) : Py.sorted_desc ltb l ≡ₚ l.
Proof.
  induction l as [|x l IH]; simpl; [done|].
  rewrite insert_desc_perm. by rewrite IH.
Qed.

Lemma insert_desc_sorted (x : A) (l : list A) :
  StronglySorted (λ a b, ltb a b = false) l →
  StronglySorted (λ a b, ltb a b = false) (Py.insert_desc ltb x l).
Proof.
  induction 1 as [|y l Hs IH Hy]; simpl.
  - repeat constructor.
  - destruct (ltb x y) eqn:Hxy.
    + constructor; [done|].
      rewrite insert_desc_perm. constructor; [by apply ltb_asym | done].
    + constructor; [by constructor|].
      constructor; [done|].
      eapply Forall_impl; [exact Hy|]. intros z Hz. by eapply ltb_negtrans.
Qed.

Lemma sorted_desc_sorted (l : list A) :
  StronglySorted (λ a b, ltb a b = false) (Py.sorted_desc ltb l).
Proof.
  induction l as [|x l IH]; simpl; [constructor | by apply insert_desc_sorted].
Qed.

(** Stability: elements that the key does not separate keep their
    relative order. *)
Lemma insert_desc_filter (P : A → Prop) `{!∀ a, Decision (P a)} (x : A) (l : list A) :
  (∀ a b, P a → P b → ltb a b = false) →
  filter P (Py.insert_desc ltb x l) = filter P (x :: l).
Proof.
  intros HP. induction l as [|y l IH]; simpl; [done|].
  destruct (ltb x y) eqn:Hxy; [|done].
  rewrite filter_cons, IH, !filter_cons.
  destruct (decide (P y)) as [Hy|Hy], (decide (P x)) as [Hx|Hx]; try done.
  rewrite (HP x y Hx Hy) in Hxy. done.
Qed.

Lemma sorted_desc_filter (P : A → Prop) `{!∀ a, Decision (P a)} (l : list A) :
  (∀ a b, P a → P b → ltb a b = false) →
  filter P (Py.sorted_desc ltb l) = filter P l.
Proof.
  intros HP. induction l as [|x l IH]; simpl; [done|].
  rewrite insert_desc_filter by done. by rewrite !filter_cons, IH.
Qed.

(** Filtering commutes with the sort. *)
Lemma insert_desc_head (x : A) (l : list A) :
  Forall (λ z, ltb x z = false) l → Py.insert_desc ltb x l = x :: l.
Proof. destruct 1 as [|z l Hz _]; simpl; [done | by rewrite Hz]. Qed.

Lemma insert_desc_filter_sorted (P : A → Prop) `{!∀ a, Decision (P a)}
    (x : A) (l : list A) :
  StronglySorted (λ a b, ltb a b = false) l →
  filter P (Py.insert_desc ltb x l) =
    if decide (P x) then Py.insert_desc ltb x (filter P l) else filter P l.
Proof.
  induction 1 as [|y l Hs IH Hy]; simpl.
  - rewrite filter_cons. by destruct (decide (P x)).
  - destruct (ltb x y) eqn:Hxy.
    + rewrite !filter_cons, IH.
      destruct (decide (P x)), (decide (P y)); simpl; try done.
      by rewrite Hxy.
    + rewrite !filter_cons. destruct (decide (P x)) as [Hx|Hx]; [|done].
      rewrite <- filter_cons. symmetry. apply insert_desc_head.
      apply Forall_forall. intros z Hz.
      apply list_elem_of_filter in Hz as [_ Hz].
      apply elem_of_cons in Hz as [-> | Hz]; [done|].
      eapply ltb_negtrans; [exact Hxy|].
      rewrite Forall_forall in Hy. by apply Hy.
Qed.

Lemma sorted_desc_filter_comm (P : A → Prop) `{!∀ a, Decision (P a)} (l : list A) :
  filter P (Py.sorted_desc ltb l) = Py.sorted_desc ltb (filter P l).
Proof.
  induction l as [|x l IH]; simpl; [done|].
  rewrite insert_desc_filter_sorted by apply sorted_desc_sorted.
  rewrite filter_cons, IH. by destruct (decide (P x)).
Qed.

End StableSort.

(** ** Anomaly detector: deduplication and ranking *)

Section Ranking.
Import AnomalyDetector.

Lemma strongly_sorted_mono {A} (R R' : A → A → Prop) (l : list A) :
  (∀ a b, R a b → R' a b) → StronglySorted R l → StronglySorted R' l.
Proof.
  intros HR. induction 1 as [|x l Hs IH Hx]; constructor; [done|].
  eapply Forall_impl; [exact Hx | auto].
Qed.

Lemma rank_ltb_false (a b : AnomalyResult) : rank_ltb a b = false ↔ rank_ge a b.
Proof.
  unfold rank_ltb, rank_ge.
  destruct (Z.eqb_spec (severity_value (severity a)) (severity_value (severity b)))
    as [He|Hne].
  - destruct (Qlt_le_dec _ _) as [Hlt|Hle]; split; try done.
    + intros [H | [_ H]]; [lia|]. exfalso. by apply (Qlt_not_le _ _ Hlt).
    + intros _. right. done.
  - rewrite Z.ltb_ge. split; [intros; left; lia | intros [H | [H _]]; lia].
Qed.

Lemma rank_ltb_asym a b : rank_ltb a b = true → rank_ltb b a = false.
Proof.
  intros H. apply rank_ltb_false.
  destruct (rank_ltb b a) eqn:Hba; [|by apply rank_ltb_false].
  exfalso. unfold rank_ltb in *.
  destruct (Z.eqb_spec (severity_value (severity a)) (severity_value (severity b)));
    destruct (Z.eqb_spec (severity_value (severity b)) (severity_value (severity a)));
    try lia.
  destruct (Qlt_le_dec _ _), (Qlt_le_dec _ _); try done. lra.
Qed.

Lemma rank_ltb_negtrans a b c :
  rank_ltb a b = false → rank_ltb b c = false → rank_ltb a c = false.
Proof.
  rewrite !rank_ltb_false. unfold rank_ge.
  intros [H1 | [H1 H1']] [H2 | [H2 H2']]; try (left; lia).
  right. split; [lia | lra].
Qed.

Lemma same_rank_not_ltb a b : same_rank a b → rank_ltb a b = false.
Proof.
  intros [Hs Hc]. apply rank_ltb_false. right. split; [done | lra].
Qed.

Lemma od_values_keys (d : Py.odict AnomalyResult) :
  (∀ k x, (k, x) ∈ d → result_key x = k) →
  map result_key (Py.od_values d) = Py.od_keys d.
Proof.
  induction d as [|[k x] d IH]; intros H; simpl; [done|].
  rewrite (H k x) by left. f_equal. apply IH. intros k' x' Hin. apply H. by right.
Qed.

Lemma filter_group_absent (l : list AnomalyResult) (k : string) :
  k ∉ map result_key l → filter (λ y, result_key y = k) l = [].
Proof.
  induction l as [|y l IH]; simpl; intros Hk; [done|].
  apply not_elem_of_cons in Hk as [Hne Hk].
  rewrite filter_cons, decide_False by congruence. auto.
Qed.

Lemma filter_group_unique (l : list AnomalyResult) (x : AnomalyResult) :
  NoDup (map result_key l) → x ∈ l →
  filter (λ y, result_key y = result_key x) l = [x].
Proof.
  induction l as [|y l IH]; simpl; intros Hnd Hx.
  - by apply elem_of_nil in Hx.
  - apply NoDup_cons in Hnd as [Hy Hnd]. rewrite filter_cons.
    apply elem_of_cons in Hx as [-> | Hx].
    + rewrite decide_True by done. f_equal. by apply filter_group_absent.
    + rewrite decide_False; [by apply IH|].
      intros E. apply Hy. rewrite E. apply list_elem_of_fmap. by exists x.
Qed.

(** C4, as the code groups.  Every group of results sharing
    [(device_id, anomaly_type)] is collapsed into exactly one result of
    the output, and that result has the maximal severity of its group.
    Among the results of maximal severity the one that comes first in
    the input is kept; confidence is not compared. *)
Theorem C4_dedup_keeps_first_most_severe (results : list AnomalyResult) :
  (∀ r, r ∈ results →
     ∃ x, filter (same_group r) (deduplicate_and_prioritize results) = [x]) ∧
  (∀ x, x ∈ deduplicate_and_prioritize results →
     x ∈ results ∧
     (∀ y, y ∈ results → same_group y x →
        severity_value (severity y) ≤ severity_value (severity x)) ∧
     kept_in results x).
Proof.
  destruct (unique_results_inv results) as (Hnd & Hkeys & Hval & Hdom).
  pose proof (od_values_keys _ (λ k x H, proj1 (Hval k x H))) as Hvk.
  unfold deduplicate_and_prioritize. split.
  - intros r Hr. specialize (Hdom r Hr).
    destruct (Py.od_get (unique_results results) (result_key r)) as [x|] eqn:Hget;
      [|by apply od_get_None in Hget].
    apply od_get_elem in Hget. destruct (Hval _ _ Hget) as [Hk _].
    exists x. apply Permutation_singleton_r.
    rewrite (sorted_desc_perm rank_ltb).
    rewrite (list_filter_iff _ (λ y, result_key y = result_key x)).
    + rewrite filter_group_unique; [done | by rewrite Hvk |].
      apply list_elem_of_fmap. by exists (result_key r, x).
    + intros y. rewrite Hk. rewrite <- result_key_inj. split; congruence.
  - intros x Hx. rewrite (sorted_desc_perm rank_ltb) in Hx.
    apply list_elem_of_fmap in Hx as ([k x'] & -> & Hin). simpl.
    destruct (Hval _ _ Hin) as [_ Hkept].
    split_and!; [by eapply kept_in_elem | | done].
    intros y Hy Hg. by eapply kept_in_dominates.
Qed.

Lemma C4_dedup_keeps_first_most_severe_witness :
  ∃ x, filter (same_group lstm_hit)
         (deduplicate_and_prioritize [forest_hit; lstm_hit]) = [x].
Proof.
  apply (proj1 (C4_dedup_keeps_first_most_severe [forest_hit; lstm_hit])).
  right. left.
Defined.

(** C4 as stated fails on ties: of two results of one group with equal
    severity the first is kept, although the second is more confident. *)
Lemma C4_confidence_counterexample :
  same_group forest_hit lstm_hit ∧
  severity forest_hit = severity lstm_hit ∧
  (confidence_score forest_hit < confidence_score lstm_hit)%Q ∧
  deduplicate_and_prioritize [forest_hit; lstm_hit] = [forest_hit].
Proof. split_and!; by vm_compute. Qed.

(** C5, as the code ranks.  The output is sorted by severity descending,
    then confidence descending.  It is a permutation of the values of the
    grouping dictionary; results with equal severity and confidence keep
    the order of that dictionary, which is the order in which their
    groups first occur in the input.  Neither the observation time nor
    the device id is compared. *)
Theorem C5_ranking_order (results : list AnomalyResult) :
  StronglySorted rank_ge (deduplicate_and_prioritize results) ∧
  deduplicate_and_prioritize results ≡ₚ Py.od_values (unique_results results) ∧
  (∀ x, filter (same_rank x) (deduplicate_and_prioritize results) =
        filter (same_rank x) (Py.od_values (unique_results results))) ∧
  map result_key (Py.od_values (unique_results results)) =
    first_occurrences (map result_key results).
Proof.
  destruct (unique_results_inv results) as (Hnd & Hkeys & Hval & Hdom).
  unfold deduplicate_and_prioritize. split_and!.
  - eapply strongly_sorted_mono; [| apply sorted_desc_sorted].
    + intros a b. apply rank_ltb_false.
    + apply rank_ltb_asym.
    + apply rank_ltb_negtrans.
  - apply sorted_desc_perm.
  - intros x. apply sorted_desc_filter. intros a b [Ha Ha'] [Hb Hb'].
    apply same_rank_not_ltb. split; [congruence | lra].
  - rewrite od_values_keys; [done|]. intros k x H. by apply Hval.
Qed.

(** C5 as stated fails: two results of different devices with equal
    severity and confidence come out in input order, the later
    observation and the larger device id first; and the same two results
    listed the other way round come out the other way round. *)
Lemma C5_tie_counterexample :
  deduplicate_and_prioritize [late_hit; early_hit] = [late_hit; early_hit] ∧
  ¬ spec_before late_hit early_hit ∧
  [early_hit; late_hit] ≡ₚ [late_hit; early_hit] ∧
  deduplicate_and_prioritize [early_hit; late_hit] = [early_hit; late_hit].
Proof.
  split_and!.
  - vm_compute. reflexivity.
  - unfold spec_before. simpl. intros [H | [_ [H | [_ [H | [H _]]]]]]; try lia.
    unfold Qlt in H. simpl in H. lia.
  - apply Permutation_swap.
  - vm_compute. reflexivity.
Qed.

End Ranking.

(** ** Self-healing: the recovery planner *)

Section PlannerFacts.
Import SelfHealing.
Variable clock : nat → Z.

Lemma plan_issue_not_recoverable issue st :
  auto_recoverable issue = false → plan_issue clock issue st = (None, st).
Proof. intros H. unfold plan_issue. by rewrite H. Qed.

(** What one pass of the loop body does. *)
Lemma plan_issue_spec issue st :
  let key := cooldown_key issue in
  let r := plan_issue clock issue st in
  ((∃ e, fst r = Some e) ↔
     auto_recoverable issue = true ∧
     (∃ a rest, recovery_actions issue = Some (a :: rest)) ∧
     (action_cooldowns st !! key = None ∨
      ∃ last, action_cooldowns st !! key = Some last ∧
        last + timedelta_seconds (cooldown_period issue) ≤ clock (ticks st))) ∧
  (∀ e, fst r = Some e →
     adm_issue e = issue ∧
     Some (adm_action e) = head (default [] (recovery_actions issue)) ∧
     action_cooldowns (snd r) = <[key := adm_time e]> (action_cooldowns st) ∧
     (ticks st < ticks (snd r))%nat ∧
     adm_time e = clock (ticks (snd r) - 1) ∧
     match action_cooldowns st !! key with
     | Some last =>
         adm_checked_at e = Some (clock (ticks st)) ∧
         last + timedelta_seconds (cooldown_period issue) ≤ clock (ticks st) ∧
         ticks (snd r) = S (S (ticks st))
     | None => adm_checked_at e = None ∧ ticks (snd r) = S (ticks st)
     end) ∧
  (fst r = None →
     action_cooldowns (snd r) = action_cooldowns st ∧
     (ticks st ≤ ticks (snd r))%nat).
Proof.
  intros key r. subst r. unfold plan_issue. fold key.
  destruct (auto_recoverable issue) eqn:Hrec; simpl.
  2:{ split_and!; [split; [intros [e ?]; done | intros [? _]; done] | done | done]. }
  destruct (action_cooldowns st !! key) as [last|] eqn:Hlast; simpl.
  - destruct (Z.ltb_spec (clock (ticks st) - last)
                (timedelta_seconds (cooldown_period issue))) as [Hlt|Hge]; simpl.
    + split_and!; [split | done | intros _; split; [done | lia]].
      * intros [e ?]; done.
      * intros (_ & _ & [? | (l & [= <-] & Hl)]); [done | lia].
    + destruct (recovery_actions issue) as [[|a rest]|] eqn:Hact; simpl.
      * split_and!; [split | done | intros _; split; [done | lia]].
        -- intros [e ?]; done.
        -- intros (_ & (a & rest & ?) & _); done.
      * split_and!; [split | | done].
        -- intros _. split_and!; [done | by exists a, rest |].
           right. exists last. split; [done | lia].
        -- intros _. by exists {| adm_issue := issue; adm_action := a;
             adm_checked_at := Some (clock (ticks st));
             adm_time := clock (S (ticks st)) |}.
        -- intros e [= <-]. simpl.
           split_and!; try done; try lia; by rewrite ?Nat.sub_0_r.
      * split_and!; [split | done | intros _; split; [done | lia]].
        -- intros [e ?]; done.
        -- intros (_ & (a & rest & ?) & _); done.
  - destruct (recovery_actions issue) as [[|a rest]|] eqn:Hact; simpl.
    + split_and!; [split | done | done].
      * intros [e ?]; done.
      * intros (_ & (a & rest & ?) & _); done.
    + split_and!; [split | | done].
      * intros _. split_and!; [done | by exists a, rest | by left].
      * intros _. by exists {| adm_issue := issue; adm_action := a;
             adm_checked_at := None; adm_time := clock (ticks st) |}.
      * intros e [= <-]. simpl.
        split_and!; try done; try lia; by rewrite ?Nat.sub_0_r.
    + split_and!; [split | done | done].
      * intros [e ?]; done.
      * intros (_ & (a & rest & ?) & _); done.
Qed.

Hypothesis clock_mono : ∀ m n : nat, (m ≤ n)%nat → clock m ≤ clock n.

Lemma plan_step_inv acc issue :
  planner_inv clock acc → planner_inv clock (plan_step clock acc issue).
Proof.
  destruct acc as [log st]. intros (Hcov & Hclk & Hsep).
  unfold plan_step. simpl in *.
  destruct (plan_issue_spec issue st) as (_ & Hadm & Hskip).
  destruct (plan_issue clock issue st) as [[e|] st']; simpl in *.
  - destruct (Hadm e eq_refl) as (Hi & _ & Hled & Htk & Htime & Hchk).
    assert (∀ m, (ticks st ≤ m)%nat → clock (ticks st) ≤ clock m) as Hnow by auto.
    assert (clock (ticks st) ≤ adm_time e) as Hce.
    { rewrite Htime. apply clock_mono. lia. }
    split_and!; simpl.
    + intros e' He'. rewrite Hled.
      apply elem_of_app in He' as [He' | He'].
      * destruct (Hcov e' He') as (t & Ht & Hle).
        destruct (decide (cooldown_key issue = cooldown_key (adm_issue e'))) as [E|E].
        -- rewrite <- E, lookup_insert_eq. eexists; split; [done|].
           rewrite <- E in Ht. pose proof (Hclk _ _ (ticks st) Ht ltac:(lia)). lia.
        -- rewrite lookup_insert_ne by done. eauto.
      * apply list_elem_of_singleton in He' as ->. rewrite Hi, lookup_insert_eq.
        eexists; split; [done | lia].
    + intros k t m. rewrite Hled.
      destruct (decide (cooldown_key issue = k)) as [<-|E].
      * rewrite lookup_insert_eq. intros [= <-] Hm. rewrite Htime.
        apply clock_mono. lia.
      * rewrite lookup_insert_ne by done. intros Ht Hm. eapply Hclk; [done | lia].
    + intros i j e1 e2 Hij H1 H2 Hk.
      destruct (decide (j < length log)%nat) as [Hj|Hj].
      * rewrite lookup_app_l in H1, H2 by lia. exact (Hsep i j e1 e2 Hij H1 H2 Hk).
      * rewrite lookup_app_r in H2 by lia.
        apply list_lookup_singleton_Some in H2 as [Hjl <-].
        rewrite lookup_app_l in H1 by lia.
        destruct (Hcov e1) as (t & Ht & Hle); [by eapply list_elem_of_lookup_2|].
        rewrite Hk, Hi in Ht. rewrite Ht in Hchk.
        destruct Hchk as (Hc & Hwait & _). rewrite Hi.
        eexists; split; [done | lia].
  - destruct (Hskip eq_refl) as [Hled Htk]. split_and!; simpl.
    + intros e He. rewrite Hled. auto.
    + intros k t m. rewrite Hled. intros Ht Hm. eapply Hclk; [done | lia].
    + done.
Qed.

Lemma plan_loop_inv issues acc :
  planner_inv clock acc → planner_inv clock (fold_left (plan_step clock) issues acc).
Proof.
  revert acc. induction issues as [|i issues IH]; intros acc H; simpl; [done|].
  by apply IH, plan_step_inv.
Qed.

Lemma plan_loop_log issues log0 st :
  fold_left (plan_step clock) issues (log0, st) =
    (log0 ++ fst (fold_left (plan_step clock) issues ([], st)),
     snd (fold_left (plan_step clock) issues ([], st))).
Proof.
  revert log0 st. induction issues as [|i issues IH]; intros log0 st; simpl.
  - by rewrite app_nil_r.
  - unfold plan_step at 2 4 6. simpl.
    destruct (plan_issue clock i st) as [[e|] st']; simpl.
    + rewrite (IH (log0 ++ [e])), (IH [e]). simpl. by rewrite <- app_assoc.
    + apply IH.
Qed.

Lemma scan_step_unfold acc scan :
  scan_step clock acc scan =
    fold_left (plan_step clock) (Py.sorted_desc severity_ltb (snd scan))
      (fst acc, advance (fst scan) (snd acc)).
Proof.
  unfold scan_step, analyze_and_plan_recovery_traced.
  rewrite (plan_loop_log _ (fst acc)). by destruct (fold_left _ _ _).
Qed.

Lemma advance_inv n acc :
  planner_inv clock acc → planner_inv clock (fst acc, advance n (snd acc)).
Proof.
  intros (Hcov & Hclk & Hsep). split_and!; simpl; [done | | done].
  intros k t m Ht Hm. eapply Hclk; [done | lia].
Qed.

Lemma run_scans_inv scans acc :
  planner_inv clock acc → planner_inv clock (fold_left (scan_step clock) scans acc).
Proof.
  revert acc. induction scans as [|sc scans IH]; intros acc H; simpl; [done|].
  apply IH. rewrite scan_step_unfold. by apply plan_loop_inv, advance_inv.
Qed.

Lemma initial_inv n : planner_inv clock ([], initial_state n).
Proof.
  split_and!; simpl.
  - intros e He. by apply elem_of_nil in He.
  - intros k t m Ht. by rewrite lookup_empty in Ht.
  - intros i j e1 e2 _ H. by rewrite lookup_nil in H.
Qed.

End PlannerFacts.

(** C1, as the ledger works.  The ledger stores the time of the last
    admission of a key, and the check compares the time elapsed since
    then with the cooldown period of the issue being checked.  Hence, in
    any run of scans from the empty ledger and under a clock that does
    not run backwards: once an action for a key is admitted at time [t],
    a further issue of the same key with cooldown period [c'] is
    admitted only when it is checked at a time [>= t + c'].  (When every
    issue of a key carries the same period [c], this is the window
    [[t, t + c)].)  The check for one issue passes exactly when the key
    has no entry or the stored time plus the issue's period has been
    reached, and an admission stores the time of admission under the
    key. *)
Theorem C1_cooldown_of_later_issue
    (clock : nat → Z) (scans : list (nat * list SelfHealing.HealthIssue)) (n0 : nat)
    (clock_mono : ∀ m n : nat, (m ≤ n)%nat → clock m ≤ clock n) :
  SelfHealing.cooldown_separated
    (fst (SelfHealing.run_scans clock scans (SelfHealing.initial_state n0))) ∧
  ∀ issue st a rest,
    SelfHealing.auto_recoverable issue = true →
    SelfHealing.recovery_actions issue = Some (a :: rest) →
    let key := SelfHealing.cooldown_key issue in
    let ledger := SelfHealing.action_cooldowns st in
    let r := SelfHealing.plan_issue clock issue st in
    ((∃ e, fst r = Some e) ↔
       (ledger !! key = None ∨
        ∃ last, ledger !! key = Some last ∧
          last + SelfHealing.timedelta_seconds (SelfHealing.cooldown_period issue)
            ≤ clock (SelfHealing.ticks st))) ∧
    (∀ e, fst r = Some e →
       SelfHealing.adm_issue e = issue ∧ SelfHealing.adm_action e = a ∧
       SelfHealing.action_cooldowns (snd r) = <[key := SelfHealing.adm_time e]> ledger) ∧
    (fst r = None → SelfHealing.action_cooldowns (snd r) = ledger).
Proof.
  split.
  - apply (run_scans_inv clock clock_mono scans _ (initial_inv clock n0)).
  - intros issue st a rest Hrec Hact key ledger r.
    destruct (plan_issue_spec clock issue st) as (Hiff & Hadm & Hskip).
    fold key in Hiff, Hadm. fold r in Hiff, Hadm, Hskip. split_and!.
    + rewrite Hiff. split; [tauto|]. intros H. split_and!; [done | by eauto | done].
    + intros e He. destruct (Hadm e He) as (Hi & Ha & Hled & _).
      split_and!; [done | | done]. rewrite Hact in Ha. simpl in Ha. congruence.
    + intros Hn. by apply Hskip.
Qed.

Lemma C1_cooldown_of_later_issue_witness :
  SelfHealing.cooldown_separated
    (fst (SelfHealing.run_scans SelfHealing.sample_clock
            [(0%nat, [SelfHealing.slow_issue]); (0%nat, [SelfHealing.quick_issue])]
            (SelfHealing.initial_state 0))).
Proof.
  apply (C1_cooldown_of_later_issue SelfHealing.sample_clock _ 0).
  intros [|m] [|n] H; simpl; lia.
Defined.

(** C1 as stated fails when two issues of one key carry different
    cooldown periods: an action admitted at 0 s for an issue with a 600 s
    period is followed, 20 s later, by an admitted action for an issue
    of the same key with a 10 s period. *)
Lemma C1_short_cooldown_counterexample :
  ∃ e1 e2,
    fst (SelfHealing.run_scans SelfHealing.sample_clock
           [(0%nat, [SelfHealing.slow_issue]); (0%nat, [SelfHealing.quick_issue])]
           (SelfHealing.initial_state 0)) = [e1; e2] ∧
    SelfHealing.adm_issue e1 = SelfHealing.slow_issue ∧
    SelfHealing.adm_issue e2 = SelfHealing.quick_issue ∧
    SelfHealing.cooldown_key (SelfHealing.adm_issue e1) =
      SelfHealing.cooldown_key (SelfHealing.adm_issue e2) ∧
    SelfHealing.adm_time e1 = 0 ∧
    SelfHealing.adm_checked_at e2 = Some 20000000 ∧
    SelfHealing.adm_time e2 = 20000000 ∧
    SelfHealing.adm_time e1 ≤ 20000000 <
      SelfHealing.adm_time e1 +
      SelfHealing.timedelta_seconds
        (SelfHealing.cooldown_period (SelfHealing.adm_issue e1)) ∧
    fst (SelfHealing.analyze_and_plan_recovery SelfHealing.sample_clock
           [SelfHealing.quick_issue]
           (snd (SelfHealing.analyze_and_plan_recovery SelfHealing.sample_clock
                   [SelfHealing.slow_issue] (SelfHealing.initial_state 0))))
      = [(SelfHealing.quick_issue, SelfHealing.SCALE_UP)].
Proof.
  eexists _, _. split; [vm_compute; reflexivity|].
  split_and!; try reflexivity; try (vm_compute; done).
Qed.

(** ** Self-healing: issues that are not auto-recoverable *)

Section NotRecoverable.
Import SelfHealing.
Variable clock : nat → Z.

Lemma severity_ltb_asym a b : severity_ltb a b = true → severity_ltb b a = false.
Proof. unfold severity_ltb. rewrite Z.ltb_lt, Z.ltb_ge. lia. Qed.

Lemma severity_ltb_negtrans a b c :
  severity_ltb a b = false → severity_ltb b c = false → severity_ltb a c = false.
Proof. unfold severity_ltb. rewrite !Z.ltb_ge. lia. Qed.

Lemma plan_step_not_recoverable acc issue :
  auto_recoverable issue ≠ true → plan_step clock acc issue = acc.
Proof.
  intros H. unfold plan_step.
  rewrite plan_issue_not_recoverable by (by destruct (auto_recoverable issue)).
  by destruct acc.
Qed.

Lemma plan_loop_filter issues acc :
  fold_left (plan_step clock) (filter (λ i, auto_recoverable i = true) issues) acc =
  fold_left (plan_step clock) issues acc.
Proof.
  revert acc. induction issues as [|i issues IH]; intros acc; [done|].
  rewrite filter_cons. destruct (decide (auto_recoverable i = true)) as [Hi|Hi]; simpl.
  - apply IH.
  - by rewrite IH, plan_step_not_recoverable.
Qed.

Lemma plan_loop_entries issues acc e :
  e ∈ fst (fold_left (plan_step clock) issues acc) →
  e ∈ fst acc ∨ (adm_issue e ∈ issues ∧ auto_recoverable (adm_issue e) = true).
Proof.
  revert acc. induction issues as [|i issues IH]; intros acc He; simpl in *; [by left|].
  destruct (IH _ He) as [Hacc | [Hin Hrec]].
  - unfold plan_step in Hacc.
    destruct (plan_issue_spec clock i (snd acc)) as (Hiff & Hadm & _).
    destruct (plan_issue clock i (snd acc)) as [[e'|] st']; simpl in *; [|by left].
    apply elem_of_app in Hacc as [Hacc | Hacc]; [by left|].
    apply list_elem_of_singleton in Hacc as ->. right.
    destruct (Hadm e' eq_refl) as (-> & _).
    split; [left | apply Hiff; eauto].
  - right. split; [by right | done].
Qed.

Lemma filter_recoverable_nil (l : list HealthIssue) :
  (∀ issue, issue ∈ l → auto_recoverable issue = false) →
  filter (λ i, auto_recoverable i = true) l = [].
Proof.
  induction l as [|i l IH]; intros Hnone; [done|].
  rewrite filter_cons, decide_False.
  - apply IH. intros issue Hi. apply Hnone. by right.
  - rewrite (Hnone i) by left. done.
Qed.

End NotRecoverable.

Section NotRecoverableClaim.
Import SelfHealing.

(** C2.  Only issues of the scan that are auto-recoverable appear in the
    recovery plan.  The others have no effect at all: the plan and the
    resulting planner state (the cooldown ledger included) are those
    obtained from the scan with these issues removed; when no issue of
    the scan is auto-recoverable the plan is empty and the state is
    unchanged. *)
Theorem C2_non_recoverable_never_planned
    (clock : nat → Z) (health_issues : list HealthIssue) (st : PlannerState) :
  (∀ issue action,
     (issue, action) ∈ fst (analyze_and_plan_recovery clock health_issues st) →
     issue ∈ health_issues ∧ auto_recoverable issue = true) ∧
  analyze_and_plan_recovery clock health_issues st =
    analyze_and_plan_recovery clock
      (filter (λ i, auto_recoverable i = true) health_issues) st ∧
  ((∀ issue, issue ∈ health_issues → auto_recoverable issue = false) →
     analyze_and_plan_recovery clock health_issues st = ([], st)).
Proof.
  assert (Heq : analyze_and_plan_recovery clock health_issues st =
    analyze_and_plan_recovery clock
      (filter (λ i, auto_recoverable i = true) health_issues) st).
  { unfold analyze_and_plan_recovery, analyze_and_plan_recovery_traced.
    rewrite <- (sorted_desc_filter_comm severity_ltb severity_ltb_asym
                  severity_ltb_negtrans).
    by rewrite plan_loop_filter. }
  split_and!; [| done |].
  - intros issue action Hin.
    unfold analyze_and_plan_recovery, analyze_and_plan_recovery_traced in Hin.
    destruct (fold_left _ _ _) as [log st'] eqn:Hrun. simpl in Hin.
    apply list_elem_of_fmap in Hin as (e & [= -> ->] & He).
    pose proof (plan_loop_entries clock (Py.sorted_desc severity_ltb health_issues)
                  ([], st) e) as H.
    rewrite Hrun in H. destruct (H He) as [Hnil | [Hin Hrec]].
    + by apply elem_of_nil in Hnil.
    + split; [|done]. by rewrite (sorted_desc_perm severity_ltb) in Hin.
  - intros Hnone. by rewrite Heq, filter_recoverable_nil.
Qed.

Lemma C2_non_recoverable_never_planned_witness :
  analyze_and_plan_recovery sample_clock [offline_issue] (initial_state 0)
    = ([], initial_state 0).
Proof.
  apply (C2_non_recoverable_never_planned sample_clock [offline_issue] (initial_state 0)).
  intros issue Hi. apply list_elem_of_singleton in Hi as ->. reflexivity.
Defined.

End NotRecoverableClaim.

(** ** Self-healing: the metrics parser *)

Section StringFacts.

Lemma rsplit1_None (c : ascii) (s : string) :
  Py.contains_char c s = false → Py.rsplit1 c s = None.
Proof.
  induction s as [|a s IH]; simpl; [done|].
  destruct (decide (a = c)); [done|]. intros H. by rewrite IH.
Qed.

Lemma rsplit1_app (c : ascii) (name value : string) :
  Py.contains_char c value = false →
  Py.rsplit1 c (name +:+ String c value) = Some (name, value).
Proof.
  intros Hv. induction name as [|a name IH]; simpl.
  - rewrite rsplit1_None by done. by rewrite decide_True.
  - by rewrite IH.
Qed.

Lemma rsplit1_Some (c : ascii) (s h t : string) :
  Py.rsplit1 c s = Some (h, t) →
  s = h +:+ String c t ∧ Py.contains_char c t = false.
Proof.
  revert h. induction s as [|a s IH]; intros h; simpl; [done|].
  destruct (Py.rsplit1 c s) as [[h' t']|] eqn:Hr.
  - intros [= <- <-]. destruct (IH h' eq_refl) as [-> Ht]. done.
  - destruct (decide (a = c)) as [->|]; [|done]. intros [= <- <-].
    split; [done|].
    destruct (Py.contains_char c s) eqn:Hc; [|done].
    clear IH. exfalso. induction s as [|b s IH]; simpl in *; [done|].
    destruct (Py.rsplit1 c s) as [[? ?]|]; [done|].
    destruct (decide (b = c)); [done | auto].
Qed.

Lemma contains_char_app (c : ascii) (name value : string) :
  Py.contains_char c (name +:+ String c value) = true.
Proof.
  induction name as [|a name IH]; simpl.
  - by rewrite decide_True.
  - by destruct (decide (a = c)).
Qed.

End StringFacts.

Section MetricsParserFacts.
Import SelfHealing.
Context {F : Type} (py_float : string → option F).

Lemma parse_line_body_raises prefix (m : gmap string F) line :
  (∃ m', parse_line_body py_float prefix m line = Py.Ok m') ∨
  (∃ msg, parse_line_body py_float prefix m line = Py.Raise (Py.ValueError msg)).
Proof.
  unfold parse_line_body, float.
  destruct (Py.contains_char " " line); [|by eauto].
  destruct (Py.rsplit1 " " line) as [[name value]|]; [|by eauto].
  destruct (py_float value); simpl;
    repeat (match goal with |- context [if ?b then _ else _] => destruct b end);
    simpl; eauto.
Qed.

Lemma parse_line_total prefix (m : gmap string F) line :
  ∃ m', parse_line py_float prefix m line = Py.Ok m'.
Proof.
  unfold parse_line. destruct (_ || _); [by eauto|].
  destruct (parse_line_body_raises prefix m line) as [[m' ->] | [msg ->]];
    simpl; eauto.
Qed.

Lemma parse_lines_total prefix (m : gmap string F) lines :
  ∃ m', parse_lines py_float prefix m lines = Py.Ok m'.
Proof.
  revert m. induction lines as [|line lines IH]; intros m; simpl; [by eauto|].
  destruct (parse_line_total prefix m line) as [m' ->]. simpl. apply IH.
Qed.

Lemma parse_line_skips prefix (m : gmap string F) line :
  Py.startswith line "#" = true ∨ Py.is_blank line = true →
  parse_line py_float prefix m line = Py.Ok m.
Proof.
  intros H. unfold parse_line.
  destruct H as [-> | ->]; [done | by rewrite orb_true_r].
Qed.

Lemma parse_line_metric (m : gmap string F) line name value v :
  is_metric_line py_float line name value v →
  parse_line py_float "" m line = Py.Ok (<[Py.before_char "{" name := v]> m).
Proof.
  intros (-> & Hc & Hb & Hv & Hf). unfold parse_line. rewrite Hc, Hb. simpl.
  unfold parse_line_body.
  change (name +:+ " " +:+ value) with (name +:+ String " " value).
  rewrite contains_char_app, rsplit1_app by done. simpl.
  unfold float. by rewrite Hf.
Qed.

(** What a line can do to the map, without a prefix. *)
Lemma parse_line_cases (m m' : gmap string F) line :
  parse_line py_float "" m line = Py.Ok m' →
  m' = m ∨ ∃ name value v,
    is_metric_line py_float line name value v ∧
    m' = <[Py.before_char "{" name := v]> m.
Proof.
  unfold parse_line.
  destruct (Py.startswith line "#") eqn:Hc; simpl; [intros [= <-]; by left|].
  destruct (Py.is_blank line) eqn:Hb; simpl; [intros [= <-]; by left|].
  unfold parse_line_body.
  destruct (Py.contains_char " " line); [|intros [= <-]; by left].
  destruct (Py.rsplit1 " " line) as [[name value]|] eqn:Hr; simpl;
    [|intros [= <-]; by left].
  apply rsplit1_Some in Hr as [Hl Hv].
  unfold float. destruct (py_float value) as [v|] eqn:Hf; simpl;
    [|intros [= <-]; by left].
  intros [= <-]. right. exists name, value, v. by repeat split.
Qed.

Lemma parse_line_keeps (m m' : gmap string F) line k :
  parse_line py_float "" m line = Py.Ok m' → is_Some (m !! k) → is_Some (m' !! k).
Proof.
  intros H Hk. destruct (parse_line_cases _ _ _ H) as [-> | (n & val & v & _ & ->)];
    [done|].
  destruct (decide (Py.before_char "{" n = k)) as [<-|Hne].
  - rewrite lookup_insert_eq. by eexists.
  - by rewrite lookup_insert_ne.
Qed.

Lemma parse_lines_keeps (m m' : gmap string F) lines k :
  parse_lines py_float "" m lines = Py.Ok m' → is_Some (m !! k) → is_Some (m' !! k).
Proof.
  revert m. induction lines as [|line lines IH]; intros m; simpl.
  - by intros [= <-].
  - destruct (parse_line_total "" m line) as [m1 Hm1]. rewrite Hm1. simpl.
    intros H Hk. eapply IH; [done|]. by eapply parse_line_keeps.
Qed.

Lemma parse_lines_untouched (m m' : gmap string F) lines k :
  (∀ l, l ∈ lines → ∀ m0 m1 : gmap string F,
     parse_line py_float "" m0 l = Py.Ok m1 → m1 !! k = m0 !! k) →
  parse_lines py_float "" m lines = Py.Ok m' → m' !! k = m !! k.
Proof.
  revert m. induction lines as [|line lines IH]; intros m Hun; simpl.
  - by intros [= <-].
  - destruct (parse_line_total "" m line) as [m1 Hm1]. rewrite Hm1. simpl.
    intros H. rewrite (IH m1); [| intros l Hl; apply Hun; by right | done].
    eapply Hun; [left | done].
Qed.

Lemma parse_lines_app prefix (m : gmap string F) l1 l2 :
  parse_lines py_float prefix m (l1 ++ l2) =
    Py.bind (parse_lines py_float prefix m l1)
            (λ m1, parse_lines py_float prefix m1 l2).
Proof.
  revert m. induction l1 as [|line l1 IH]; intros m; simpl; [done|].
  destruct (parse_line py_float prefix m line); simpl; [apply IH | done].
Qed.

Lemma parse_lines_sources (m m' : gmap string F) lines k v :
  parse_lines py_float "" m lines = Py.Ok m' → m' !! k = Some v →
  m !! k = Some v ∨
  ∃ line name value, line ∈ lines ∧ is_metric_line py_float line name value v ∧
    k = Py.before_char "{" name.
Proof.
  revert m. induction lines as [|line lines IH]; intros m; simpl.
  - intros [= <-]. by left.
  - destruct (parse_line_total "" m line) as [m1 Hm1]. rewrite Hm1. simpl.
    intros H Hk. destruct (IH m1 H Hk) as [Hm | (l & n & val & Hl & Hml & ->)].
    + destruct (parse_line_cases _ _ _ Hm1) as [-> | (n & val & v' & Hml & ->)];
        [by left|].
      destruct (decide (Py.before_char "{" n = k)) as [<-|Hne].
      * rewrite lookup_insert_eq in Hm. injection Hm as ->.
        right. exists line, n, val. split_and!; [left | done | done].
      * rewrite lookup_insert_ne in Hm by done. by left.
    + right. exists l, n, val. split_and!; [by right | done | done].
Qed.

End MetricsParserFacts.

Section MetricsParserClaim.
Import SelfHealing.

(** C8.  On every input text the parser returns a map and no line makes
    it fail (with or without a prefix).  A line that starts with [#] or
    is blank leaves the map as it is.  A line ["name value"] whose last
    token parses as a float sets the entry for the metric name cut at
    its first [{] to that float; the key is then in the returned map,
    with that value unless a later line sets the key again.  Every entry
    of the returned map comes from such a line. *)
Theorem C8_metrics_parser {F : Type} (py_float : string → option F)
    (metrics_text : string) :
  ∃ metrics : gmap string F,
    parse_prometheus_metrics py_float metrics_text "" = Py.Ok metrics ∧
    (∀ prefix, ∃ m, parse_prometheus_metrics py_float metrics_text prefix = Py.Ok m) ∧
    (∀ prefix line (m : gmap string F),
       ∃ m', parse_line py_float prefix m line = Py.Ok m') ∧
    (∀ line (m : gmap string F),
       Py.startswith line "#" = true ∨ Py.is_blank line = true →
       parse_line py_float "" m line = Py.Ok m) ∧
    (∀ line name value v (m : gmap string F),
       is_metric_line py_float line name value v →
       parse_line py_float "" m line = Py.Ok (<[Py.before_char "{" name := v]> m)) ∧
    (∀ l1 line l2 name value v,
       Py.split_char "010" metrics_text = l1 ++ line :: l2 →
       is_metric_line py_float line name value v →
       is_Some (metrics !! Py.before_char "{" name) ∧
       ((∀ l, l ∈ l2 → ∀ m0 m1 : gmap string F,
           parse_line py_float "" m0 l = Py.Ok m1 →
           m1 !! Py.before_char "{" name = m0 !! Py.before_char "{" name) →
        metrics !! Py.before_char "{" name = Some v)) ∧
    (∀ k v, metrics !! k = Some v →
       ∃ line name value,
         line ∈ Py.split_char "010" metrics_text ∧
         is_metric_line py_float line name value v ∧
         k = Py.before_char "{" name).
Proof.
  unfold parse_prometheus_metrics.
  destruct (parse_lines_total py_float "" ∅ (Py.split_char "010" metrics_text))
    as [metrics Hm].
  exists metrics. split_and!; [done | | | | | |].
  - intros prefix. apply parse_lines_total.
  - intros prefix line m. apply parse_line_total.
  - intros line m. apply parse_line_skips.
  - intros line name value v m. apply parse_line_metric.
  - intros l1 line l2 name value v Hsplit Hline.
    rewrite Hsplit, parse_lines_app in Hm.
    destruct (parse_lines_total py_float "" ∅ l1) as [m1 Hm1].
    rewrite Hm1 in Hm. simpl in Hm.
    rewrite (parse_line_metric py_float m1 _ _ _ _ Hline) in Hm. simpl in Hm.
    split.
    + eapply parse_lines_keeps; [done|]. rewrite lookup_insert_eq. by eexists.
    + intros Hun. rewrite (parse_lines_untouched py_float _ _ _ _ Hun Hm).
      by rewrite lookup_insert_eq.
  - intros k v Hk.
    destruct (parse_lines_sources py_float _ _ _ _ _ Hm Hk) as [H|H]; [|done].
    by rewrite lookup_empty in H.
Qed.

Lemma C8_metrics_parser_witness :
  ∃ metrics : gmap string Q,
    parse_prometheus_metrics sample_float sample_scrape "" = Py.Ok metrics ∧
    metrics !! "requests_total" = Some (inject_Z 42) ∧
    metrics !! "up" = Some (inject_Z 1).
Proof.
  destruct (C8_metrics_parser sample_float sample_scrape)
    as (metrics & Hm & _ & _ & _ & _ & Hline & _).
  exists metrics. split_and!; [done | |].
  - apply (Hline ["# HELP requests_total Total requests"]
             "requests_total{code=200} 42" [""; "up 1"]
             "requests_total{code=200}" "42" (inject_Z 42)).
    + reflexivity.
    + by repeat split.
    + intros l Hl m0 m1.
      apply elem_of_cons in Hl as [-> | Hl].
      * cbn. by intros [= <-].
      * apply list_elem_of_singleton in Hl as ->. cbn. intros [= <-].
        by rewrite lookup_insert_ne.
  - apply (Hline ["# HELP requests_total Total requests";
                  "requests_total{code=200} 42"; ""]
             "up 1" [] "up" "1" (inject_Z 1)).
    + reflexivity.
    + by repeat split.
    + intros l Hl. by apply elem_of_nil in Hl.
Defined.

End MetricsParserClaim.

(** ** Self-healing: scaling *)

Section Scaling.
Import SelfHealing.

Lemma read_deployment_spec name w :
  read_namespaced_deployment name w =
    match deployments w !! name with
    | Some d => (Py.Ok d, w)
    | None => (Py.Raise (Py.ApiException "(404) Not Found"), w)
    end.
Proof. reflexivity. Qed.

Lemma patch_replicas_count name n w d other :
  deployments w !! name = Some d →
  replica_count (set_deployments w (<[name := body_replicas n d]> (deployments w))) other =
    if decide (other = name) then Some n else replica_count w other.
Proof.
  intros Hd. unfold replica_count. simpl.
  destruct (decide (other = name)) as [->|Hne].
  - by rewrite lookup_insert_eq.
  - by rewrite lookup_insert_ne.
Qed.

(** Reactive scaling of one deployment. *)
Lemma scale_deployment_spec component scale_up w :
  let name := deployment_name_of component in
  let w' := snd (scale_deployment component scale_up w) in
  (∃ ok msg, fst (scale_deployment component scale_up w) = Py.Ok (ok, msg) ∧
     (ok = true ↔ is_Some (replica_count w name))) ∧
  ∀ other,
    replica_count w' other =
      if decide (other = name) then reactive_target scale_up <$> replica_count w name
      else replica_count w other.
Proof.
  intros name w'. subst w'. unfold scale_deployment, Py.try_catch, Py.bindM.
  fold name. rewrite read_deployment_spec. unfold replica_count at 1 3.
  destruct (deployments w !! name) as [d|] eqn:Hd; simpl.
  - fold (reactive_target scale_up (replicas d)).
    destruct (Z.eqb_spec (reactive_target scale_up (replicas d)) (replicas d)) as [He|Hne];
      simpl.
    + split; [eexists _, _; split; [done | split; [by eauto | done]] |].
      intros other. destruct (decide (other = name)) as [->|]; [|done].
      unfold replica_count. rewrite Hd. simpl. by rewrite He.
    + unfold patch_namespaced_deployment. rewrite Hd. simpl.
      split; [eexists _, _; split; [done | split; [by eauto | done]] |].
      intros other. by rewrite (patch_replicas_count _ _ _ _ _ Hd).
  - split; [eexists _, _; split; [done | split; [done | by intros [? ?]]] |].
    intros other. destruct (decide (other = name)) as [->|]; [|done].
    unfold replica_count. by rewrite Hd.
Qed.

(** One pass of the proactive loops. *)
Lemma proactive_one_spec (up : bool) name w :
  let step := if up then proactive_scale_up_one else proactive_scale_down_one in
  let target := if up then proactive_up_target else proactive_down_target in
  (fst (step name w) = Py.Ok () ↔ is_Some (replica_count w name)) ∧
  ∀ other,
    replica_count (snd (step name w)) other =
      if decide (other = name) then target <$> replica_count w name
      else replica_count w other.
Proof.
  destruct up; simpl;
    unfold proactive_scale_up_one, proactive_scale_down_one, Py.bindM;
    rewrite read_deployment_spec; unfold replica_count at 1 3;
    unfold proactive_up_target, proactive_down_target;
    (destruct (deployments w !! name) as [d|] eqn:Hd; simpl;
     [| split; [split; [done | by intros [? ?]] |];
        intros other; destruct (decide (other = name)) as [->|]; [|done];
        unfold replica_count; by rewrite Hd]).
  - destruct (replicas d <? 5) eqn:Hlt; simpl.
    + unfold patch_namespaced_deployment. rewrite Hd. simpl.
      split; [split; [by eauto | done] |].
      intros other. by rewrite (patch_replicas_count _ _ _ _ _ Hd).
    + split; [split; [by eauto | done] |].
      intros other. destruct (decide (other = name)) as [->|]; [|done].
      unfold replica_count. by rewrite Hd.
  - destruct (2 <? replicas d) eqn:Hlt; simpl.
    + unfold patch_namespaced_deployment. rewrite Hd. simpl.
      split; [split; [by eauto | done] |].
      intros other. by rewrite (patch_replicas_count _ _ _ _ _ Hd).
    + split; [split; [by eauto | done] |].
      intros other. destruct (decide (other = name)) as [->|]; [|done].
      unfold replica_count. by rewrite Hd.
Qed.

(** The proactive loops over the two deployments: the second is reached
    only when reading the first did not raise. *)
Lemma proactive_spec (up : bool) w :
  let run := if up then proactive_scale_up else proactive_scale_down in
  let target := if up then proactive_up_target else proactive_down_target in
  fst (run w) = Py.Ok () ∧
  ∀ name,
    replica_count (snd (run w)) name =
      if decide (name = "hankook-api") then target <$> replica_count w name
      else if decide (name = "hankook-frontend") then
        (if replica_count w "hankook-api" is Some _
         then target <$> replica_count w name
         else replica_count w name)
      else replica_count w name.
Proof.
  intros run target.
  set (step := if up then proactive_scale_up_one else proactive_scale_down_one).
  assert (Hrun : run w = Py.try_catch (Py.bindM (step "hankook-api")
            (λ _, Py.bindM (step "hankook-frontend") (λ _, Py.ret ())))
            (λ e, Py.ret ()) w) by (by destruct up).
  rewrite Hrun. clear Hrun. unfold Py.try_catch, Py.bindM, Py.ret.
  destruct (proactive_one_spec up "hankook-api" w) as [Hok1 Hcnt1].
  fold step target in Hok1, Hcnt1.
  destruct (step "hankook-api" w) as [r1 w1]. simpl in *.
  destruct r1 as [[]|e1].
  - destruct (proactive_one_spec up "hankook-frontend" w1) as [Hok2 Hcnt2].
    fold step target in Hok2, Hcnt2.
    destruct (step "hankook-frontend" w1) as [r2 w2]. simpl in *.
    assert (is_Some (replica_count w "hankook-api")) as [c Hc] by by apply Hok1.
    assert (∀ name, replica_count w2 name =
      if decide (name = "hankook-api") then target <$> replica_count w name
      else if decide (name = "hankook-frontend") then target <$> replica_count w name
      else replica_count w name) as Hcnt.
    { intros name. rewrite Hcnt2, Hcnt1.
      repeat case_decide; simplify_eq; rewrite ?Hcnt1;
        repeat case_decide; simplify_eq; done. }
    rewrite Hc. destruct r2 as [[]|e2]; simpl; (split; [done | exact Hcnt]).
  - split; [done|]. intros name. rewrite Hcnt1.
    assert (replica_count w "hankook-api" = None) as Hn.
    { destruct (replica_count w "hankook-api") eqn:E; [|done].
      assert (Py.Raise e1 = Py.Ok ()) by (apply Hok1; by eauto). done. }
    rewrite Hn. destruct (decide (name = "hankook-api")) as [->|]; [by rewrite Hn|].
    by destruct (decide (name = "hankook-frontend")).
Qed.

Lemma proactive_change (up : bool) w name current :
  let run := if up then proactive_scale_up else proactive_scale_down in
  let target := if up then proactive_up_target else proactive_down_target in
  replica_count w name = Some current →
  ∃ new,
    replica_count (snd (run w)) name = Some new ∧
    (new = current ∨ (new = target current ∧ name ∈ proactive_deployments)) ∧
    (is_Some (replica_count w "hankook-api") → name ∈ proactive_deployments →
     new = target current).
Proof.
  intros run target Hc.
  destruct (proactive_spec up w) as [_ H]. fold run target in H. rewrite H. clear H.
  assert (name ∈ proactive_deployments ↔
          name = "hankook-api" ∨ name = "hankook-frontend") as Hin.
  { unfold proactive_deployments. rewrite !elem_of_cons, elem_of_nil. tauto. }
  destruct (decide (name = "hankook-api")) as [->|Ha].
  - rewrite Hc. simpl. eexists; split; [done|]. split; [right | done].
    split; [done | apply Hin; by left].
  - destruct (decide (name = "hankook-frontend")) as [->|Hf].
    + destruct (replica_count w "hankook-api") as [c|] eqn:Hapi.
      * rewrite Hc. simpl. eexists; split; [done|]. split; [right | done].
        split; [done | apply Hin; by right].
      * rewrite Hc. eexists; split; [done|]. split; [by left | by intros [? ?]].
    + rewrite Hc. eexists; split; [done|]. split; [by left|].
      intros _ Hn. apply Hin in Hn. tauto.
Qed.

(** C7, as the code scales.  A scaling action changes no deployment but
    its target.  Reactive scaling sets the target to
    [min(current + 1, 10)] or [max(current - 1, 1)]; proactive scaling
    adds one replica below 5 and removes one above 2.  So, for a target
    whose replica count lies within the bounds of the action (1 to 10
    for reactive, 2 to 5 for proactive scaling; the bounds are
    constants of the code), the count changes by exactly +1 or -1 and
    stays within the bounds, and at the relevant bound it is left
    unchanged. *)
Theorem C7_scaling_within_bounds (w : World) :
  (∀ component scale_up other,
     replica_count (snd (scale_deployment component scale_up w)) other =
       if decide (other = deployment_name_of component)
       then reactive_target scale_up <$> replica_count w other
       else replica_count w other) ∧
  (∀ component scale_up current,
     replica_count w (deployment_name_of component) = Some current →
     1 ≤ current ≤ 10 →
     ∃ new,
       replica_count (snd (scale_deployment component scale_up w))
         (deployment_name_of component) = Some new ∧
       1 ≤ new ≤ 10 ∧
       (if scale_up
        then (current < 10 ∧ new = current + 1) ∨ (current = 10 ∧ new = current)
        else (1 < current ∧ new = current - 1) ∨ (current = 1 ∧ new = current))) ∧
  (∀ name current,
     replica_count w name = Some current →
     ∃ new,
       replica_count (snd (proactive_scale_up w)) name = Some new ∧
       (new = current ∨
        (new = current + 1 ∧ current < 5 ∧ name ∈ proactive_deployments)) ∧
       (is_Some (replica_count w "hankook-api") → name ∈ proactive_deployments →
        current < 5 → new = current + 1) ∧
       (5 ≤ current → new = current) ∧
       (2 ≤ current ≤ 5 → 2 ≤ new ≤ 5)) ∧
  (∀ name current,
     replica_count w name = Some current →
     ∃ new,
       replica_count (snd (proactive_scale_down w)) name = Some new ∧
       (new = current ∨
        (new = current - 1 ∧ 2 < current ∧ name ∈ proactive_deployments)) ∧
       (is_Some (replica_count w "hankook-api") → name ∈ proactive_deployments →
        2 < current → new = current - 1) ∧
       (current ≤ 2 → new = current) ∧
       (2 ≤ current ≤ 5 → 2 ≤ new ≤ 5)).
Proof.
  split_and!.
  - intros component scale_up other.
    destruct (scale_deployment_spec component scale_up w) as [_ H].
    rewrite H. by destruct (decide _) as [->|].
  - intros component scale_up current Hc Hb.
    destruct (scale_deployment_spec component scale_up w) as [_ H].
    rewrite H, decide_True, Hc by done. simpl.
    eexists; split; [done|]. unfold reactive_target. destruct scale_up; lia.
  - intros name current Hc.
    destruct (proactive_change true w name current Hc) as (new & Hn & Hor & Hex).
    simpl in *. exists new. split; [done|].
    unfold proactive_up_target in *.
    destruct (Z.ltb_spec current 5); split_and!; try tauto; try lia.
    all: intros; rewrite Hex by done; lia.
  - intros name current Hc.
    destruct (proactive_change false w name current Hc) as (new & Hn & Hor & Hex).
    simpl in *. exists new. split; [done|].
    unfold proactive_down_target in *.
    destruct (Z.ltb_spec 2 current); split_and!; try tauto; try lia.
    all: intros; rewrite Hex by done; lia.
Qed.

Lemma C7_scaling_within_bounds_witness :
  ∃ new,
    replica_count (snd (scale_deployment "frontend" true sample_world))
      (deployment_name_of "frontend") = Some new ∧
    1 ≤ new ≤ 10 ∧
    ((2 < 10 ∧ new = 2 + 1) ∨ (2 = 10 ∧ new = 2)).
Proof.
  destruct (C7_scaling_within_bounds sample_world) as (_ & H & _).
  apply (H "frontend" true 2); [vm_compute; reflexivity | lia].
Defined.

(** C7 as stated fails for a deployment that runs beyond the upper
    bound: with 12 replicas a reactive scale-up sets 10, a change of -2;
    and a proactive scale-down sets 11, which is above its maximum 5. *)
Lemma C7_clamp_counterexample :
  deployment_name_of "api-server" = "hankook-api" ∧
  replica_count sample_world "hankook-api" = Some 12 ∧
  fst (scale_deployment "api-server" true sample_world) =
    Py.Ok (true, "스케일 업 성공: hankook-api (12 → 10)") ∧
  replica_count (snd (scale_deployment "api-server" true sample_world))
    "hankook-api" = Some 10 ∧
  replica_count (snd (proactive_scale_down sample_world)) "hankook-api" = Some 11.
Proof. split_and!; vm_compute; reflexivity. Qed.

End Scaling.

(** ** Self-healing: executing one recovery action *)

Section ExecuteFacts.
Import SelfHealing.

Lemma nonempty_prefix (a : ascii) (p s : string) : String a p +:+ s ≠ "".
Proof. done. Qed.

Lemma execute_spec {W : Type} {ops : RecoveryOps W}
    (start_time end_time : Q) (now : Z) issue action (w : W) :
  ∃ r,
    execute_recovery_action start_time end_time now issue action w =
      (Py.Ok r, snd (dispatch issue action w)) ∧
    rr_action r = action ∧ target r = component issue ∧
    duration r = (end_time - start_time)%Q ∧ rr_timestamp r = now ∧
    match fst (dispatch issue action w) with
    | Py.Ok (s, m) => success r = s ∧ message r = m
    | Py.Raise e =>
        success r = false ∧
        message r = "복구 액션 실행 중 오류: " +:+ Py.exn_str e
    end.
Proof.
  unfold execute_recovery_action, Py.try_catch, Py.bindM, Py.ret.
  destruct (dispatch issue action w) as [[[s m]|e] w']; simpl;
    eexists; split_and!; done.
Qed.






End ExecuteFacts.

(** ** Backend: normalizers and preprocessing *)

Section Preprocessing.
Import Backend.
Local Open Scope Q_scope.

Lemma clamp_props (lo hi : Q) :
  lo < hi → clamps_to (λ v, Py.max lo (py_min hi v)) lo hi.
Proof.
  intros Hb v w. unfold Py.max, py_min.
  split; [|split; [|split]].
  - repeat case_innermost; split; lra.
  - intros Hv. repeat case_innermost; lra.
  - repeat case_innermost; try reflexivity; exfalso; lra.
  - intros Hvw. repeat case_innermost; lra.
Qed.

Lemma all_normalizers_clamp :
  clamps_to normalize_temperature (-40) 85 ∧
  clamps_to normalize_humidity 0 100 ∧
  clamps_to normalize_pressure 800 1200 ∧
  clamps_to normalize_acceleration 0 5.
Proof. split_and!; apply clamp_props; reflexivity. Qed.

(** X1.  The four normalizers clamp to the bounds of their docstrings: the
    result lies within the bounds, a value within the bounds is
    returned as it is, normalizing twice equals normalizing once, and
    the order of two values is never reversed. *)
Theorem normalizers_clamp :
  clamps_to normalize_temperature (-40) 85 ∧
  clamps_to normalize_humidity 0 100 ∧
  clamps_to normalize_pressure 800 1200 ∧
  clamps_to normalize_acceleration 0 5.
Proof. exact all_normalizers_clamp. Qed.

Lemma normalizers_clamp_witness :
  normalize_pressure 1013 == 1013.
Proof.
  destruct normalizers_clamp as (_ & _ & H & _).
  destruct (H 1013 1013) as (_ & Hin & _). apply Hin. split; discriminate.
Defined.

Lemma validated_missing (data : gmap string Q) :
  validate_sensor_data data = true →
  missing_fields data = (if data !! "acceleration" is Some _ then 0 else 1)%nat ∧
  is_Some (data !! "temperature") ∧ is_Some (data !! "humidity") ∧
  is_Some (data !! "pressure").
Proof.
  unfold validate_sensor_data, missing_fields, required_fields. simpl.
  rewrite !andb_true_iff, !bool_decide_eq_true.
  intros ([t Ht] & [h Hh] & [p Hp] & _).
  rewrite !filter_cons, filter_nil, Ht, Hh, Hp.
  split; [|by eauto].
  destruct (data !! "acceleration"); reflexivity.
Qed.

Lemma validated_quality_bounds (data : gmap string Q) :
  validate_sensor_data data = true →
  11 # 20 <= calculate_data_quality data ∧
  (is_Some (data !! "acceleration") → 8 # 10 <= calculate_data_quality data).
Proof.
  intros Hv. destruct (validated_missing data Hv) as (Hm & _).
  unfold calculate_data_quality. rewrite Hm.
  split; [|intros [a Ha]; rewrite Ha].
  all: destruct (data !! "acceleration");
    cbv [Z.of_nat Pos.of_succ_nat inject_Z];
    unfold Py.max; repeat destruct (_ || _); destruct (Qlt_le_dec _ _); lra.
Qed.

(** X2.  A reading that passes [validate_sensor_data] scores at least 0.55:
    it misses at most the acceleration channel (0.25) and loses at most
    0.1 each for temperature and humidity.  With all four channels
    present the score is at least 0.8. *)
Theorem validated_quality_floor (data : gmap string Q) :
  validate_sensor_data data = true →
  11 # 20 <= calculate_data_quality data ∧
  (is_Some (data !! "acceleration") → 8 # 10 <= calculate_data_quality data).
Proof. apply validated_quality_bounds. Qed.

Lemma validated_quality_floor_witness :
  11 # 20 <= calculate_data_quality overpressure_reading.
Proof.
  destruct (validated_quality_floor overpressure_reading) as [H _];
    [by vm_compute | exact H].
Defined.

Lemma normalize_field_Ok f data key :
  (∃ v, data !! key = Some v ∧ normalize_field f data key = Py.Ok (f v)) ∨
  (data !! key = None ∧ ∃ m, normalize_field f data key = Py.Raise (Py.TypeError m)).
Proof.
  unfold normalize_field. destruct (data !! key); [left | right]; eauto.
Qed.

Lemma process_reading_spec now data :
  validate_sensor_data data = true →
  match data !! "acceleration" with
  | Some a =>
      ∃ r, process_reading now data = Py.Ok r ∧ within_bounds r ∧
           p_timestamp r = now ∧
           p_quality_score r = calculate_data_quality data
  | None => ∃ m, process_reading now data = Py.Raise (Py.TypeError m)
  end.
Proof.
  intros Hv. destruct (validated_missing data Hv) as (_ & [t Ht] & [h Hh] & [p Hp]).
  unfold process_reading, normalize_field. rewrite Ht, Hh, Hp. simpl.
  destruct (data !! "acceleration") as [a|]; simpl; [|by eauto].
  eexists; split; [done|]. split; [|done].
  destruct all_normalizers_clamp as (H1 & H2 & H3 & H4).
  unfold within_bounds; simpl.
  split_and!; (apply (H1 t t) || apply (H2 h h) || apply (H3 p p) || apply (H4 a a)).
Qed.

Lemma preprocess_loop_spec clock tick items processed :
  match preprocess_loop clock tick items processed with
  | Py.Ok out =>
      (∀ id data, (id, data) ∈ items → validate_sensor_data data = true →
         is_Some (data !! "acceleration") ∧ is_Some (out !! id)) ∧
      (∀ id r, out !! id = Some r →
         processed !! id = Some r ∨
         ∃ data, (id, data) ∈ items ∧ validate_sensor_data data = true ∧
           within_bounds r ∧ p_quality_score r = calculate_data_quality data) ∧
      (∀ id, is_Some (processed !! id) → is_Some (out !! id))
  | Py.Raise e =>
      (∃ m, e = Py.TypeError m) ∧
      ∃ id data, (id, data) ∈ items ∧ validate_sensor_data data = true ∧
        data !! "acceleration" = None
  end.
Proof.
  revert tick processed.
  induction items as [|[sid data] items IH]; intros tick processed; simpl.
  - split_and!; [intros ? ? H; by apply elem_of_nil in H | by left | done].
  - destruct (validate_sensor_data data) eqn:Hv.
    + pose proof (process_reading_spec (clock tick) data Hv) as Hp.
      destruct (data !! "acceleration") as [a|] eqn:Ha.
      * destruct Hp as (r & -> & Hb & _ & Hq). simpl.
        specialize (IH (S tick) (<[sid := r]> processed)).
        destruct (preprocess_loop _ _ _ _) as [out|e].
        -- destruct IH as (Hall & Hsrc & Hkeep). split_and!.
           ++ intros id d Hin Hvd. apply elem_of_cons in Hin as [[= -> ->] | Hin].
              ** split; [by rewrite Ha|]. apply Hkeep. rewrite lookup_insert_eq. by eauto.
              ** by apply Hall.
           ++ intros id r' Hr'. destruct (Hsrc id r' Hr') as [Hi | (d & Hin & ?)].
              ** destruct (decide (sid = id)) as [->|Hne].
                 --- rewrite lookup_insert_eq in Hi. injection Hi as <-.
                     right. exists data. split_and!; [left | done | done | done].
                 --- rewrite lookup_insert_ne in Hi by done. by left.
              ** right. exists d. split; [by right | done].
           ++ intros id Hid. apply Hkeep.
              destruct (decide (sid = id)) as [->|Hne].
              ** rewrite lookup_insert_eq. by eauto.
              ** by rewrite lookup_insert_ne.
        -- destruct IH as (Hm & id & d & Hin & Hvd & Hnone).
           split; [done|]. exists id, d. split; [by right | done].
      * destruct Hp as (m & ->). simpl. split; [by eauto|].
        exists sid, data. split_and!; [left | done | done].
    + specialize (IH tick processed).
      destruct (preprocess_loop _ _ _ _) as [out|e].
      * destruct IH as (Hall & Hsrc & Hkeep). split_and!; [| | done].
        -- intros id d Hin Hvd. apply elem_of_cons in Hin as [[= -> ->] | Hin];
             [congruence | by apply Hall].
        -- intros id r' Hr'. destruct (Hsrc id r' Hr') as [Hi | (d & Hin & ?)];
             [by left|]. right. exists d. split; [by right | done].
      * destruct IH as (Hm & id & d & Hin & Hvd & Hnone).
        split; [done|]. exists id, d. split; [by right | done].
Qed.

(** X3.  [preprocess_sensor_data] raises exactly when some reading passes
    validation but has no acceleration channel, and then it raises
    [TypeError]; the worker round then saves nothing, the complete
    readings of the batch included. *)
Theorem preprocess_raises_without_acceleration
    (clock : nat → Z) (raw_data : list (string * gmap string Q)) :
  ((∃ e, preprocess_sensor_data clock raw_data = Py.Raise e) ↔
   (∃ id data, (id, data) ∈ raw_data ∧ validate_sensor_data data = true ∧
      data !! "acceleration" = None)) ∧
  (∀ e, preprocess_sensor_data clock raw_data = Py.Raise e →
     (∃ m, e = Py.TypeError m) ∧ data_processing_round clock raw_data = None).
Proof.
  pose proof (preprocess_loop_spec clock 0 raw_data ∅) as H.
  unfold data_processing_round.
  fold (preprocess_sensor_data clock raw_data) in H.
  destruct (preprocess_sensor_data clock raw_data) as [out|e].
  - destruct H as (Hall & _). split; [split|by intros ? [=]].
    + by intros [? [=]].
    + intros (id & data & Hin & Hv & Hnone).
      destruct (Hall id data Hin Hv) as [[a Ha] _]. congruence.
  - destruct H as (Hm & Hex). split; [split; [done | by eauto]|].
    intros e' [= <-]. split; [done|]. by destruct raw_data.
Qed.

Lemma preprocess_raises_without_acceleration_witness :
  data_processing_round (λ _, 0%Z) sample_batch = None.
Proof.
  destruct (preprocess_raises_without_acceleration (λ _, 0%Z) sample_batch) as [Hiff Hr].
  assert (∃ e, preprocess_sensor_data (λ _, 0%Z) sample_batch = Py.Raise e) as [e He].
  { apply Hiff. eexists "S2", _. split_and!; [right; left | by vm_compute | by vm_compute]. }
  by apply (Hr e).
Defined.

(** X4.  When [preprocess_sensor_data] returns, the result has an entry for
    every reading that passes validation, every entry comes from such a
    reading, its four values lie within the channel bounds and its
    quality score is at least 0.8. *)
Theorem preprocess_output_sound
    (clock : nat → Z) (raw_data : list (string * gmap string Q))
    (processed : gmap string ProcessedReading) :
  preprocess_sensor_data clock raw_data = Py.Ok processed →
  (∀ id data, (id, data) ∈ raw_data → validate_sensor_data data = true →
     is_Some (processed !! id)) ∧
  (∀ id r, processed !! id = Some r →
     within_bounds r ∧ 8 # 10 <= p_quality_score r <= 1 ∧
     ∃ data, (id, data) ∈ raw_data ∧ validate_sensor_data data = true ∧
       p_quality_score r = calculate_data_quality data).
Proof.
  intros Hok. pose proof (preprocess_loop_spec clock 0 raw_data ∅) as H.
  fold (preprocess_sensor_data clock raw_data) in H. rewrite Hok in H.
  destruct H as (Hall & Hsrc & _). split.
  - intros id data Hin Hv. by destruct (Hall id data Hin Hv).
  - intros id r Hr. destruct (Hsrc id r Hr) as [He | (data & Hin & Hv & Hb & Hq)].
    + by rewrite lookup_empty in He.
    + destruct (Hall id data Hin Hv) as [Hacc _].
      split; [done|]. split; [|by eauto]. rewrite Hq. split.
      * by apply validated_quality_bounds.
      * apply data_quality_range.
Qed.

Lemma preprocess_output_sound_witness :
  ∃ processed r,
    preprocess_sensor_data (λ _, 0%Z) [("S1", overpressure_reading)] = Py.Ok processed ∧
    processed !! "S1" = Some r ∧ within_bounds r.
Proof.
  destruct (preprocess_sensor_data (λ _, 0%Z) [("S1", overpressure_reading)])
    as [processed|e] eqn:Hp; [|by vm_compute in Hp].
  destruct (preprocess_output_sound _ _ _ Hp) as [Hall Hsrc].
  destruct (Hall "S1" overpressure_reading) as [r Hr]; [left | by vm_compute |].
  exists processed, r. split_and!; [done | done |]. by destruct (Hsrc "S1" r Hr).
Defined.

End Preprocessing.

(** ** Health check: sensor connectivity and the results of all checks *)

Section HealthRun.
Import HealthCheck.

Lemma ratio_above (offline total : Z) (n d : positive) :
  (Z.pos n # d < inject_Z offline / inject_Z (Z.max total 1))%Q ↔
  Z.pos n * Z.max total 1 < Z.pos d * offline.
Proof.
  destruct (Z.max total 1) as [|b|b] eqn:Hb; try lia.
  unfold Qlt, Qdiv, Qmult, Qinv, inject_Z. simpl. nia.
Qed.

(** X5.  [check_sensor_connectivity] on an HTTP 200 answer.  When the
    body decodes, the check never reports CRITICAL, however many
    sensors are offline: the 20 % test comes before the 50 % test and
    returns WARNING.  The status is then WARNING when no sensor is
    registered or more than a fifth is offline, and HEALTHY otherwise.
    When the body does not decode, the handler of the function reports
    CRITICAL. *)
Theorem sensor_check_on_200
    (start_time end_time : Q) (body : Py.outcome (gmap string Z)) :
  let r := check_sensor_connectivity start_time end_time (Py.Ok (200, body)) in
  match body with
  | Py.Ok data =>
      let total := json_get data "total_sensors" in
      let offline := json_get data "offline_sensors" in
      status r ≠ CRITICAL ∧
      (status r = WARNING ↔ total = 0 ∨ Z.max total 1 < 5 * offline) ∧
      (status r = HEALTHY ↔ total ≠ 0 ∧ 5 * offline ≤ Z.max total 1)
  | Py.Raise e => r = sensor_check_failed e ∧ status r = CRITICAL
  end.
Proof.
  intros r. subst r. unfold check_sensor_connectivity.
  change (200 =? 200) with true. cbv iota.
  destruct body as [data|e]; [|done].
  cbv zeta.
  set (total := json_get data "total_sensors").
  set (offline := json_get data "offline_sensors").
  destruct (Z.eqb_spec total 0) as [H0|H0]; simpl.
  { split_and!; [done | split; [by left | done] | split; [done | tauto]]. }
  destruct (Qlt_le_dec (2 # 10) _) as [Hlt|Hge]; simpl.
  - apply ratio_above in Hlt.
    split_and!; [done | split; [intros _; right; lia | done] |
                 split; [done | intros [_ ?]; lia]].
  - assert (¬ (Z.pos 2 * Z.max total 1 < Z.pos 10 * offline)) as Hn.
    { intros H. apply ratio_above in H. by apply Qlt_not_le in H. }
    destruct (Qlt_le_dec (5 # 10) _) as [Hlt5|Hge5]; simpl.
    + apply ratio_above in Hlt5. lia.
    + split_and!; [done | split; [done | intros [? | ?]; lia] |
                   split; [intros _; split; [done | lia] | done]].
Qed.

Lemma run_all_checks_elems api mqtt sensor database redis :
  run_all_checks api mqtt sensor database redis =
    [ match api with Py.Raise e => check_crashed "API Server" e | Py.Ok r => r end;
      match mqtt with Py.Raise e => check_crashed "MQTT Broker" e | Py.Ok r => r end;
      match sensor with
      | Py.Raise e => check_crashed "Sensor Connectivity" e | Py.Ok r => r end;
      database; redis ].
Proof. reflexivity. Qed.

(** X6.  [run_all_checks] returns five results, in the order API, MQTT,
    sensors, database, Redis; an asynchronous check that raised is
    recorded as CRITICAL under its component name.  So
    [get_overall_status] on these results is never UNKNOWN; it is
    CRITICAL exactly when some result is CRITICAL, in particular
    whenever a check raised, and HEALTHY exactly when no result is
    CRITICAL or WARNING. *)
Theorem run_all_checks_overall_status
    (api mqtt sensor : Py.outcome HealthCheckResult)
    (database redis : HealthCheckResult) :
  let results := run_all_checks api mqtt sensor database redis in
  let overall := get_overall_status results in
  length results = 5%nat ∧
  (∀ e, api = Py.Raise e → check_crashed "API Server" e ∈ results) ∧
  (∀ e, mqtt = Py.Raise e → check_crashed "MQTT Broker" e ∈ results) ∧
  (∀ e, sensor = Py.Raise e → check_crashed "Sensor Connectivity" e ∈ results) ∧
  overall ≠ UNKNOWN ∧
  (overall = CRITICAL ↔ ∃ r, r ∈ results ∧ status r = CRITICAL) ∧
  (overall = HEALTHY ↔
     ∀ r, r ∈ results → status r ≠ CRITICAL ∧ status r ≠ WARNING) ∧
  ((∃ e, api = Py.Raise e ∨ mqtt = Py.Raise e ∨ sensor = Py.Raise e) →
     overall = CRITICAL).
Proof.
  intros results overall. subst results overall.
  set (results := run_all_checks api mqtt sensor database redis).
  assert (results ≠ []) as Hne by (unfold results; by rewrite run_all_checks_elems).
  pose proof (overall_status_cases results) as Hc.
  rewrite (bool_decide_eq_false_2 _ Hne) in Hc.
  assert (Hapi : ∀ e, api = Py.Raise e → check_crashed "API Server" e ∈ results).
  { intros e ->. unfold results. rewrite run_all_checks_elems. left. }
  assert (Hmqtt : ∀ e, mqtt = Py.Raise e → check_crashed "MQTT Broker" e ∈ results).
  { intros e ->. unfold results. rewrite run_all_checks_elems. right; left. }
  assert (Hsensor : ∀ e, sensor = Py.Raise e →
            check_crashed "Sensor Connectivity" e ∈ results).
  { intros e ->. unfold results. rewrite run_all_checks_elems. right; right; left. }
  assert (Hno : ∀ s, s ∉ map status results → ∀ r, r ∈ results → status r ≠ s).
  { intros s Hs r Hr E. apply Hs, status_in_results. eauto. }
  assert (Hcrash : (∃ e, api = Py.Raise e ∨ mqtt = Py.Raise e ∨ sensor = Py.Raise e) →
            CRITICAL ∈ map status results).
  { intros [e [H | [H | H]]]; apply status_in_results;
      [exists (check_crashed "API Server" e)
      | exists (check_crashed "MQTT Broker" e)
      | exists (check_crashed "Sensor Connectivity" e)]; split; auto. }
  split; [unfold results; by rewrite run_all_checks_elems|].
  split; [done|]. split; [done|]. split; [done|].
  rewrite Hc. clear Hc. rewrite <- status_in_results.
  destruct (decide (CRITICAL ∈ map status results)) as [Hcr|Hcr].
  { rewrite (bool_decide_eq_true_2 _ Hcr).
    split; [done|]. split; [done|]. split; [|done].
    split; [done|]. intros H.
    apply status_in_results in Hcr as (r & Hr & Hs). by destruct (H r Hr). }
  rewrite (bool_decide_eq_false_2 _ Hcr).
  destruct (decide (WARNING ∈ map status results)) as [Hw|Hw].
  { rewrite (bool_decide_eq_true_2 _ Hw).
    split; [done|]. split; [done|]. split.
    - split; [done|]. intros H.
      apply status_in_results in Hw as (r & Hr & Hs). by destruct (H r Hr).
    - intros H. by apply Hcrash in H. }
  rewrite (bool_decide_eq_false_2 _ Hw).
  split; [done|]. split; [done|]. split.
  - split; [|done]. intros _ r Hr. split; by apply Hno.
  - intros H. by apply Hcrash in H.
Qed.

Lemma run_all_checks_overall_status_witness :
  get_overall_status
    (run_all_checks
       (Py.Ok {| component := "API Server"; status := HEALTHY;
                 message := "ok"; response_time_ms := 12 |})
       (Py.Raise (Py.ConnectionError "refused"))
       (Py.Ok {| component := "Sensor Connectivity"; status := HEALTHY;
                 message := "ok"; response_time_ms := 20 |})
       {| component := "PostgreSQL"; status := HEALTHY;
          message := "ok"; response_time_ms := 5 |}
       {| component := "Redis"; status := HEALTHY;
          message := "ok"; response_time_ms := 3 |}) = CRITICAL.
Proof.
  apply (run_all_checks_overall_status
           (Py.Ok {| component := "API Server"; status := HEALTHY;
                     message := "ok"; response_time_ms := 12 |})
           (Py.Raise (Py.ConnectionError "refused"))
           (Py.Ok {| component := "Sensor Connectivity"; status := HEALTHY;
                     message := "ok"; response_time_ms := 20 |})
           {| component := "PostgreSQL"; status := HEALTHY;
              message := "ok"; response_time_ms := 5 |}
           {| component := "Redis"; status := HEALTHY;
              message := "ok"; response_time_ms := 3 |}).
  exists (Py.ConnectionError "refused"). right; left. reflexivity.
Defined.

End HealthRun.

(** ** The scorers of the anomaly detector *)

Section AnomalyScoring.
Import AnomalyDetector.

Lemma anomaly_Qltb_true (a b : Q) : Qltb a b = true ↔ (a < b)%Q.
Proof. unfold Qltb. destruct (Qlt_le_dec a b); split; try done. intros; lra. Qed.

Lemma anomaly_Qltb_false (a b : Q) : Qltb a b = false ↔ (b <= a)%Q.
Proof. unfold Qltb. destruct (Qlt_le_dec a b); split; try done. intros; lra. Qed.

Lemma recommendations_None (t : AnomalyType) (s : SeverityLevel) :
  recommendations t s = None ↔ t = PREDICTIVE_MAINTENANCE ∨ t = SECURITY_BREACH.
Proof.
  split.
  - destruct t, s; simpl; intros H; try discriminate H; tauto.
  - intros [-> | ->]; by destruct s.
Qed.

Lemma recommendation_specific (t : AnomalyType) (s : SeverityLevel) :
  t ≠ PREDICTIVE_MAINTENANCE → t ≠ SECURITY_BREACH →
  get_recommendation t s ≠ default_recommendation.
Proof.
  intros H1 H2. unfold get_recommendation.
  destruct t, s; try done; apply bool_decide_eq_false_1; by vm_compute.
Qed.

(** X7.  [get_recommendation]: the fallback text is returned exactly for the
    two kinds the table has no row for, predictive maintenance and
    security breach, whatever the severity; every other kind gets the
    text of its own row at every severity. *)
Theorem recommendation_default_iff (t : AnomalyType) (s : SeverityLevel) :
  get_recommendation t s = default_recommendation ↔
  t = PREDICTIVE_MAINTENANCE ∨ t = SECURITY_BREACH.
Proof.
  split.
  - intros H.
    destruct (decide (t = PREDICTIVE_MAINTENANCE)) as [|H1]; [tauto|].
    destruct (decide (t = SECURITY_BREACH)) as [|H2]; [tauto|].
    by destruct (recommendation_specific t s H1 H2).
  - intros H. apply recommendations_None with (s := s) in H.
    unfold get_recommendation. by rewrite H.
Qed.

Lemma feature_test_KeyError features values key test k :
  feature_test features values key test = KeyError k →
  k = key ∧ key ∈ features ∧ values !! key = None.
Proof.
  unfold feature_test. case_bool_decide as Hin; [|done].
  destruct (values !! key); [done|]. intros [= <-]. done.
Qed.

(** X8.  [classify_anomaly_type]: a returned kind is never predictive
    maintenance nor security breach, so that [get_recommendation] has a
    row for it at every severity; and the only way to fail is the
    [KeyError] of a column the feature list names and the row lacks. *)
Theorem classify_anomaly_type_result (features : list string)
    (feature_values : gmap string Q) :
  match classify_anomaly_type features feature_values with
  | Found t =>
      t ≠ PREDICTIVE_MAINTENANCE ∧ t ≠ SECURITY_BREACH ∧
      ∀ s, get_recommendation t s ≠ default_recommendation
  | KeyError k => k ∈ features ∧ feature_values !! k = None
  end.
Proof.
  unfold classify_anomaly_type.
  repeat match goal with
  | |- context [feature_test ?f ?v ?k ?t] =>
      let E := fresh "E" in
      destruct (feature_test f v k t) as [[|]|k'] eqn:E;
      [| | apply feature_test_KeyError in E as (-> & ? & ?); done]
  end;
  (split; [done | split; [done | intros s; by apply recommendation_specific]]).
Qed.

(** X9.  The severity of an isolation-forest anomaly never grows with the
    decision score: a lower score is at least as severe.  It is never
    [EMERGENCY], and from [-0.1] upwards it is [LOW]. *)
Theorem forest_severity_monotone (score score' : Q) :
  (score <= score')%Q →
  severity_value (isolation_forest_severity score')
    ≤ severity_value (isolation_forest_severity score) ∧
  isolation_forest_severity score ≠ EMERGENCY ∧
  (isolation_forest_severity score = LOW ↔ (-(1 # 10) <= score)%Q).
Proof.
  intros Hle. unfold isolation_forest_severity.
  destruct (Qltb score (-(5 # 10))) eqn:E1;
  destruct (Qltb score (-(3 # 10))) eqn:E2;
  destruct (Qltb score (-(1 # 10))) eqn:E3;
  destruct (Qltb score' (-(5 # 10))) eqn:E1';
  destruct (Qltb score' (-(3 # 10))) eqn:E2';
  destruct (Qltb score' (-(1 # 10))) eqn:E3';
  rewrite ?anomaly_Qltb_true, ?anomaly_Qltb_false in *;
  (split; [simpl; first [lia | exfalso; lra] |
   split; [done | split; intros H; first [done | lra | exfalso; lra]]]).
Qed.

Lemma forest_severity_monotone_witness :
  severity_value (isolation_forest_severity (-(2 # 10)))
    ≤ severity_value (isolation_forest_severity (-(6 # 10))) ∧
  isolation_forest_severity (-(6 # 10)) = CRITICAL.
Proof.
  split; [|reflexivity].
  destruct (forest_severity_monotone (-(6 # 10)) (-(2 # 10))) as [H _];
    [lra | exact H].
Defined.

(** X10.  One step of the LSTM scorer: an anomaly is reported exactly when
    the prediction error exceeds 0.1, and then its confidence
    [min(error * 10, 1.0)] is 1 whatever the error; it is a temperature
    anomaly, never [EMERGENCY], at least [MEDIUM] exactly above an
    error of 0.15, and carries the text of its table row. *)
Theorem lstm_anomaly_report (format_4f : Q → string) (device_id : string)
    (predicted actual : Q) (ts : Z) (loc : option string) :
  match lstm_anomaly format_4f device_id predicted actual ts loc with
  | Some r =>
      (1 # 10 < Qabs (predicted - actual))%Q ∧
      (confidence_score r == 1)%Q ∧
      anomaly_type r = TEMPERATURE_ANOMALY ∧
      severity r ≠ EMERGENCY ∧
      (severity_value MEDIUM ≤ severity_value (severity r)
         ↔ (15 # 100 < Qabs (predicted - actual))%Q) ∧
      recommendation r ≠ default_recommendation
  | None => (Qabs (predicted - actual) <= 1 # 10)%Q
  end.
Proof.
  unfold lstm_anomaly. cbv zeta.
  set (error := Qabs (predicted - actual)).
  destruct (Qltb (1 # 10) error) eqn:E0;
    rewrite ?anomaly_Qltb_true, ?anomaly_Qltb_false in E0; [|done].
  cbn [confidence_score anomaly_type severity recommendation].
  split; [done|]. split.
  { unfold py_min. destruct (Qlt_le_dec 1 (error * 10)); [reflexivity | lra]. }
  split; [done|].
  destruct (Qltb (3 # 10) error) eqn:E1;
  destruct (Qltb (2 # 10) error) eqn:E2;
  destruct (Qltb (15 # 100) error) eqn:E3;
  rewrite ?anomaly_Qltb_true, ?anomaly_Qltb_false in *;
  (split; [done | split;
     [simpl; split; intros H; first [lia | lra | exfalso; lra]
     | by apply recommendation_specific]]).
Qed.

Lemma py_int_lt (x : Q) (k : Z) :
  (0 <= x)%Q → py_int x < k ↔ (x < inject_Z k)%Q.
Proof.
  destruct x as [n d]. unfold py_int, Qle, Qlt, inject_Z. simpl.
  intros Hn. rewrite Z.quot_div_nonneg by lia.
  split; intros H.
  - destruct (Z_lt_le_dec (n * 1) (k * Z.pos d)) as [|Hge]; [done|].
    assert (k ≤ n / Z.pos d); [|lia].
    apply Z.div_le_lower_bound; lia.
  - apply Z.div_lt_upper_bound; lia.
Qed.

Lemma py_int_nonneg (x : Q) : (0 <= x)%Q → 0 ≤ py_int x.
Proof.
  destruct x as [n d]. unfold py_int, Qle. simpl. intros Hn.
  rewrite Z.quot_div_nonneg by lia. apply Z.div_pos; lia.
Qed.

(** X11.  The battery branch of the maintenance prediction: a reported
    window is the whole number of hours until 3.0 V, between 0 and 167;
    the result is [HIGH] exactly when the window is under 48 hours and
    [MEDIUM] otherwise; its confidence exceeds 0.5 and the last voltage
    is above the predicted 3.0 V. *)
Theorem battery_prediction_window (format_0f : Q → string) (device_id : string)
    (slope r_value current_voltage : Q) (ts : Z) (loc : option string)
    (r : AnomalyResult) :
  battery_prediction format_0f device_id slope r_value current_voltage ts loc
    = Some r →
  (∃ w, maintenance_window r = Some w ∧ 0 ≤ w < 168 ∧
        (severity r = HIGH ↔ w < 48) ∧ (severity r = MEDIUM ↔ 48 ≤ w)) ∧
  anomaly_type r = PREDICTIVE_MAINTENANCE ∧
  (5 # 10 < confidence_score r)%Q ∧
  (predicted_value r < actual_value r)%Q.
Proof.
  unfold battery_prediction. cbv zeta.
  destruct (Qltb slope (-(1 # 1000))) eqn:Es; [|done].
  destruct (Qltb r_value (-(5 # 10))) eqn:Er; [|done].
  destruct (Qltb 3 current_voltage) eqn:Ev; [|done].
  set (hours := ((current_voltage - 3) / Qabs slope)%Q).
  destruct (Qltb hours 168) eqn:Eh; [|done].
  rewrite anomaly_Qltb_true in Es, Er, Ev, Eh.
  assert (Habs : (0 < Qabs slope)%Q).
  { rewrite Qabs_neg by lra. lra. }
  assert (Hpos : (0 <= hours)%Q).
  { apply Qlt_le_weak. apply Qlt_shift_div_l; [done | lra]. }
  simpl. intros [= <-]. cbn.
  split; [|split; [done | split; [rewrite Qabs_neg by lra; lra | lra]]].
  exists (py_int hours). split; [done|].
  split; [split; [by apply py_int_nonneg | by apply (py_int_lt hours 168)]|].
  pose proof (py_int_lt hours 48 Hpos) as H48.
  destruct (Qltb hours 48) eqn:E48;
    rewrite ?anomaly_Qltb_true, ?anomaly_Qltb_false in E48.
  - split; split; try done.
    + intros _. by apply H48.
    + intros Hge. apply H48 in E48. lia.
  - assert (¬ py_int hours < 48).
    { intros Hlt. apply H48 in Hlt. exact (Qlt_not_le _ _ Hlt E48). }
    split; split; try done; intros; lia.
Qed.

Lemma battery_prediction_window_witness :
  ∃ r, battery_prediction (λ _, "20") "HK-001" (-(1 # 100)) (-(9 # 10)) (32 # 10)
         0 None = Some r ∧
       maintenance_window r = Some 20 ∧ severity r = HIGH.
Proof.
  eexists. split; [reflexivity|].
  destruct (battery_prediction_window (λ _, "20") "HK-001" (-(1 # 100))
              (-(9 # 10)) (32 # 10) 0 None _ eq_refl)
    as [(w & Hw & _ & Hhigh & _) _].
  split; [reflexivity|]. apply Hhigh.
  injection Hw as <-. by vm_compute.
Defined.

End AnomalyScoring.

(** ** The alert of the anomaly detector *)

Section Alerts.
Import AnomalyDetector.

Lemma filter_none {A} (P : A → Prop) `{!∀ a, Decision (P a)} (l : list A) :
  Forall (λ x, ¬ P x) l → filter P l = [].
Proof.
  induction 1 as [|x l Hx _ IH]; [done|].
  rewrite filter_cons. by destruct (decide (P x)).
Qed.

Lemma sorted_filter_prefix {A} (R : A → A → Prop) (P : A → Prop)
    `{!∀ a, Decision (P a)} (l : list A) :
  (∀ a b, R a b → P b → P a) →
  StronglySorted R l →
  filter P l = take (length (filter P l)) l.
Proof.
  intros Hup. induction 1 as [|x l Hs IH Hx]; [done|].
  rewrite filter_cons. destruct (decide (P x)) as [Hp|Hn].
  - simpl. by rewrite <- IH.
  - rewrite filter_none; [done|].
    eapply Forall_impl; [exact Hx|]. intros y Hxy Hy. apply Hn. by eapply Hup.
Qed.

Lemma send_anomaly_alerts_Some alert_webhook results a :
  send_anomaly_alerts alert_webhook results = Some a →
  let critical_results :=
    filter (λ r, severity_value HIGH ≤ severity_value (severity r)) results in
  alert_webhook ≠ "" ∧ critical_results ≠ [] ∧
  total_anomalies a = length results ∧
  critical_anomalies a = length critical_results ∧
  anomalies a = take 10 critical_results.
Proof.
  intros H critical_results. unfold send_anomaly_alerts in H.
  destruct results as [|r0 results]; [done|].
  case_bool_decide as Hw; [done|].
  cbv zeta in H. fold critical_results in H.
  destruct critical_results as [|c cs] eqn:Ec; [done|].
  injection H as <-. done.
Qed.

(** X12.  [send_anomaly_alerts] on the output of
    [deduplicate_and_prioritize]: the alert lists a prefix of the ranked
    results, at most ten of them and at least one, all of severity
    [HIGH] or above; the count of critical anomalies is the number of
    such results in the whole list, of which the listed ones are the
    first ten. *)
Theorem alerts_are_top_ranked (alert_webhook : string)
    (results : list AnomalyResult) (a : AlertData) :
  send_anomaly_alerts alert_webhook (deduplicate_and_prioritize results) = Some a →
  anomalies a =
    take (length (anomalies a)) (deduplicate_and_prioritize results) ∧
  length (anomalies a) = Nat.min 10 (critical_anomalies a) ∧
  (1 ≤ critical_anomalies a ≤ total_anomalies a)%nat ∧
  Forall (λ r, severity_value HIGH ≤ severity_value (severity r)) (anomalies a) ∧
  (∀ r, r ∈ deduplicate_and_prioritize results →
        severity_value HIGH ≤ severity_value (severity r) →
        (critical_anomalies a ≤ 10)%nat → r ∈ anomalies a).
Proof.
  intros H. apply send_anomaly_alerts_Some in H.
  destruct H as (_ & Hne & Htot & Hcrit & Hanom).
  set (ranked := deduplicate_and_prioritize results) in *.
  set (P := λ r : AnomalyResult, severity_value HIGH ≤ severity_value (severity r)) in *.
  assert (Hsorted : StronglySorted rank_ge ranked).
  { unfold ranked, deduplicate_and_prioritize.
    eapply strongly_sorted_mono; [| apply sorted_desc_sorted].
    - intros x y. apply rank_ltb_false.
    - apply rank_ltb_asym.
    - apply rank_ltb_negtrans. }
  assert (Hprefix : filter P ranked = take (length (filter P ranked)) ranked).
  { apply (sorted_filter_prefix rank_ge); [|done].
    unfold rank_ge, P. intros x y Hxy Hy. lia. }
  assert (Hlen : length (anomalies a) = Nat.min 10 (critical_anomalies a)).
  { by rewrite Hanom, Hcrit, length_take. }
  split; [|split; [|split; [|split]]].
  - rewrite Hanom at 1. rewrite Hprefix at 1. rewrite take_take.
    f_equal. rewrite Hlen, Hcrit. done.
  - done.
  - rewrite Hcrit, Htot. split; [|apply length_filter].
    destruct (filter P ranked); [done | simpl; lia].
  - rewrite Hanom. apply Forall_take.
    apply Forall_forall. intros r Hr. by apply list_elem_of_filter in Hr as [? _].
  - intros r Hr Hsev Hfew. rewrite Hanom.
    rewrite take_ge by (rewrite <- Hcrit; done).
    apply list_elem_of_filter. done.
Qed.

Lemma alerts_are_top_ranked_witness :
  ∃ a, send_anomaly_alerts "http://alerts"
         (deduplicate_and_prioritize [lstm_hit; forest_hit]) = Some a ∧
       anomalies a =
         take (length (anomalies a))
              (deduplicate_and_prioritize [lstm_hit; forest_hit]).
Proof.
  eexists. split; [reflexivity|].
  exact (proj1 (alerts_are_top_ranked "http://alerts" [lstm_hit; forest_hit]
                  _ eq_refl)).
Defined.

End Alerts.

(** ** Deployment names *)

Section DeploymentNames.
Import SelfHealing.

Lemma prefix_contains_char (c : ascii) (p s : string) :
  String.prefix p s = true → Py.contains_char c p = true →
  Py.contains_char c s = true.
Proof.
  revert s. induction p as [|a p IH]; intros s; [done|].
  destruct s as [|b s]; [done|]. simpl.
  destruct (Ascii.ascii_dec a b) as [->|]; [|done].
  intros Hp. destruct (decide (b = c)); [done|]. by apply IH.
Qed.

Lemma before_char_free (c : ascii) (s : string) :
  Py.contains_char c (Py.before_char c s) = false.
Proof.
  induction s as [|a s IH]; [done|]. simpl.
  destruct (decide (a = c)) as [|Hne]; [done|]. simpl.
  by destruct (decide (a = c)).
Qed.

Lemma prefix_app (p s : string) :
  String.prefix p s = true → ∃ r, s = p +:+ r.
Proof.
  revert s. induction p as [|a p IH]; intros s; [by exists s|].
  destruct s as [|b s]; [done|]. simpl.
  destruct (Ascii.ascii_dec a b) as [->|]; [|done].
  intros [r ->]%IH. by exists r.
Qed.

Lemma deployment_name_unfold (component : string) :
  deployment_name_of component =
    "hankook-" +:+ Py.before_char "-" (Py.remove_all "pod-" component).
Proof.
  unfold deployment_name_of. cbv zeta.
  destruct (Py.startswith _ "hankook-") eqn:E; [|done].
  unfold Py.startswith in E.
  apply (prefix_contains_char "-") in E; [|done].
  by rewrite before_char_free in E.
Qed.

Lemma deployment_name_hankook (rest : string) :
  deployment_name_of ("hankook-" +:+ rest) = "hankook-hankook" ∧
  deployment_name_of ("pod-hankook-" +:+ rest) = "hankook-hankook".
Proof. by rewrite !deployment_name_unfold. Qed.

(** X13.  The deployment name [restart_pod] and [scale_deployment] derive
    from a component always gets the prefix [hankook-] added: the text
    before the first hyphen cannot start with [hankook-].  So a
    component that is already a full name, such as [hankook-api] or
    [pod-hankook-api-7d9f], is mapped to the deployment
    [hankook-hankook]. *)
Theorem deployment_name_always_prefixed (component rest : string) :
  deployment_name_of component =
    "hankook-" +:+ Py.before_char "-" (Py.remove_all "pod-" component) ∧
  deployment_name_of ("hankook-" +:+ rest) = "hankook-hankook" ∧
  deployment_name_of ("pod-hankook-" +:+ rest) = "hankook-hankook".
Proof.
  split; [apply deployment_name_unfold | apply deployment_name_hankook].
Qed.

Lemma pod_issues_components now issues pod :
  Forall (λ i, ∃ rest, component i = "pod-hankook-" +:+ rest) issues →
  Forall (λ i, ∃ rest, component i = "pod-hankook-" +:+ rest)
         (pod_issues now issues pod).
Proof.
  intros H. unfold pod_issues.
  destruct (Py.startswith (pod_name pod) "hankook-") eqn:E; [|done]. simpl.
  apply prefix_app in E as [rest E].
  assert (Hnew : ∀ ty sev d t a,
    ∃ rest', component (probe_failed ("pod-" +:+ pod_name pod) ty sev d t a)
             = "pod-hankook-" +:+ rest').
  { intros. exists rest. simpl. by rewrite E. }
  repeat case_innermost; rewrite ?Forall_app, ?Forall_singleton; auto.
Qed.

Lemma check_pods_components (pods : Py.outcome (list Pod)) (now : nat → Z) :
  Forall (λ i, ∃ rest, component i = "pod-hankook-" +:+ rest)
         (check_kubernetes_pods pods now).
Proof.
  unfold check_kubernetes_pods. destruct pods as [items|e]; [|constructor].
  assert (Hgen : ∀ acc,
    Forall (λ i, ∃ rest, component i = "pod-hankook-" +:+ rest) acc →
    Forall (λ i, ∃ rest, component i = "pod-hankook-" +:+ rest)
           (fold_left (pod_issues now) items acc)).
  { induction items as [|pod items IH]; intros acc Hacc; [done|].
    simpl. apply IH. by apply pod_issues_components. }
  apply Hgen. constructor.
Qed.

(** X14.  Every issue [check_kubernetes_pods] reports names its component
    [pod-<name>] for a pod whose name starts with [hankook-], and the
    deployment the recovery actions derive from such a component is
    [hankook-hankook] whatever the pod: [restart_pod] then succeeds
    only if a deployment of that name exists, and patches it. *)
Theorem pod_issue_targets_hankook_hankook (pods : Py.outcome (list Pod))
    (now : nat → Z) (issue : HealthIssue) (w : World) :
  issue ∈ check_kubernetes_pods pods now →
  deployment_name_of (component issue) = "hankook-hankook" ∧
  (deployments w !! "hankook-hankook" = None →
   ∃ msg, restart_pod (component issue) w = (Py.Ok (false, msg), w)).
Proof.
  intros Hin.
  pose proof (check_pods_components pods now) as Hall.
  rewrite Forall_forall in Hall. destruct (Hall _ Hin) as [rest Hc].
  assert (Hname : deployment_name_of (component issue) = "hankook-hankook").
  { rewrite Hc. apply deployment_name_hankook. }
  split; [done|]. intros Hnone.
  unfold restart_pod. cbv zeta. rewrite Hname.
  unfold Py.try_catch, Py.bindM, call, patch_namespaced_deployment, Py.ret.
  rewrite Hnone. eexists. reflexivity.
Qed.

Lemma pod_issue_targets_hankook_hankook_witness :
  ∃ issue,
    issue ∈ check_kubernetes_pods
              (Py.Ok [ {| pod_name := "hankook-api-7d9f"; phase := "Pending";
                          container_statuses := None |} ]) (λ _, 0) ∧
    component issue = "pod-hankook-api-7d9f" ∧
    deployment_name_of (component issue) = "hankook-hankook".
Proof.
  eexists. split; [|split].
  - vm_compute. apply list_elem_of_here.
  - reflexivity.
  - exact (proj1 (pod_issue_targets_hankook_hankook
             (Py.Ok [ {| pod_name := "hankook-api-7d9f"; phase := "Pending";
                         container_statuses := None |} ]) (λ _, 0) _ sample_world
             (list_elem_of_here _ _))).
Defined.

End DeploymentNames.

(** ** The probes of the self-healing system *)

Section ProbeFacts.
Import SelfHealing.

Lemma rule_loop_elem sel c p (m : gmap string Q) now rules acc i :
  i ∈ fold_left (rule_step sel c p m now) rules acc →
  i ∈ acc ∨ ∃ n r t, (n, r) ∈ rules ∧ sel n = true ∧
                     rule_condition r m = true ∧ i = rule_issue c p n r t.
Proof.
  revert acc. induction rules as [|[n r] rules IH]; intros acc Hi; [by left|].
  simpl in Hi. apply IH in Hi as [Hi | (n' & r' & t & Hin & ? & ? & ->)].
  - destruct (sel n && rule_condition r m) eqn:E; [|by left].
    apply andb_true_iff in E as [Hs Hc].
    apply elem_of_app in Hi as [Hi | Hi]; [by left|].
    apply list_elem_of_singleton in Hi as ->. right.
    exists n, r, (now (length acc)). split; [left | done].
  - right. exists n', r', t. split; [by right | done].
Qed.

Lemma rule_loop_types sel c p (m : gmap string Q) now rules acc n :
  n ∈ map issue_type (fold_left (rule_step sel c p m now) rules acc) ↔
  n ∈ map issue_type acc ∨
  ∃ r, (n, r) ∈ rules ∧ sel n = true ∧ rule_condition r m = true.
Proof.
  revert acc. induction rules as [|[n' r'] rules IH]; intros acc.
  - simpl. split; [by left|]. intros [H | (r & H & _)]; [done|].
    by apply elem_of_nil in H.
  - simpl. rewrite IH. clear IH.
    destruct (sel n' && rule_condition r' m) eqn:E.
    + apply andb_true_iff in E as [Hs Hc].
      rewrite map_app, elem_of_app. simpl. rewrite list_elem_of_singleton.
      split.
      * intros [[H | ->] | (r & H & ?)]; [by left | | ].
        -- right. exists r'. split; [left | done].
        -- right. exists r. split; [by right | done].
      * intros [H | (r & H & Hs' & Hc')]; [by left; left|].
        apply elem_of_cons in H as [[= -> ->] | H]; [left; by right|].
        right. by exists r.
    + split.
      * intros [H | (r & H & ?)]; [by left|]. right. exists r.
        split; [by right | done].
      * intros [H | (r & H & Hs' & Hc')]; [by left|].
        apply elem_of_cons in H as [[= -> ->] | H].
        -- rewrite Hs', Hc' in E. done.
        -- right. by exists r.
Qed.

Lemma above_lookup key bound (m : gmap string Q) v :
  m !! key = Some v →
  above key bound m = true ↔ (bound < v)%Q.
Proof.
  intros H. unfold above. rewrite H. simpl.
  destruct (Qlt_le_dec bound v); split; try done. intros; lra.
Qed.

(** The entries of the rule table, one case each. *)
Ltac rule_cases H :=
  unfold recovery_rules in H;
  repeat (apply elem_of_cons in H as [H | H]);
  [simplify_eq .. | by apply elem_of_nil in H].

Lemma rule_severity_range n r :
  (n, r) ∈ recovery_rules → rule_severity r ∈ [WARNING; ERROR; CRITICAL].
Proof.
  intros H. rule_cases H; simpl;
    repeat (first [apply list_elem_of_here | apply list_elem_of_further]).
Qed.

Lemma system_metrics_lookup (cpu mem disk : Q) :
  let metrics : gmap string Q :=
    <["cpu_usage_percent" := cpu]>
    (<["memory_usage_percent" := mem]> (<["disk_usage_percent" := disk]> ∅)) in
  metrics !! "cpu_usage_percent" = Some cpu ∧
  metrics !! "memory_usage_percent" = Some mem ∧
  metrics !! "disk_usage_percent" = Some disk.
Proof.
  cbv zeta. split; [|split].
  - by rewrite lookup_insert_eq.
  - rewrite lookup_insert_ne by done. by rewrite lookup_insert_eq.
  - do 2 rewrite lookup_insert_ne by done. by rewrite lookup_insert_eq.
Qed.

(** X15.  [check_system_resources] selects rules by the keywords [cpu],
    [memory] and [disk], which also occur in the names of a Redis and a
    database rule.  So the probe reports [redis_memory_high] exactly
    when the memory of the host is above 90 percent and
    [database_disk_space] exactly when its disk is above 85 percent,
    both for the component [system-resources]; and the action planned
    first for the former, clearing the cache, always fails for that
    component and changes nothing. *)
Theorem system_probe_borrows_rules (cpu mem disk : Q) (now : nat → Z) :
  let issues := check_system_resources (Py.Ok (cpu, mem, disk)) now in
  (∀ i, i ∈ issues →
     component i = "system-resources" ∧
     issue_type i ∈ ["database_disk_space"; "redis_memory_high";
                     "high_cpu_usage"; "high_memory_usage";
                     "disk_space_critical"]) ∧
  ("redis_memory_high" ∈ map issue_type issues ↔ (90 < mem)%Q) ∧
  ("database_disk_space" ∈ map issue_type issues ↔ (85 < disk)%Q) ∧
  (∀ i (w : World), i ∈ issues → issue_type i = "redis_memory_high" →
     head (default [] (recovery_actions i)) = Some CLEAR_CACHE ∧
     dispatch (ops := self_ops) i CLEAR_CACHE w =
       (Py.Ok (false, "지원되지 않는 캐시 클리어: system-resources"), w)).
Proof.
  cbv zeta. unfold check_system_resources, rule_issues.
  destruct (system_metrics_lookup cpu mem disk) as (Hcpu & Hmem & Hdisk).
  set (metrics := <["cpu_usage_percent" := cpu]> _) in *.
  set (sel := λ rule_name : string, existsb _ _).
  split; [|split; [|split]].
  - intros i Hi. apply rule_loop_elem in Hi as [Hi | (n & r & t & Hin & Hs & _ & ->)];
      [by apply elem_of_nil in Hi|].
    split; [done|]. simpl.
    rule_cases Hin; try (vm_compute in Hs; discriminate Hs);
      repeat (first [apply list_elem_of_here | apply list_elem_of_further]).
  - rewrite rule_loop_types. split.
    + intros [H | (r & Hin & _ & Hc)]; [by apply elem_of_nil in H|].
      rule_cases Hin. simpl in Hc. by apply (above_lookup _ _ _ _ Hmem).
    + intros H. right. eexists. split; [|split].
      * do 6 apply list_elem_of_further. apply list_elem_of_here.
      * by vm_compute.
      * simpl. by apply (above_lookup _ _ _ _ Hmem).
  - rewrite rule_loop_types. split.
    + intros [H | (r & Hin & _ & Hc)]; [by apply elem_of_nil in H|].
      rule_cases Hin. simpl in Hc. by apply (above_lookup _ _ _ _ Hdisk).
    + intros H. right. eexists. split; [|split].
      * do 5 apply list_elem_of_further. apply list_elem_of_here.
      * by vm_compute.
      * simpl. by apply (above_lookup _ _ _ _ Hdisk).
  - intros i w Hi Hty.
    apply rule_loop_elem in Hi as [Hi | (n & r & t & Hin & _ & _ & ->)];
      [by apply elem_of_nil in Hi|].
    simpl in Hty. subst n. rule_cases Hin. split; reflexivity.
Qed.

Lemma system_probe_borrows_rules_witness :
  "redis_memory_high" ∈
    map issue_type (check_system_resources (Py.Ok (50, 95, 60)%Q) (λ _, 0)).
Proof.
  apply (system_probe_borrows_rules 50 95 60 (λ _, 0)). reflexivity.
Defined.

Lemma rule_issues_types_nil sel c p (m : gmap string Q) now n :
  n ∈ map issue_type (rule_issues sel c p m now) ↔
  ∃ r, (n, r) ∈ recovery_rules ∧ sel n = true ∧ rule_condition r m = true.
Proof.
  unfold rule_issues. rewrite rule_loop_types. split; [|by right].
  intros [H | H]; [by apply elem_of_nil in H | done].
Qed.

Lemma rule_issues_elem sel c p (m : gmap string Q) now i :
  i ∈ rule_issues sel c p m now →
  ∃ n r t, (n, r) ∈ recovery_rules ∧ sel n = true ∧
           rule_condition r m = true ∧ i = rule_issue c p n r t.
Proof.
  intros H. apply rule_loop_elem in H as [H | H]; [by apply elem_of_nil in H | done].
Qed.

Lemma database_rule_issues (m : gmap string Q) now i :
  m !! "disk_usage_percent" = Some 70%Q →
  i ∈ rule_issues (Py.contains "database") "database"
        "데이터베이스 이슈 감지: " m now →
  component i = "database" ∧
  issue_type i ∈ ["database_high_connections"; "database_deadlocks"].
Proof.
  intros Hdisk Hi.
  apply rule_issues_elem in Hi as (n & r & t & Hin & Hs & Hc & ->).
  split; [done|]. simpl.
  rule_cases Hin; try (vm_compute in Hs; discriminate Hs);
    try (repeat (first [apply list_elem_of_here | apply list_elem_of_further]); fail).
  simpl in Hc. apply (above_lookup _ _ _ _ Hdisk) in Hc. lra.
Qed.

(** X16.  [check_database_health] feeds the constant 70 to the rules as disk
    usage, so it never reports [database_disk_space]: its issues are
    [database_high_connections], [database_deadlocks] and
    [connection_error], all for the component [database], and
    [connection_error] is reported exactly when the queries or the
    closing of the connection raise. *)
Theorem database_probe_issue_types (stats : Py.outcome DatabaseStats)
    (now : nat → Z) :
  let issues := check_database_health stats now in
  (∀ i, i ∈ issues →
     component i = "database" ∧
     issue_type i ∈ ["database_high_connections"; "database_deadlocks";
                     "connection_error"]) ∧
  ("database_disk_space" ∉ map issue_type issues) ∧
  ("connection_error" ∈ map issue_type issues ↔
     (∃ e, stats = Py.Raise e) ∨
     (∃ st e, stats = Py.Ok st ∧ db_close st = Py.Raise e)).
Proof.
  cbv zeta.
  assert (Hall : ∀ i, i ∈ check_database_health stats now →
     component i = "database" ∧
     issue_type i ∈ ["database_high_connections"; "database_deadlocks";
                     "connection_error"]).
  { intros i Hi. unfold check_database_health in Hi. cbv zeta in Hi.
    destruct stats as [st|e].
    - set (metrics := <["active_connections" := _]> _) in Hi.
      assert (Hdisk : metrics !! "disk_usage_percent" = Some 70%Q).
      { unfold metrics. do 3 rewrite lookup_insert_ne by done.
        by rewrite lookup_insert_eq. }
      assert (Hrule : ∀ j, j ∈ rule_issues (Py.contains "database") "database"
                 "데이터베이스 이슈 감지: " metrics now →
          component j = "database" ∧
          issue_type j ∈ ["database_high_connections"; "database_deadlocks";
                          "connection_error"]).
      { intros j Hj. destruct (database_rule_issues _ _ _ Hdisk Hj) as [? Hty].
        split; [done|].
        apply elem_of_cons in Hty as [-> | Hty]; [left|].
        apply list_elem_of_singleton in Hty as ->. right; left. }
      destruct (db_close st) as [[]|e]; [by apply Hrule|].
      apply elem_of_app in Hi as [Hi | Hi]; [by apply Hrule|].
      apply list_elem_of_singleton in Hi as ->. split; [done|].
      simpl. do 2 right. left.
    - apply list_elem_of_singleton in Hi as ->. split; [done|].
      simpl. do 2 right. left. }
  split; [done|]. split.
  - intros (i & Hty & Hi)%list_elem_of_fmap.
    destruct (Hall i Hi) as [_ H]. rewrite <- Hty in H.
    repeat (apply elem_of_cons in H as [H | H]; [discriminate H|]).
    by apply elem_of_nil in H.
  - unfold check_database_health. cbv zeta.
    destruct stats as [st|e].
    + set (metrics := <["active_connections" := _]> _).
      assert (Hno : "connection_error" ∉
                map issue_type (rule_issues (Py.contains "database") "database"
                  "데이터베이스 이슈 감지: " metrics now)).
      { rewrite rule_issues_types_nil. intros (r & Hin & _). rule_cases Hin. }
      destruct (db_close st) as [[]|e] eqn:Hclose.
      * split; [done|]. intros [[e He] | (st' & e & [= <-] & He)]; [done|].
        rewrite Hclose in He. done.
      * split; [|intros _; rewrite map_app, elem_of_app; right; left].
        intros _. right. by exists st, e.
    + split; [intros _; left; by exists e | intros _; left].
Qed.

Lemma database_probe_issue_types_witness :
  "connection_error" ∈
    map issue_type
      (check_database_health (Py.Raise (Py.ConnectionError "timeout")) (λ _, 0)).
Proof.
  apply (database_probe_issue_types (Py.Raise (Py.ConnectionError "timeout")) (λ _, 0)).
  left. by eexists.
Defined.

Lemma redis_outage_issue (e : ProbeError) (now : nat → Z) :
  "redis_memory_high" ∉
    map issue_type
      [probe_failed "redis" "connection_error" CRITICAL
         ("Redis 연결 오류: " +:+ probe_error_str e) (now O) [RESTART_SERVICE]].
Proof.
  simpl. intros H. apply list_elem_of_singleton in H. discriminate H.
Qed.

(** X17.  [check_redis_health] divides the used memory by [maxmemory].  A
    server without a memory limit reports [maxmemory = 0]: the division
    raises, and the probe reports a critical [connection_error] of the
    component [redis], to be answered by a restart, although the server
    answered.  When [maxmemory] is missing from the reply, the divisor
    is twice the used memory, the usage is 50 percent whatever the
    memory, and [redis_memory_high] is never reported. *)
Theorem redis_probe_memory_limit (info : gmap string Z) (used : Z)
    (now : nat → Z) :
  info !! "used_memory" = Some used →
  (info !! "maxmemory" = Some 0 →
     check_redis_health (Py.Ok info) now =
       [probe_failed "redis" "connection_error" CRITICAL
          "Redis 연결 오류: division by zero" (now O) [RESTART_SERVICE]]) ∧
  (info !! "maxmemory" = None →
     "redis_memory_high" ∉ map issue_type (check_redis_health (Py.Ok info) now)).
Proof.
  intros Hused. unfold check_redis_health, redis_metrics, subscript.
  rewrite Hused. cbv zeta. split.
  - intros Hmax. rewrite Hmax. reflexivity.
  - intros Hmax. rewrite Hmax. simpl default.
    destruct (Z.eqb_spec (used * 2) 0) as [|Hne]; [apply redis_outage_issue|].
    destruct (info !! "connected_clients") as [clients|]; [|apply redis_outage_issue].
    destruct (info !! "keyspace_hits") as [hits|]; [|apply redis_outage_issue].
    destruct (info !! "keyspace_misses") as [misses|]; [|apply redis_outage_issue].
    set (metrics := <["memory_usage_percent" := _]> _).
    rewrite rule_issues_types_nil. intros (r & Hin & _ & Hc).
    rule_cases Hin. simpl in Hc.
    assert (Hm : metrics !! "memory_usage_percent" =
                 Some (inject_Z used / inject_Z (used * 2) * 100)%Q).
    { unfold metrics. by rewrite lookup_insert_eq. }
    apply (above_lookup _ _ _ _ Hm) in Hc.
    assert (Hu : ¬ (inject_Z used == 0)%Q).
    { unfold Qeq. simpl. lia. }
    assert (Hhalf : (inject_Z used / inject_Z (used * 2) * 100 == 50)%Q).
    { rewrite inject_Z_mult. change (inject_Z 2) with 2%Q. field. exact Hu. }
    rewrite Hhalf in Hc. lra.
Qed.

Lemma redis_probe_memory_limit_witness :
  check_redis_health
    (Py.Ok (<["used_memory" := 1048576]> (<["maxmemory" := 0]> ∅))) (λ _, 0) =
    [probe_failed "redis" "connection_error" CRITICAL
       "Redis 연결 오류: division by zero" 0 [RESTART_SERVICE]].
Proof.
  apply (redis_probe_memory_limit
           (<["used_memory" := 1048576]> (<["maxmemory" := 0]> ∅)) 1048576 (λ _, 0));
    reflexivity.
Defined.

Lemma sensor_issues_not_recoverable format_percent response now i :
  i ∈ check_sensor_connectivity format_percent response now →
  component i = "sensor-network" ∧ auto_recoverable i = false ∧
  severity i ∈ [WARNING; ERROR; CRITICAL].
Proof.
  unfold check_sensor_connectivity.
  repeat case_innermost; intros Hi; try (by apply elem_of_nil in Hi);
    apply list_elem_of_singleton in Hi as ->; simpl;
    (split; [done | split; [done|]]);
    repeat (first [apply list_elem_of_here | apply list_elem_of_further]).
Qed.

(** X18.  [check_sensor_connectivity] reports at most one issue, for the
    component [sensor-network], and marks it as not auto-recoverable:
    a scan that holds only the issues of this probe yields an empty
    recovery plan and leaves the cooldown ledger and the clock
    untouched. *)
Theorem sensor_issue_never_planned (format_percent : Q → string)
    (response : Py.outcome (Z * Py.outcome (gmap string Z)))
    (now clock : nat → Z) (st : PlannerState) :
  let issues := check_sensor_connectivity format_percent response now in
  (length issues ≤ 1)%nat ∧
  (∀ i, i ∈ issues →
     component i = "sensor-network" ∧ auto_recoverable i = false) ∧
  analyze_and_plan_recovery clock issues st = ([], st).
Proof.
  cbv zeta. split; [|split].
  - unfold check_sensor_connectivity. repeat case_innermost; simpl; lia.
  - intros i Hi.
    by destruct (sensor_issues_not_recoverable _ _ _ _ Hi) as (? & ? & _).
  - unfold analyze_and_plan_recovery, analyze_and_plan_recovery_traced.
    rewrite <- plan_loop_filter.
    rewrite (sorted_desc_filter_comm severity_ltb severity_ltb_asym
               severity_ltb_negtrans).
    rewrite filter_recoverable_nil; [done|].
    intros i Hi.
    by destruct (sensor_issues_not_recoverable _ _ _ _ Hi) as (_ & ? & _).
Qed.

Lemma sensor_issue_never_planned_witness :
  analyze_and_plan_recovery sample_clock
    (check_sensor_connectivity (λ _, "60.0%")
       (Py.Ok (200, Py.Ok (<["total_sensors" := 10]> (<["offline_sensors" := 6]> ∅))))
       (λ _, 0))
    (initial_state 0) = ([], initial_state 0).
Proof.
  apply (sensor_issue_never_planned (λ _, "60.0%")
           (Py.Ok (200, Py.Ok (<["total_sensors" := 10]> (<["offline_sensors" := 6]> ∅))))
           (λ _, 0) sample_clock (initial_state 0)).
Defined.

Lemma rule_issues_severity sel c p (m : gmap string Q) now i :
  i ∈ rule_issues sel c p m now → severity i ∈ [WARNING; ERROR; CRITICAL].
Proof.
  intros Hi. apply rule_issues_elem in Hi as (n & r & t & Hin & _ & _ & ->).
  simpl. by eapply rule_severity_range.
Qed.

Lemma pod_issues_severity now issues pod :
  Forall (λ i, severity i ∈ [WARNING; ERROR; CRITICAL]) issues →
  Forall (λ i, severity i ∈ [WARNING; ERROR; CRITICAL]) (pod_issues now issues pod).
Proof.
  intros H. unfold pod_issues.
  repeat case_innermost; rewrite ?Forall_app, ?Forall_singleton; simpl;
    repeat split; try done;
    repeat (first [apply list_elem_of_here | apply list_elem_of_further]).
Qed.

Lemma check_pods_severity pods now :
  Forall (λ i, severity i ∈ [WARNING; ERROR; CRITICAL])
         (check_kubernetes_pods pods now).
Proof.
  unfold check_kubernetes_pods. destruct pods as [items|e]; [|constructor].
  assert (Hgen : ∀ acc,
    Forall (λ i, severity i ∈ [WARNING; ERROR; CRITICAL]) acc →
    Forall (λ i, severity i ∈ [WARNING; ERROR; CRITICAL])
           (fold_left (pod_issues now) items acc)).
  { induction items as [|pod items IH]; intros acc Hacc; [done|].
    simpl. apply IH. by apply pod_issues_severity. }
  apply Hgen. constructor.
Qed.

Lemma probe_severities py_float format_percent api mqtt database redis pods
    usage sensors now i :
  i ∈ perform_comprehensive_health_check py_float format_percent api mqtt
        database redis pods usage sensors now →
  severity i ∈ [WARNING; ERROR; CRITICAL].
Proof.
  unfold perform_comprehensive_health_check.
  rewrite !elem_of_app.
  intros [H | [H | [H | [H | [H | [H | H]]]]]].
  - revert H. unfold check_api_health. cbv zeta.
    repeat case_innermost; intros H;
      first [ by eapply rule_issues_severity
            | apply list_elem_of_singleton in H as ->; simpl;
              repeat (first [apply list_elem_of_here | apply list_elem_of_further]) ].
  - revert H. unfold check_database_health. cbv zeta.
    repeat case_innermost; intros H;
      first [ by eapply rule_issues_severity
            | apply list_elem_of_singleton in H as ->; simpl;
              repeat (first [apply list_elem_of_here | apply list_elem_of_further])
            | apply elem_of_app in H as [H | H];
              [ by eapply rule_issues_severity
              | apply list_elem_of_singleton in H as ->; simpl;
                repeat (first [apply list_elem_of_here | apply list_elem_of_further]) ] ].
  - revert H. unfold check_redis_health. cbv zeta.
    repeat case_innermost; intros H;
      first [ by eapply rule_issues_severity
            | apply list_elem_of_singleton in H as ->; simpl;
              repeat (first [apply list_elem_of_here | apply list_elem_of_further]) ].
  - revert H. unfold check_mqtt_health. cbv zeta.
    repeat case_innermost; intros H;
      first [ by eapply rule_issues_severity
            | by apply elem_of_nil in H
            | apply list_elem_of_singleton in H as ->; simpl;
              repeat (first [apply list_elem_of_here | apply list_elem_of_further]) ].
  - pose proof (check_pods_severity pods (now 4%nat)) as Hall.
    rewrite Forall_forall in Hall. by apply Hall.
  - revert H. unfold check_system_resources.
    repeat case_innermost; intros H;
      first [ by eapply rule_issues_severity | by apply elem_of_nil in H ].
  - by destruct (sensor_issues_not_recoverable _ _ _ _ H) as (_ & _ & ?).
Qed.

Lemma total_impact_bound (l : list HealthIssue) :
  (∀ i, i ∈ l → severity i ∈ [WARNING; ERROR; CRITICAL]) →
  (total_impact l <= (8 # 10) * inject_Z (Z.of_nat (length l)))%Q.
Proof.
  induction l as [|i l IH]; intros Hall.
  - unfold total_impact, Py.sum, Qle. simpl. lia.
  - rewrite total_impact_cons.
    assert (Hl : (total_impact l <= (8 # 10) * inject_Z (Z.of_nat (length l)))%Q).
    { apply IH. intros j Hj. apply Hall. by right. }
    assert (Hi : (severity_weights (severity i) <= 8 # 10)%Q).
    { specialize (Hall i (list_elem_of_here _ _)).
      repeat (apply elem_of_cons in Hall as [-> | Hall]; [simpl; lra|]).
      by apply elem_of_nil in Hall. }
    change (length (i :: l)) with (S (length l)).
    rewrite Nat2Z.inj_succ. unfold Z.succ. rewrite inject_Z_plus.
    change (inject_Z 1) with 1%Q. lra.
Qed.

(** X19.  A scan of the seven probes never holds an issue of severity [INFO]
    or [EMERGENCY]: every issue weighs between 0.3 and 0.8.  So the
    status [update_system_status] stores for the scan is [healthy] with
    up to two issues, whatever they are, and [critical] only with seven
    issues or more. *)
Theorem probe_scan_system_status (py_float : string → option Q)
    (format_percent : Q → string)
    (api mqtt : Py.outcome (Z * Py.outcome string))
    (database : Py.outcome DatabaseStats)
    (redis : Py.outcome (gmap string Z))
    (pods : Py.outcome (list Pod))
    (usage : Py.outcome (Q * Q * Q))
    (sensors : Py.outcome (Z * Py.outcome (gmap string Z)))
    (now : nat → nat → Z) :
  let issues :=
    perform_comprehensive_health_check py_float format_percent api mqtt
      database redis pods usage sensors now in
  let status := sd_system_status (snd (update_system_status issues)) in
  (∀ i, i ∈ issues → severity i ∈ [WARNING; ERROR; CRITICAL]) ∧
  ((length issues ≤ 2)%nat → status = healthy) ∧
  (status = critical → (7 ≤ length issues)%nat).
Proof.
  cbv zeta.
  set (issues := perform_comprehensive_health_check _ _ _ _ _ _ _ _ _ _).
  assert (Hsev : ∀ i, i ∈ issues → severity i ∈ [WARNING; ERROR; CRITICAL]).
  { intros i. apply probe_severities. }
  pose proof (total_impact_bound issues Hsev) as Hbound.
  split; [done|]. unfold update_system_status. cbn [snd sd_system_status].
  assert (Hscore : issues ≠ [] →
    (100 - total_impact issues * 10 <= health_score issues)%Q).
  { intros Hne. rewrite (health_score_formula issues Hne).
    apply py_max_spec. }
  split.
  - intros Hlen. destruct (Qlt_le_dec 80 (health_score issues)) as [|Hle]; [done|].
    exfalso. destruct issues as [|i0 rest] eqn:E.
    + unfold health_score in Hle. lra.
    + rewrite <- E in *. assert (Hne : issues ≠ []) by (by rewrite E).
      specialize (Hscore Hne).
      assert (inject_Z (Z.of_nat (length issues)) <= inject_Z 2)%Q.
      { rewrite <- Zle_Qle. lia. }
      change (inject_Z 2) with 2%Q in *. lra.
  - destruct (Qlt_le_dec 80 (health_score issues)) as [|H80]; [done|].
    destruct (Qlt_le_dec 50 (health_score issues)) as [|H50]; [done|].
    intros _. destruct (le_lt_dec 7 (length issues)) as [|Hlt]; [done|].
    exfalso. destruct issues as [|i0 rest] eqn:E.
    + unfold health_score in H50. lra.
    + rewrite <- E in *. assert (Hne : issues ≠ []) by (by rewrite E).
      specialize (Hscore Hne).
      assert (inject_Z (Z.of_nat (length issues)) <= inject_Z 6)%Q.
      { rewrite <- Zle_Qle. lia. }
      change (inject_Z 6) with 6%Q in *. lra.
Qed.

Lemma probe_scan_system_status_witness :
  sd_system_status
    (snd (update_system_status
       (perform_comprehensive_health_check sample_float (λ _, "")
          (Py.Raise (Py.ConnectionError "refused"))
          (Py.Ok (503, Py.Ok ""))
          (Py.Raise (Py.ConnectionError "refused"))
          (Py.Ok (<["used_memory" := 10]> (<["maxmemory" := 100]>
                 (<["connected_clients" := 3]> (<["keyspace_hits" := 0]>
                 (<["keyspace_misses" := 0]> ∅))))))
          (Py.Ok []) (Py.Ok (10, 20, 30)%Q)
          (Py.Raise (Py.ConnectionError "refused")) (λ _ _, 0)))) = healthy.
Proof.
  apply (probe_scan_system_status sample_float (λ _, "")
          (Py.Raise (Py.ConnectionError "refused"))
          (Py.Ok (503, Py.Ok ""))
          (Py.Raise (Py.ConnectionError "refused"))
          (Py.Ok (<["used_memory" := 10]> (<["maxmemory" := 100]>
                 (<["connected_clients" := 3]> (<["keyspace_hits" := 0]>
                 (<["keyspace_misses" := 0]> ∅))))))
          (Py.Ok []) (Py.Ok (10, 20, 30)%Q)
          (Py.Raise (Py.ConnectionError "refused")) (λ _ _, 0)).
  vm_compute. lia.
Defined.

End ProbeFacts.

(** ** The recovery actions and the world *)

Section ActionFacts.
Import SelfHealing.

Ltac unfold_actions :=
  unfold restart_service, restart_pod, scale_deployment, clear_cache,
    rotate_logs, update_config, perform_failover, activate_circuit_breaker,
    cleanup_resources, rebalance_load, Py.try_catch, Py.bindM, Py.ret, call,
    read_namespaced_deployment, patch_namespaced_deployment.

Lemma insert_body_lookup (w : World) name d body n :
  deployments w !! name = Some d →
  (n ≠ name → <[name := body d]> (deployments w) !! n = deployments w !! n) ∧
  (is_Some (<[name := body d]> (deployments w) !! n) ↔ is_Some (deployments w !! n)).
Proof.
  intros Hd. split.
  - intros Hne. by rewrite lookup_insert_ne.
  - destruct (decide (n = name)) as [->|Hne].
    + rewrite lookup_insert_eq, Hd. split; eauto.
    + by rewrite lookup_insert_ne.
Qed.

Lemma restart_pod_world component w :
  snd (restart_pod component w) =
    match deployments w !! deployment_name_of component with
    | Some d =>
        set_deployments w
          (<[deployment_name_of component := body_restart (wall_clock w) d]>
             (deployments w))
    | None => w
    end.
Proof. unfold_actions. cbv zeta. simpl. by destruct (deployments w !! _). Qed.

Lemma scale_deployment_world component scale_up w :
  snd (scale_deployment component scale_up w) =
    match deployments w !! deployment_name_of component with
    | Some d =>
        if reactive_target scale_up (replicas d) =? replicas d then w
        else set_deployments w
               (<[deployment_name_of component :=
                    body_replicas (reactive_target scale_up (replicas d)) d]>
                  (deployments w))
    | None => w
    end.
Proof.
  unfold_actions. cbv zeta. unfold reactive_target.
  destruct (deployments w !! _) as [d|] eqn:Hd; simpl; [|done].
  destruct (_ =? _); simpl; [done|]. by rewrite Hd.
Qed.

(** The other actions leave the modelled state, the deployments and the
    circuit breakers, as it is; what they do to the Redis contents, the
    database rows and the images is not state of [World]. *)
Lemma other_actions_keep_orchestrator component w :
  snd (clear_cache component w) = w ∧ snd (rotate_logs component w) = w ∧
  snd (update_config component w) = w ∧ snd (perform_failover component w) = w ∧
  snd (cleanup_resources component w) = w ∧ snd (rebalance_load component w) = w.
Proof. unfold_actions. repeat split; repeat case_innermost; done. Qed.

Lemma patched_lookup (w : World) name d (body : Deployment → Deployment)
    {A} (f : Deployment → A) n :
  deployments w !! name = Some d → f (body d) = f d →
  f <$> <[name := body d]> (deployments w) !! n = f <$> deployments w !! n.
Proof.
  intros Hd Hf. destruct (decide (n = name)) as [->|Hne].
  - rewrite lookup_insert_eq, Hd. simpl. by rewrite Hf.
  - by rewrite lookup_insert_ne.
Qed.

Lemma dispatch_keeps_deployments (issue : HealthIssue) (action : RecoveryAction)
    (w : World) n :
  is_Some (deployments (snd (dispatch (ops := self_ops) issue action w)) !! n)
  ↔ is_Some (deployments w !! n).
Proof.
  destruct (other_actions_keep_orchestrator (component issue) w) as (Hc & Hr & Hu & Hf & Hcl & Hrb).
  pose proof (restart_pod_world (component issue) w) as Hrp.
  pose proof (scale_deployment_world (component issue) true w) as Hup.
  pose proof (scale_deployment_world (component issue) false w) as Hdown.
  set (name := deployment_name_of (component issue)) in *.
  destruct action; simpl; unfold restart_service;
    rewrite ?Hc, ?Hr, ?Hu, ?Hf, ?Hcl, ?Hrb, ?Hrp, ?Hup, ?Hdown;
    clear Hrp Hup Hdown;
    try (destruct (deployments w !! name) as [d|] eqn:Hd);
    try match goal with |- context [?a =? ?b] => destruct (a =? b) end;
    first [done | by eapply insert_body_lookup].
Qed.

(** X20.  What a recovery action of the class leaves alone.  No action
    creates or deletes a deployment, and none touches a deployment other
    than the one derived from the component of the issue; only the two
    scaling actions change a replica count, only the two restart
    actions change a restart annotation, and only the circuit breaker
    action changes the circuit breakers. *)
Theorem recovery_action_frame (issue : HealthIssue) (action : RecoveryAction)
    (w : World) :
  let w' := snd (dispatch (ops := self_ops) issue action w) in
  (∀ n, is_Some (deployments w' !! n) ↔ is_Some (deployments w !! n)) ∧
  (∀ n, n ≠ deployment_name_of (component issue) →
        deployments w' !! n = deployments w !! n) ∧
  (action ≠ SCALE_UP → action ≠ SCALE_DOWN →
     ∀ n, replica_count w' n = replica_count w n) ∧
  (action ≠ RESTART_POD → action ≠ RESTART_SERVICE →
     ∀ n, restarted_at <$> deployments w' !! n = restarted_at <$> deployments w !! n) ∧
  (action ≠ CIRCUIT_BREAKER → circuit_breakers w' = circuit_breakers w).
Proof.
  cbv zeta.
  destruct (other_actions_keep_orchestrator (component issue) w) as (Hc & Hr & Hu & Hf & Hcl & Hrb).
  pose proof (restart_pod_world (component issue) w) as Hrp.
  pose proof (scale_deployment_world (component issue) true w) as Hup.
  pose proof (scale_deployment_world (component issue) false w) as Hdown.
  set (name := deployment_name_of (component issue)) in *.
  destruct action; simpl; unfold restart_service;
    rewrite ?Hc, ?Hr, ?Hu, ?Hf, ?Hcl, ?Hrb, ?Hrp, ?Hup, ?Hdown;
    clear Hrp Hup Hdown;
    try (destruct (deployments w !! name) as [d|] eqn:Hd);
    try match goal with |- context [?a =? ?b] => destruct (a =? b) end;
    (split; [intros n; first [done | by eapply insert_body_lookup] |
     split; [intros n Hn; first [done | by eapply insert_body_lookup] |
     split; [intros H1 H2 n;
             first [done | apply (patched_lookup w name d _ replicas n Hd); done] |
     split; [intros H1 H2 n;
             first [done | apply (patched_lookup w name d _ restarted_at n Hd); done]
            | intros H1; done]]]]).
Qed.

Lemma recovery_action_frame_witness :
  circuit_breakers (snd (dispatch (ops := self_ops) emergency_issue SCALE_UP sample_world))
    = circuit_breakers sample_world.
Proof.
  by apply (recovery_action_frame emergency_issue SCALE_UP sample_world).
Defined.

(** X21.  Scaling a deployment up and then down: with 1 to 9 replicas the
    two steps cancel and every replica count is as before; with 10
    replicas the first step does nothing and the second leaves 9. *)
Theorem scale_up_down_round_trip (component : string) (w : World) (current : Z) :
  replica_count w (deployment_name_of component) = Some current →
  1 ≤ current ≤ 10 →
  let w1 := snd (scale_deployment component true w) in
  let w2 := snd (scale_deployment component false w1) in
  replica_count w1 (deployment_name_of component) = Some (Z.min (current + 1) 10) ∧
  replica_count w2 (deployment_name_of component) = Some (Z.min current 9) ∧
  ∀ other, other ≠ deployment_name_of component →
           replica_count w2 other = replica_count w other.
Proof.
  intros Hcur Hrange w1 w2.
  destruct (scale_deployment_spec component true w) as [_ H1].
  destruct (scale_deployment_spec component false w1) as [_ H2].
  fold w1 in H1. fold w2 in H2. cbv zeta in H1, H2.
  assert (Hw1 : replica_count w1 (deployment_name_of component)
                = Some (Z.min (current + 1) 10)).
  { rewrite H1, decide_True by done. by rewrite Hcur. }
  split; [done|]. split.
  - rewrite H2, decide_True by done. rewrite Hw1. simpl. f_equal. lia.
  - intros other Hne. rewrite H2, decide_False by done.
    by rewrite H1, decide_False.
Qed.

Lemma scale_up_down_round_trip_witness :
  replica_count
    (snd (scale_deployment "frontend" false
            (snd (scale_deployment "frontend" true sample_world))))
    "hankook-frontend" = Some 2.
Proof.
  destruct (scale_up_down_round_trip "frontend" sample_world 2) as (_ & H & _);
    [reflexivity | lia | exact H].
Defined.

(** X22.  The actions that work on the cache, the logs and the resources
    never raise: each returns a pair.  [cleanup_resources] fails
    exactly when the component names the database and the database call
    raises; a failure of the Docker client is swallowed.  [rotate_logs]
    fails exactly under the same condition for its own database call.
    [clear_cache] succeeds exactly when the component names Redis and
    the flush returns, or names the API (and not Redis) and the HTTP
    status is 200. *)
Theorem cache_log_cleanup_outcome (component : string) (w : World) :
  (∃ ok msg, fst (cleanup_resources component w) = Py.Ok (ok, msg) ∧
     (ok = false ↔ Py.contains "database" component = true ∧
                   ∃ e, pg_system_health w = Py.Raise e)) ∧
  (∃ ok msg, fst (rotate_logs component w) = Py.Ok (ok, msg) ∧
     (ok = false ↔ Py.contains "database" component = true ∧
                   ∃ e, pg_activity_logs w = Py.Raise e)) ∧
  (∃ ok msg, fst (clear_cache component w) = Py.Ok (ok, msg) ∧
     (ok = true ↔
        (Py.contains "redis" component = true ∧ redis_flushdb w = Py.Ok ()) ∨
        (Py.contains "redis" component = false ∧
         Py.contains "api" component = true ∧ api_clear_cache w = Py.Ok 200))).
Proof.
  split; [|split]; unfold_actions.
  - destruct (Py.contains "database" component) eqn:Edb;
      destruct (pg_system_health w) as [rows|e] eqn:Epg;
      repeat case_innermost; eexists _, _; (split; [reflexivity|]);
      split; try done; try (intros [? [? ?]]; done); eauto.
  - destruct (Py.contains "database" component) eqn:Edb;
      destruct (pg_activity_logs w) as [rows|e] eqn:Epg;
      repeat case_innermost; eexists _, _; (split; [reflexivity|]);
      split; try done; try (intros [? [? ?]]; done); eauto.
  - destruct (Py.contains "redis" component) eqn:Er;
      destruct (Py.contains "api" component) eqn:Ea;
      destruct (redis_flushdb w) as [[]|e1] eqn:Ef;
      destruct (api_clear_cache w) as [status|e2] eqn:Es; simpl;
      try destruct (Z.eqb_spec status 200) as [->|Hne];
      eexists _, _; (split; [reflexivity|]);
      split; try done; try tauto;
      try (intros [[? ?] | (? & ? & ?)]; congruence).
Qed.

End ActionFacts.

(** ** The order of the recovery plan *)

Section PlanOrder.
Import SelfHealing.
Variable clock : nat → Z.

Lemma plan_loop_sublist issues acc :
  ∃ picked,
    map adm_issue (fst (fold_left (plan_step clock) issues acc)) =
      map adm_issue (fst acc) ++ picked ∧
    picked `sublist_of` issues.
Proof.
  revert acc. induction issues as [|i issues IH]; intros acc.
  - exists []. simpl. by rewrite app_nil_r.
  - simpl. destruct (IH (plan_step clock acc i)) as (picked & Heq & Hsub).
    rewrite Heq. unfold plan_step.
    destruct (plan_issue_spec clock i (snd acc)) as (_ & Hadm & _).
    destruct (plan_issue clock i (snd acc)) as [[e|] st']; simpl in *.
    + destruct (Hadm e eq_refl) as (He & _).
      exists (i :: picked). rewrite map_app, <- app_assoc. simpl. rewrite He.
      split; [done | by apply sublist_skip].
    + exists picked. split; [done | by apply sublist_cons].
Qed.

Lemma plan_loop_first_action issues acc :
  Forall (λ e, head (default [] (recovery_actions (adm_issue e)))
               = Some (adm_action e)) (fst acc) →
  Forall (λ e, head (default [] (recovery_actions (adm_issue e)))
               = Some (adm_action e))
         (fst (fold_left (plan_step clock) issues acc)).
Proof.
  revert acc. induction issues as [|i issues IH]; intros acc Hacc; [done|].
  simpl. apply IH. unfold plan_step.
  destruct (plan_issue_spec clock i (snd acc)) as (_ & Hadm & _).
  destruct (plan_issue clock i (snd acc)) as [[e|] st']; simpl in *; [|done].
  destruct (Hadm e eq_refl) as (He & Hact & _).
  rewrite Forall_app, Forall_singleton. split; [done|]. by rewrite He.
Qed.

Lemma Forall_sublist {A} (P : A → Prop) (l1 l2 : list A) :
  l1 `sublist_of` l2 → Forall P l2 → Forall P l1.
Proof.
  induction 1 as [|x l1 l2 _ IH|x l1 l2 _ IH]; intros H; [done| |].
  - apply Forall_cons in H as [? ?]. constructor; auto.
  - apply Forall_cons in H as [? ?]. auto.
Qed.

Lemma strongly_sorted_sublist {A} (R : A → A → Prop) (l1 l2 : list A) :
  l1 `sublist_of` l2 → StronglySorted R l2 → StronglySorted R l1.
Proof.
  induction 1 as [|x l1 l2 Hsub IH|x l1 l2 Hsub IH]; intros H; [done| |].
  - inversion H as [|? ? Hs Hx]; subst. constructor; [by apply IH|].
    by eapply Forall_sublist.
  - inversion H as [|? ? Hs Hx]; subst. by apply IH.
Qed.

End PlanOrder.

Section PlanOrderClaim.
Import SelfHealing.

(** X23.  The recovery plan lists its issues in the order of the scan sorted
    by descending severity, each at most as often as the scan holds it;
    so a more severe issue always comes before a less severe one.  The
    action planned for an issue is always the first of its recovery
    actions: the later ones are never chosen. *)
Theorem plan_follows_severity (clock : nat → Z)
    (health_issues : list HealthIssue) (st : PlannerState) :
  let plan := fst (analyze_and_plan_recovery clock health_issues st) in
  map fst plan `sublist_of` Py.sorted_desc severity_ltb health_issues ∧
  StronglySorted
    (λ a b, severity_value (severity b) ≤ severity_value (severity a))
    (map fst plan) ∧
  (∀ issue action, (issue, action) ∈ plan →
     head (default [] (recovery_actions issue)) = Some action).
Proof.
  cbv zeta. unfold analyze_and_plan_recovery, analyze_and_plan_recovery_traced.
  set (sorted := Py.sorted_desc severity_ltb health_issues).
  destruct (plan_loop_sublist clock sorted ([], st)) as (picked & Heq & Hsub).
  pose proof (plan_loop_first_action clock sorted ([], st) (Forall_nil_2 _)) as Hfirst.
  destruct (fold_left _ _ _) as [log st'] eqn:Hrun. simpl in *.
  assert (Hmap : map fst (map (λ e, (adm_issue e, adm_action e)) log) = picked).
  { rewrite map_map. simpl. exact Heq. }
  rewrite Hmap. split; [done|]. split.
  - eapply strongly_sorted_sublist; [exact Hsub|].
    eapply strongly_sorted_mono; [|apply (sorted_desc_sorted severity_ltb)].
    + intros a b. unfold severity_ltb. rewrite Z.ltb_ge. done.
    + apply severity_ltb_asym.
    + apply severity_ltb_negtrans.
  - intros issue action Hin.
    apply list_elem_of_fmap in Hin as (e & [= -> ->] & He).
    rewrite Forall_forall in Hfirst. by apply Hfirst.
Qed.

Lemma plan_follows_severity_witness :
  head (default [] (recovery_actions emergency_issue)) = Some SCALE_UP.
Proof.
  apply (plan_follows_severity sample_clock [database_issue; emergency_issue]
           (initial_state 0)).
  vm_compute. apply list_elem_of_here.
Defined.

End PlanOrderClaim.

(** ** The success rates on the gauge *)

Section SuccessRates.
Import SelfHealing.

Lemma od_set_set {V} (d : Py.odict V) k v v' :
  Py.od_set (Py.od_set d k v) k v' = Py.od_set d k v'.
Proof.
  induction d as [|[k0 v0] d IH]; simpl.
  - by rewrite decide_True.
  - destruct (decide (k0 = k)) as [->|Hne]; simpl.
    + by rewrite decide_True.
    + by rewrite decide_False, IH.
Qed.

Lemma od_set_Forall {V} (P : string * V → Prop) (d : Py.odict V) k v :
  Forall P d → P (k, v) → Forall P (Py.od_set d k v).
Proof.
  intros Hd Hv. induction d as [|[k0 v0] d IH]; simpl.
  - by constructor.
  - apply Forall_cons in Hd as [H0 Hd].
    destruct (decide (k0 = k)) as [->|Hne]; constructor; auto.
Qed.

Lemma count_action_unfold (d : Py.odict ActionStats) (r : RecoveryResult) :
  count_action d r =
    let s := default {| stat_total := 0; stat_success := 0 |}
               (Py.od_get d (recovery_action_value (rr_action r))) in
    Py.od_set d (recovery_action_value (rr_action r))
      {| stat_total := stat_total s + 1;
         stat_success := if success r then stat_success s + 1 else stat_success s |}.
Proof.
  unfold count_action. cbv zeta.
  destruct (Py.od_get d _) as [s|] eqn:E.
  - rewrite E. simpl. by destruct (success r).
  - rewrite od_get_set_eq, od_set_set. simpl. by destruct (success r).
Qed.

Lemma recent_actions_elem now history r :
  r ∈ recent_actions now history → r ∈ history.
Proof.
  revert now. induction history as [|r0 history IH]; intros now; simpl; [done|].
  destruct (recent (now O) r0).
  - intros [-> | H]%elem_of_cons; [left | right; eauto].
  - intros H. right. eauto.
Qed.

Lemma count_loop_inv (rs : list RecoveryResult) (d : Py.odict ActionStats)
    (history : list RecoveryResult) :
  (∀ r, r ∈ rs → r ∈ history) →
  Forall (λ e, 1 ≤ stat_total (snd e) ∧ 0 ≤ stat_success (snd e) ≤ stat_total (snd e) ∧
               ∃ r, r ∈ history ∧ recovery_action_value (rr_action r) = fst e) d →
  NoDup (Py.od_keys d) →
  Forall (λ e, 1 ≤ stat_total (snd e) ∧ 0 ≤ stat_success (snd e) ≤ stat_total (snd e) ∧
               ∃ r, r ∈ history ∧ recovery_action_value (rr_action r) = fst e)
         (fold_left count_action rs d) ∧
  NoDup (Py.od_keys (fold_left count_action rs d)).
Proof.
  revert d. induction rs as [|r rs IH]; intros d Hrs Hd Hnd; [done|].
  simpl. apply IH.
  - intros r' Hr'. apply Hrs. by right.
  - rewrite count_action_unfold. cbv zeta. apply od_set_Forall; [done|].
    simpl. destruct (Py.od_get d _) as [s|] eqn:E; simpl.
    + apply od_get_elem in E. rewrite Forall_forall in Hd.
      destruct (Hd _ E) as (H1 & H2 & _). simpl in *.
      split; [lia|]. split; [destruct (success r); lia|].
      exists r. split; [apply Hrs; left | done].
    + split; [lia|]. split; [destruct (success r); lia|].
      exists r. split; [apply Hrs; left | done].
  - rewrite count_action_unfold. cbv zeta. by apply od_set_NoDup.
Qed.

Lemma success_rate_range (s : ActionStats) :
  1 ≤ stat_total s → 0 ≤ stat_success s ≤ stat_total s →
  (0 <= success_rate s <= 1)%Q.
Proof.
  intros Ht [H0 H1]. unfold success_rate.
  destruct (Z.ltb_spec 0 (stat_total s)) as [_|]; [|lia].
  assert (Hpos : (0 < inject_Z (stat_total s))%Q).
  { change 0%Q with (inject_Z 0). rewrite <- Zlt_Qlt. lia. }
  assert (Hs0 : (0 <= inject_Z (stat_success s))%Q).
  { change 0%Q with (inject_Z 0). by rewrite <- Zle_Qle. }
  assert (Hs1 : (inject_Z (stat_success s) <= inject_Z (stat_total s))%Q).
  { by rewrite <- Zle_Qle. }
  split.
  - apply Qle_shift_div_l; [done | lra].
  - apply Qle_shift_div_r; [done | lra].
Qed.

Lemma recent_actions_spec now history r :
  r ∈ recent_actions now history ↔
  ∃ k, history !! k = Some r ∧ now k - 24 * 3600 * 1000000 < rr_timestamp r.
Proof.
  revert now. induction history as [|r0 history IH]; intros now; simpl.
  - split; [intros H; by apply elem_of_nil in H | intros (k & H & _); done].
  - assert (Hrec : ∀ t x, recent t x = true ↔ t - 24 * 3600 * 1000000 < rr_timestamp x).
    { intros t x. unfold recent. apply Z.ltb_lt. }
    destruct (recent (now O) r0) eqn:E.
    + rewrite elem_of_cons, IH. split.
      * intros [-> | (k & Hk & Ht)]; [exists O; split; [done | by apply Hrec]|].
        exists (S k). done.
      * intros ([|k] & Hk & Ht); simpl in Hk; [left; congruence|].
        right. by exists k.
    + rewrite IH. split.
      * intros (k & Hk & Ht). exists (S k). done.
      * intros ([|k] & Hk & Ht); simpl in Hk; [|by exists k].
        injection Hk as <-. apply Hrec in Ht. congruence.
Qed.

(** The counters of an action type after the loop: those before it
    plus the numbers of records and of successful records of the type. *)
Lemma count_loop_get (rs : list RecoveryResult) (d : Py.odict ActionStats) k :
  let of_type := filter (λ r, recovery_action_value (rr_action r) = k) rs in
  let succeeded := filter (λ r, success r = true) of_type in
  let base := default {| stat_total := 0; stat_success := 0 |} (Py.od_get d k) in
  Py.od_get (fold_left count_action rs d) k =
    match of_type with
    | [] => Py.od_get d k
    | _ => Some {| stat_total := stat_total base + Z.of_nat (length of_type);
                   stat_success := stat_success base + Z.of_nat (length succeeded) |}
    end.
Proof.
  revert d. induction rs as [|r rs IH]; intros d; [done|].
  cbv zeta in *. simpl fold_left. rewrite IH. clear IH.
  rewrite count_action_unfold. cbv zeta.
  rewrite (filter_cons _ r rs).
  destruct (decide (recovery_action_value (rr_action r) = k)) as [Hk|Hk].
  - rewrite Hk, od_get_set_eq. simpl default.
    rewrite (filter_cons _ r (filter _ rs)).
    set (base := default _ (Py.od_get d k)).
    set (l := filter (λ r0, recovery_action_value (rr_action r0) = k) rs).
    destruct (success r) eqn:Es;
      [rewrite decide_True by done | rewrite decide_False by done];
      destruct l as [|x l]; simpl; f_equal; f_equal; lia.
  - rewrite od_get_set_ne by done. done.
Qed.

(** X24.  [update_prometheus_metrics] sets exactly one success rate for
    every action type that has a record of the last 24 hours in the
    history, and none for any other type.  The rate of a type is the
    number of its successful records of the last 24 hours divided by
    the number of its records of the last 24 hours; it lies between 0
    and 1, and the fallback value 0 of the division is never used.  A
    record counts as recent when its time stamp is less than 24 hours
    before the clock reading taken for it. *)
Theorem success_rates_per_action_type (recovery_history : list RecoveryResult)
    (now : nat → Z) :
  let recents := recent_actions now recovery_history in
  let rates := update_prometheus_metrics recovery_history now in
  NoDup (map fst rates) ∧
  (∀ r, r ∈ recents ↔
     ∃ k, recovery_history !! k = Some r ∧
          now k - 24 * 3600 * 1000000 < rr_timestamp r) ∧
  (∀ action_type,
     action_type ∈ map fst rates ↔
     ∃ r, r ∈ recents ∧ recovery_action_value (rr_action r) = action_type) ∧
  (∀ action_type rate, (action_type, rate) ∈ rates →
     let of_type :=
       filter (λ r, recovery_action_value (rr_action r) = action_type) recents in
     let succeeded := filter (λ r, success r = true) of_type in
     (0 < length of_type)%nat ∧
     (rate == inject_Z (Z.of_nat (length succeeded))
              / inject_Z (Z.of_nat (length of_type)))%Q ∧
     (0 <= rate <= 1)%Q).
Proof.
  cbv zeta. unfold update_prometheus_metrics. cbv zeta.
  set (recents := recent_actions now recovery_history).
  destruct (count_loop_inv recents [] recovery_history) as [_ Hnd].
  { intros r Hr. apply recent_actions_spec in Hr as (k & Hk & _).
    by eapply list_elem_of_lookup_2. }
  { constructor. }
  { constructor. }
  set (final := fold_left count_action recents []) in *.
  assert (Hget : ∀ k,
    Py.od_get final k =
      match filter (λ r, recovery_action_value (rr_action r) = k) recents with
      | [] => None
      | _ => Some {| stat_total :=
                       Z.of_nat (length (filter (λ r, recovery_action_value (rr_action r) = k) recents));
                     stat_success :=
                       Z.of_nat (length (filter (λ r, success r = true)
                          (filter (λ r, recovery_action_value (rr_action r) = k) recents))) |}
      end).
  { intros k. unfold final. rewrite (count_loop_get recents [] k). simpl. done. }
  split; [by rewrite map_map|]. split; [apply recent_actions_spec|]. split.
  - intros k. rewrite map_map. simpl. fold (Py.od_keys final).
    destruct (decide (k ∈ Py.od_keys final)) as [Hin|Hin].
    + split; [intros _|done].
      destruct (Py.od_get final k) as [st|] eqn:E;
        [|by apply od_get_None in E].
      rewrite Hget in E.
      destruct (filter _ recents) as [|x l] eqn:El; [done|].
      assert (Hx : x ∈ filter (λ r, recovery_action_value (rr_action r) = k) recents)
        by (rewrite El; left).
      apply list_elem_of_filter in Hx as [Hk Hx]. by exists x.
    + split; [done|]. intros (r & Hr & Hk). exfalso.
      apply od_get_None in Hin. rewrite Hget in Hin.
      assert (Hx : r ∈ filter (λ r, recovery_action_value (rr_action r) = k) recents)
        by (by apply list_elem_of_filter).
      destruct (filter _ recents); [by apply elem_of_nil in Hx | done].
  - intros k v Hin. apply list_elem_of_fmap in Hin as ([k' st] & [= -> ->] & Hst).
    apply (od_elem_get _ _ _ Hnd) in Hst. rewrite Hget in Hst.
    destruct (filter (λ r, recovery_action_value (rr_action r) = k') recents)
      as [|x l] eqn:El; [done|].
    injection Hst as <-.
    set (of_type := x :: l).
    set (succeeded := filter (λ r, success r = true) of_type).
    assert (Hlen : (length succeeded ≤ length of_type)%nat) by apply length_filter.
    split; [simpl; lia|]. split.
    + unfold success_rate. simpl stat_total. simpl stat_success.
      destruct (Z.ltb_spec 0 (Z.of_nat (length of_type))) as [_|H0]; [reflexivity|].
      simpl in H0. lia.
    + apply success_rate_range; simpl stat_total; simpl stat_success.
      * simpl. lia.
      * split; [lia|]. apply Nat2Z.inj_le. exact Hlen.
Qed.

Lemma success_rates_per_action_type_witness :
  ∃ rate,
    ("scale_up", rate) ∈
      update_prometheus_metrics
        [ {| rr_action := SCALE_UP; target := "api-server"; success := true;
             duration := 1; message := "ok"; rr_timestamp := 0;
             side_effects := None |};
          {| rr_action := SCALE_UP; target := "api-server"; success := false;
             duration := 1; message := "failed"; rr_timestamp := 5;
             side_effects := None |} ] (λ _, 1000000) ∧
    (0 <= rate <= 1)%Q.
Proof.
  eexists. split; [vm_compute; apply list_elem_of_here|].
  destruct (success_rates_per_action_type
              [ {| rr_action := SCALE_UP; target := "api-server"; success := true;
                   duration := 1; message := "ok"; rr_timestamp := 0;
                   side_effects := None |};
                {| rr_action := SCALE_UP; target := "api-server"; success := false;
                   duration := 1; message := "failed"; rr_timestamp := 5;
                   side_effects := None |} ] (λ _, 1000000))
    as (_ & _ & _ & H).
  destruct (H "scale_up" (1 # 2)%Q) as (_ & _ & Hrange);
    [vm_compute; apply list_elem_of_here | exact Hrange].
Defined.

End SuccessRates.

(** ** Predictive scaling *)

Section PredictiveScaling.
Import SelfHealing.

Lemma proactive_count (up : bool) (w : World) name current :
  replica_count w name = Some current →
  let run := if up then proactive_scale_up else proactive_scale_down in
  ∃ n, replica_count (snd (run w)) name = Some n ∧
       if up then current ≤ n ≤ current + 1 else current - 1 ≤ n ≤ current.
Proof.
  intros Hc run. destruct (proactive_spec up w) as [_ H]. fold run in H.
  rewrite H, Hc. clear H.
  assert (Ht : if up then current ≤ proactive_up_target current ≤ current + 1
               else current - 1 ≤ proactive_down_target current ≤ current).
  { unfold proactive_up_target, proactive_down_target.
    destruct up; case_innermost; lia. }
  destruct up; repeat case_decide; repeat case_innermost; simpl;
    eexists; (split; [reflexivity|]); first [exact Ht | lia].
Qed.

(** X25.  [predictive_scaling] never raises and moves a replica count by at
    most one.  In a peak hour (9-11, 14-16, 19-21) no count goes down,
    whatever the predicted load; outside the peak hours no count goes
    down unless the predicted load is below 0.3, and none goes up
    unless it is above 0.8; when the prediction fails nothing
    changes. *)
Theorem predictive_scaling_direction (predicted_load : Py.outcome Q)
    (current_hour : Z) (w : World) (name : string) (current : Z) :
  replica_count w name = Some current →
  let w' := snd (predictive_scaling predicted_load current_hour w) in
  fst (predictive_scaling predicted_load current_hour w) = Py.Ok () ∧
  ∃ n, replica_count w' name = Some n ∧
       current - 1 ≤ n ≤ current + 1 ∧
       (current_hour ∈ peak_hours → current ≤ n) ∧
       (∀ load, predicted_load = Py.Ok load → (3 # 10 <= load)%Q → current ≤ n) ∧
       (∀ load, predicted_load = Py.Ok load → (load <= 8 # 10)%Q →
                current_hour ∉ peak_hours → n ≤ current) ∧
       (∀ e, predicted_load = Py.Raise e → n = current).
Proof.
  intros Hc. cbv zeta.
  destruct (proactive_count true w name current Hc) as (nu & Hu & Hru).
  destruct (proactive_count false w name current Hc) as (nd & Hd & Hrd).
  destruct (proactive_spec true w) as [Hoku _].
  destruct (proactive_spec false w) as [Hokd _].
  cbv zeta in *.
  unfold predictive_scaling, Py.try_catch, Py.bindM, call, Py.ret.
  destruct predicted_load as [load|e]; simpl.
  - destruct (Qlt_le_dec (8 # 10) load) as [Hhi|Hhi]; simpl.
    + destruct (proactive_scale_up w) as [[[]|?] wu] eqn:E; simpl in *;
        (split; [done|]); exists nu; (split; [done|]);
        (split; [lia|]); (split; [intros; lia|]); (split; [intros; lia|]);
        (split; [|done]); intros load' [= <-] Hle; lra.
    + case_bool_decide as Hpeak; simpl.
      * destruct (proactive_scale_up w) as [[[]|?] wu] eqn:E; simpl in *;
          (split; [done|]); exists nu; (split; [done|]);
          (split; [lia|]); (split; [intros; lia|]); (split; [intros; lia|]);
          (split; [|done]); intros load' _ _ Hn; done.
      * destruct (Qlt_le_dec load (3 # 10)) as [Hlo|Hlo]; simpl.
        -- destruct (proactive_scale_down w) as [[[]|?] wd] eqn:E; simpl in *;
             (split; [done|]); exists nd; (split; [done|]);
             (split; [lia|]); (split; [done|]);
             (split; [intros load' [= <-] Hge; lra|]);
             (split; [intros; lia | done]).
        -- split; [done|]. exists current. split; [done|].
           split; [lia|]. split; [intros; lia|]. split; [intros; lia|].
           split; [intros; lia | done].
  - split; [done|]. exists current. split; [done|].
    split; [lia|]. split; [intros; lia|]. split; [done|]. split; done.
Qed.

Lemma predictive_scaling_direction_witness :
  ∃ n, replica_count (snd (predictive_scaling (Py.Ok (1 # 10)) 10 sample_world))
         "hankook-frontend" = Some n ∧ 2 ≤ n.
Proof.
  destruct (predictive_scaling_direction (Py.Ok (1 # 10)) 10 sample_world
              "hankook-frontend" 2 eq_refl) as (_ & n & Hn & _ & Hpeak & _).
  exists n. split; [exact Hn|]. apply Hpeak.
  apply list_elem_of_further, list_elem_of_here.
Defined.

End PredictiveScaling.

(** ** Executing a recovery plan *)

Section ExecutePlan.
Import SelfHealing.

(** X26.  [execute_recovery_plan] appends exactly one record per entry of
    the plan to the recovery history, in the order of the plan, each
    with the action and the component of its entry; no record is lost to
    an exception.  When a Slack webhook is configured, one notification
    request is made per record, flagged with the success of that
    record; without one, none is made.  The deployments that exist are
    the same before and after. *)
Theorem execute_plan_records (slack_webhook : string)
    (recovery_plan : list (HealthIssue * RecoveryAction))
    (timings : nat → Timing) (history : list RecoveryResult)
    (posted : list (RecoveryResult * bool)) (w : World) :
  ∃ results w',
    execute_recovery_plan slack_webhook recovery_plan timings history posted w =
      (history ++ results,
       posted ++ (if bool_decide (slack_webhook = "") then []
                  else map (λ r, (r, success r)) results),
       w') ∧
    map (λ r, (rr_action r, target r)) results =
      map (λ e, (snd e, component (fst e))) recovery_plan ∧
    (∀ k r, results !! k = Some r →
       duration r = (t_end (timings k) - t_start (timings k))%Q ∧
       rr_timestamp r = t_now (timings k)) ∧
    (∀ n, is_Some (deployments w' !! n) ↔ is_Some (deployments w !! n)).
Proof.
  revert timings history posted w.
  induction recovery_plan as [|[issue action] plan IH];
    intros timings history posted w.
  - exists [], w. simpl. rewrite !app_nil_r.
    split; [by case_bool_decide; rewrite ?app_nil_r|].
    split; [done|]. split; [|done]. intros k r H. done.
  - simpl.
    destruct (execute_spec (ops := self_ops) (t_start (timings O))
                (t_end (timings O)) (t_now (timings O)) issue action w)
      as (r & Hexec & Hact & Htgt & Hdur & Hts & _).
    rewrite Hexec.
    pose proof (dispatch_keeps_deployments issue action w) as Hdom.
    destruct (IH (λ n, timings (S n)) (history ++ [r])
                 (send_recovery_notification slack_webhook r
                    (if success r then true else false) posted)
                 (snd (dispatch (ops := self_ops) issue action w)))
      as (results & w' & Hrun & Hmap & Htime & Hdom').
    exists (r :: results), w'. rewrite Hrun.
    split.
    { unfold send_recovery_notification. case_bool_decide.
      - by rewrite <- !app_assoc.
      - rewrite <- !app_assoc. simpl. by destruct (success r). }
    split; [simpl; by rewrite Hact, Htgt, Hmap|].
    split.
    + intros [|k] r' Hk; simpl in Hk.
      * injection Hk as <-. done.
      * by apply Htime.
    + intros n. rewrite Hdom'. apply Hdom.
Qed.

Lemma execute_plan_records_witness :
  ∃ results w',
    execute_recovery_plan "" [(emergency_issue, SCALE_UP); (database_issue, ROTATE_LOGS)]
      (λ _, {| t_start := 0; t_end := 1; t_now := 0 |}) [] [] sample_world =
      ([] ++ results, [], w') ∧
    length results = 2%nat.
Proof.
  destruct (execute_plan_records ""
              [(emergency_issue, SCALE_UP); (database_issue, ROTATE_LOGS)]
              (λ _, {| t_start := 0; t_end := 1; t_now := 0 |}) [] [] sample_world)
    as (results & w' & Hrun & Hmap & _).
  exists results, w'. split; [exact Hrun|].
  apply (f_equal length) in Hmap. rewrite !length_map in Hmap. exact Hmap.
Defined.

End ExecutePlan.

(** ** Chaos testing *)

Section Chaos.
Import SelfHealing.

(** X27.  [chaos_pod_kill] only ever picks a pod of the listing that is
    running, whose name starts with [hankook-] and does not contain
    [postgres]; when the listing fails or holds no such pod, it deletes
    nothing. *)
Theorem chaos_pod_kill_target (pods : Py.outcome (list Pod)) (choice : nat)
    (target_pod : string) :
  chaos_pod_kill pods choice = Some target_pod →
  ∃ items pod,
    pods = Py.Ok items ∧ pod ∈ items ∧ pod_name pod = target_pod ∧
    phase pod = "Running" ∧
    Py.startswith target_pod "hankook-" = true ∧
    Py.contains "postgres" target_pod = false.
Proof.
  unfold chaos_pod_kill. destruct pods as [items|e]; [|done].
  destruct (test_candidates items) as [|c cs] eqn:Ec; [done|].
  assert (Hnth : nth (choice mod length (c :: cs)) (c :: cs) c ∈ c :: cs).
  { apply list_elem_of_In, nth_In, Nat.mod_upper_bound. simpl. lia. }
  revert Hnth. generalize (nth (choice mod length (c :: cs)) (c :: cs) c).
  intros t Hnth [= Ht]. subst t.
  assert (Hin : target_pod ∈ test_candidates items) by (by rewrite Ec).
  unfold test_candidates in Hin.
  apply list_elem_of_fmap in Hin as (pod & Hname & Hpod).
  apply list_elem_of_In, filter_In in Hpod as [Hpod Hsel].
  apply andb_true_iff in Hsel as [Hsel Hrun].
  apply andb_true_iff in Hsel as [Hpre Hpg].
  apply negb_true_iff in Hpg. apply bool_decide_eq_true in Hrun.
  exists items, pod. subst target_pod.
  split; [done|]. split; [by apply list_elem_of_In|]. done.
Qed.

Lemma chaos_pod_kill_target_witness :
  ∃ items pod,
    Py.Ok [ {| pod_name := "hankook-postgres-0"; phase := "Running";
               container_statuses := None |};
            {| pod_name := "hankook-api-1"; phase := "Running";
               container_statuses := None |} ] = Py.Ok items ∧
    pod ∈ items ∧ pod_name pod = "hankook-api-1" ∧
    phase pod = "Running" ∧
    Py.startswith "hankook-api-1" "hankook-" = true ∧
    Py.contains "postgres" "hankook-api-1" = false.
Proof.
  apply (chaos_pod_kill_target _ 7). reflexivity.
Defined.

End Chaos.

(** ** The health score and the number of issues *)

Section RoundedScore.
Import SelfHealing.

Variable rnd : Q → Q.
Hypothesis rnd_mono : ∀ x y, (x <= y)%Q → (rnd x <= rnd y)%Q.
Hypothesis rnd_idem : ∀ x, (rnd (rnd x) == rnd x)%Q.
Hypothesis rnd_int : ∀ n : Z, 0 ≤ n ≤ 100 → (rnd (inject_Z n) == inject_Z n)%Q.

Lemma rnd_zero : (rnd 0 == 0)%Q.
Proof. apply (rnd_int 0). lia. Qed.

Lemma fold_round_ge (acc : Q) (xs : list Q) :
  (rnd acc == acc)%Q → Forall (λ x, (0 <= x)%Q) xs →
  (acc <= fold_left (λ a x, rnd (a + x)) xs acc)%Q ∧
  (rnd (fold_left (λ a x, rnd (a + x)) xs acc)
     == fold_left (λ a x, rnd (a + x)) xs acc)%Q.
Proof.
  revert acc. induction xs as [|x xs IH]; intros acc Hacc Hxs; simpl.
  - split; [lra | done].
  - apply Forall_cons in Hxs as [Hx Hxs].
    destruct (IH (rnd (acc + x)) (rnd_idem _) Hxs) as [Hge Hfix].
    split; [|done].
    assert (rnd acc <= rnd (acc + x))%Q by (apply rnd_mono; lra). lra.
Qed.

Lemma float_sum_range (xs : list Q) :
  Forall (λ x, (0 <= x)%Q) xs →
  (0 <= float_sum rnd xs)%Q ∧ (rnd (float_sum rnd xs) == float_sum rnd xs)%Q.
Proof. intros H. apply fold_round_ge; [apply rnd_zero | done]. Qed.

Lemma float_sum_app_ge (xs ys : list Q) :
  Forall (λ x, (0 <= x)%Q) xs → Forall (λ x, (0 <= x)%Q) ys →
  (float_sum rnd xs <= float_sum rnd (xs ++ ys))%Q.
Proof.
  intros Hxs Hys. unfold float_sum. rewrite fold_left_app.
  apply fold_round_ge; [|done]. by apply float_sum_range.
Qed.

Lemma float_sum_elem (x : Q) (xs : list Q) :
  Forall (λ x, (0 <= x)%Q) xs → (rnd x == x)%Q → x ∈ xs →
  (x <= float_sum rnd xs)%Q.
Proof.
  intros Hxs Hx Hin. apply list_elem_of_split in Hin as (l1 & l2 & ->).
  apply Forall_app in Hxs as [H1 H2]. apply Forall_cons in H2 as [H0 H2].
  unfold float_sum. rewrite fold_left_app. simpl.
  destruct (float_sum_range l1 H1) as [Hge1 _]. unfold float_sum in Hge1.
  set (acc := fold_left (λ a y, rnd (a + y)%Q) l1 0%Q) in *.
  destruct (fold_round_ge (rnd (acc + x)%Q) l2 (rnd_idem _) H2) as [Hge2 _].
  assert (rnd x <= rnd (acc + x))%Q by (apply rnd_mono; lra).
  lra.
Qed.

Lemma float_weights_nonneg (s : Severity) : (0 <= float_weights rnd s)%Q.
Proof.
  unfold float_weights. pose proof rnd_zero.
  assert (rnd 0 <= rnd (severity_weights s))%Q.
  { apply rnd_mono. pose proof (severity_weights_pos s). lra. }
  lra.
Qed.

Lemma float_impact_terms (l : list HealthIssue) :
  Forall (λ x, (0 <= x)%Q) (map (λ issue, float_weights rnd (severity issue)) l).
Proof.
  apply Forall_fmap, Forall_forall. intros i _. apply float_weights_nonneg.
Qed.

Lemma float_impact_app (l more : list HealthIssue) :
  (0 <= float_total_impact rnd l)%Q ∧
  (float_total_impact rnd l <= float_total_impact rnd (l ++ more))%Q.
Proof.
  unfold float_total_impact. split.
  - apply float_sum_range, float_impact_terms.
  - rewrite map_app. apply float_sum_app_ge; apply float_impact_terms.
Qed.

(** The score as a function of the impact never grows with it. *)
Lemma float_score_of_impact (t t' : Q) :
  (0 <= t)%Q → (t <= t')%Q →
  (0 <= Py.max 0 (rnd (100 - rnd (t' * 10))))%Q ∧
  (Py.max 0 (rnd (100 - rnd (t' * 10))) <= Py.max 0 (rnd (100 - rnd (t * 10))))%Q ∧
  (Py.max 0 (rnd (100 - rnd (t * 10))) <= 100)%Q.
Proof.
  intros Ht Hle.
  assert (H0 : (rnd 0 <= rnd (t * 10))%Q) by (apply rnd_mono; lra).
  assert (H1 : (rnd (t * 10) <= rnd (t' * 10))%Q) by (apply rnd_mono; lra).
  assert (H2 : (rnd (100 - rnd (t' * 10)) <= rnd (100 - rnd (t * 10)))%Q)
    by (apply rnd_mono; lra).
  pose proof rnd_zero as Hz.
  assert (H3 : (rnd (100 - rnd (t * 10)) <= rnd (inject_Z 100))%Q).
  { apply rnd_mono. change (inject_Z 100) with 100%Q. lra. }
  assert (H100 : (rnd (inject_Z 100) == 100)%Q) by (apply (rnd_int 100); lia).
  unfold Py.max. repeat destruct (Qlt_le_dec _ _); lra.
Qed.

Lemma float_score_app (issues more : list HealthIssue) :
  (0 <= float_health_score rnd (issues ++ more))%Q ∧
  (float_health_score rnd (issues ++ more) <= float_health_score rnd issues)%Q ∧
  (float_health_score rnd issues <= 100)%Q.
Proof.
  destruct (float_impact_app issues more) as [Ht Hle].
  destruct (float_score_of_impact _ _ Ht Hle) as (H1 & H2 & H3).
  destruct issues as [|i issues].
  - simpl app. destruct more as [|m more]; [simpl; lra|].
    destruct (float_impact_app (m :: more) []) as [Ht' _].
    destruct (float_score_of_impact _ _ Ht' (Qle_refl _)) as (H1' & _ & H3').
    unfold float_health_score. split; [exact H1'|]. split; [exact H3' | lra].
  - done.
Qed.

Lemma float_score_emergency (issues : list HealthIssue) :
  (∃ i, i ∈ issues ∧ severity i = EMERGENCY) →
  (float_health_score rnd issues <= 90)%Q.
Proof.
  intros (i & Hi & Hs).
  assert (H1 : (rnd (inject_Z 1) == 1)%Q) by (apply (rnd_int 1); lia).
  assert (Hw : (float_weights rnd EMERGENCY == 1)%Q) by exact H1.
  assert (Ht : (1 <= float_total_impact rnd issues)%Q).
  { assert (float_weights rnd EMERGENCY <= float_total_impact rnd issues)%Q; [|lra].
    apply float_sum_elem; [apply float_impact_terms | apply rnd_idem |].
    apply list_elem_of_fmap. exists i. by rewrite Hs. }
  destruct issues as [|i0 rest]; [by apply elem_of_nil in Hi|].
  unfold float_health_score.
  assert (H10 : (rnd (inject_Z 10) == 10)%Q) by (apply (rnd_int 10); lia).
  assert (H90 : (rnd (inject_Z 90) == 90)%Q) by (apply (rnd_int 90); lia).
  assert (Ha : (rnd (inject_Z 10) <= rnd (float_total_impact rnd (i0 :: rest) * 10))%Q).
  { apply rnd_mono. change (inject_Z 10) with 10%Q. lra. }
  assert (Hb : (rnd (100 - rnd (float_total_impact rnd (i0 :: rest) * 10))
                <= rnd (inject_Z 90))%Q).
  { apply rnd_mono. change (inject_Z 90) with 90%Q.
    change (inject_Z 10) with 10%Q in *. lra. }
  unfold Py.max. destruct (Qlt_le_dec _ _); lra.
Qed.

End RoundedScore.

Section ScoreOrder.
Import SelfHealing.

Lemma float_score_exact (l : list HealthIssue) :
  (float_health_score (λ x, x) l == health_score l)%Q.
Proof. destruct l; reflexivity. Qed.

(** X28.  The health score in floating point, for every rounding that is
    monotone, leaves floats as they are and represents the integers up
    to 100, exact arithmetic included.  Further issues appended to a
    scan never raise its score, which stays between 0 and 100, and
    never improve its status; a scan with an Emergency issue scores at
    most 90.  With exact arithmetic the score is the one of
    [health_score]. *)
Theorem rounded_health_score_antitone (rnd : Q → Q)
    (issues more : list HealthIssue) :
  (∀ x y, (x <= y)%Q → (rnd x <= rnd y)%Q) →
  (∀ x, (rnd (rnd x) == rnd x)%Q) →
  (∀ n : Z, 0 ≤ n ≤ 100 → (rnd (inject_Z n) == inject_Z n)%Q) →
  (0 <= float_health_score rnd (issues ++ more))%Q ∧
  (float_health_score rnd (issues ++ more) <= float_health_score rnd issues)%Q ∧
  (float_health_score rnd issues <= 100)%Q ∧
  (float_system_status rnd (issues ++ more) = healthy →
   float_system_status rnd issues = healthy) ∧
  (float_system_status rnd issues = critical →
   float_system_status rnd (issues ++ more) = critical) ∧
  ((∃ i, i ∈ issues ∧ severity i = EMERGENCY) →
   (float_health_score rnd issues <= 90)%Q) ∧
  (float_health_score (λ x, x) issues == health_score issues)%Q.
Proof.
  intros Hmono Hidem Hint.
  destruct (float_score_app rnd Hmono Hidem Hint issues more) as (H0 & Hle & H100).
  split; [done|]. split; [done|]. split; [done|].
  split; [|split; [|split]].
  - unfold float_system_status. cbv zeta.
    repeat destruct (Qlt_le_dec _ _); try done; intros _; exfalso; lra.
  - unfold float_system_status. cbv zeta.
    repeat destruct (Qlt_le_dec _ _); try done; intros _; exfalso; lra.
  - apply (float_score_emergency rnd Hmono Hidem Hint).
  - apply float_score_exact.
Qed.

Lemma rounded_health_score_antitone_witness :
  (float_health_score (λ x, x) ([database_issue] ++ [emergency_issue])
     <= float_health_score (λ x, x) [database_issue])%Q ∧
  (float_health_score (λ x, x) [emergency_issue] <= 90)%Q.
Proof.
  destruct (rounded_health_score_antitone (λ x, x) [database_issue] [emergency_issue])
    as (_ & H & _); [done | reflexivity | reflexivity |].
  split; [exact H|].
  destruct (rounded_health_score_antitone (λ x, x) [emergency_issue] [])
    as (_ & _ & _ & _ & _ & He & _); [done | reflexivity | reflexivity |].
  apply He. exists emergency_issue. split; [left | reflexivity].
Defined.

End ScoreOrder.
